(** * CloudPaste runtime compatibility bridge (backend/docker-server.js)

    A shallow embedding of the Express server that runs the CloudPaste
    application outside its native fetch-style runtime:

    - [Js]           JavaScript values and string helpers used by the server,
    - [Logging]      [logMessage] and the console,
    - [Json]         [JSON.stringify], [JSON.parse] and the escaping of the
                     framework's JSON writer,
    - [Persistence]  [SQLiteAdapter]: [prepare], [bind], [run], [all],
                     [first], [batch], [exec], over an abstract engine,
    - [Express]      requests, responses and the response calls the server
                     makes,
    - [Dav]          CORS and the protocol preflight middleware,
    - [Spool]        the multipart spooling middleware and its event handlers,
    - [Bridge]       [createAdaptedRequest], [convertWorkerResponseToExpress],
                     [createErrorResponse] and the wildcard route,
    - [Startup]      the lazy database initialisation middleware,
    - [Pipeline]     the routes of the protocol verbs, what they do to the
                     application settings, and the error middleware of the
                     body parsers,
    - [Environment]  [CURRENT_LOG_LEVEL] as read from [LOG_LEVEL],
    - [Upload], [Measures], [Scenarios]
                     notions and sample values used to state properties.

    The modules named [...Facts] hold the properties proved of each part.

    Asynchronous functions are modelled sequentially: every [await] is a
    bind of the state-and-exception monad of the module at hand.  The
    SQLite driver, the native application, the constructors [URL] and
    [Request] and the reading of numbers are not part of the repository;
    they appear as parameters.  The [cors] middleware and the writing of a
    response are modelled as far as the server relies on them. *)

From Stdlib Require Import ZArith Lia Bool List Ascii String.
From Stdlib Require Import DecimalString DecimalZ DecimalPos.
From stdpp Require Import base option list gmap strings.

Set Default Proof Using "Type".

Local Open Scope string_scope.
Local Open Scope Z_scope.
Local Open Scope list_scope.

(* ===================================================================== *)
(** * JavaScript helpers *)
(* ===================================================================== *)

Module Js.

(** [s.startsWith(p)] *)
Definition startsWith (s p : string) : bool := String.prefix p s.

(** [s.includes(sub)] *)
Fixpoint includes (s sub : string) : bool :=
  startsWith s sub ||
  match s with
  | EmptyString => false
  | String _ s' => includes s' sub
  end.

(** Truthiness of a value that is either [undefined] or a string: the empty
    string is falsy. *)
Definition truthy_str (o : option string) : bool :=
  match o with
  | Some s => negb (String.eqb s "")
  | None => false
  end.

(** [a || b] on such values. *)
Definition or_str (a b : option string) : option string :=
  if truthy_str a then a else b.

(** Decimal rendering of a length or an integer, as template literals and
    [JSON.stringify] print them. *)
Definition nat_to_string (n : nat) : string :=
  NilZero.string_of_uint (Nat.to_uint n).

Definition Z_to_string (z : Z) : string :=
  NilZero.string_of_int (Z.to_int z).

(** The [status] property of a thrown value. *)
Inductive StatusField :=
| StatusUndefined
| StatusNum (z : Z)
| StatusNaN
| StatusStr (s : string).

(** A thrown value: the properties the server reads from it. *)
Record JsError := mkError {
  err_message : option string;
  err_status : StatusField;
  err_stack : option string
}.

(** The TypeError the runtime raises for a property access on [null] or
    [undefined], or for spreading a value that is not iterable. *)
Definition type_error (msg : string) : JsError :=
  {| err_message := Some msg; err_status := StatusUndefined;
     err_stack := Some ("TypeError: " +:+ msg) |}.

(** Result of evaluating a JavaScript expression that may throw. *)
Inductive Outcome (A : Type) :=
| Return (a : A)
| Throw (e : JsError).
Arguments Return {A} a.
Arguments Throw {A} e.

(** Sequential code over a state [S] that may throw: what an [async]
    function is once every [await] is taken in program order. *)
Definition M (S A : Type) : Type := S -> Outcome A * S.

Definition ret {S A} (a : A) : M S A := fun w => (Return a, w).

Definition throw {S A} (e : JsError) : M S A := fun w => (Throw e, w).

Definition bind {S A B} (m : M S A) (k : A -> M S B) : M S B :=
  fun w =>
    match m w with
    | (Return a, w') => k a w'
    | (Throw e, w') => (Throw e, w')
    end.

(** [try { m } catch (error) { h error }] *)
Definition try_catch {S A} (m : M S A) (h : JsError -> M S A) : M S A :=
  fun w =>
    match m w with
    | (Return a, w') => (Return a, w')
    | (Throw e, w') => h e w'
    end.

Module Notations.
Notation "'let*' x ':=' m 'in' k" := (bind m (fun x => k))
  (at level 10, x name, m at level 100, k at level 200).
End Notations.

End Js.

(* ===================================================================== *)
(** * Logging *)
(* ===================================================================== *)

Module Logging.
Import Js.

Inductive Level := LvError | LvWarn | LvInfo | LvDebug.

(** [LOG_LEVELS] *)
Definition LOG_LEVELS (l : Level) : Z :=
  match l with
  | LvError => 0
  | LvWarn => 1
  | LvInfo => 2
  | LvDebug => 3
  end.

(** A value placed in the data object of a log call. *)
Inductive LogScalar :=
| ScalarStr (s : string)
| ScalarNum (z : Z)
| ScalarNull.

Inductive LogVal :=
| LogErr (e : JsError)
| LogStr (s : option string)
| LogNum (z : Z)
| LogNull
| LogList (l : list LogScalar).

Record LogEntry := mkLog {
  log_level : Level;
  log_message : string;
  log_data : list (string * LogVal)
}.

(** [CURRENT_LOG_LEVEL] is [parseInt(process.env.LOG_LEVEL)] when the variable
    is set, and [LOG_LEVELS.INFO] otherwise; [None] stands for [NaN], with
    which every comparison is false. *)
Definition level_enabled (current : option Z) (l : Level) : bool :=
  match current with
  | Some c => LOG_LEVELS l <=? c
  | None => false
  end.

(** [logMessage(level, message, data)]: the entry reaches the console when
    the level is enabled.  Every call site passes either no data or an object
    literal, which is truthy. *)
Definition logMessage (current : option Z) (level : Level) (message : string)
    (data : list (string * LogVal)) (console : list LogEntry) : list LogEntry :=
  if level_enabled current level
  then console ++ [mkLog level message data]
  else console.

End Logging.

(* ===================================================================== *)
(** * JSON: [JSON.stringify] and [JSON.parse] *)
(* ===================================================================== *)

Module Json.
Import Js.

(** Values of [JSON.parse].  A Number is held as the text [Number::toString]
    gives for it, which is what [JSON.stringify] prints; the two zeros
    share the text [0].  Strings are the bytes of their UTF-8 encoding, a
    lone surrogate being encoded like any other code point of three bytes.
    The members of an object are listed in the order in which the object
    enumerates its own properties. *)
#[warnings="-register-all"]
Inductive json :=
| JNull
| JBool (b : bool)
| JNum (text : string)
| JStr (s : string)
| JArr (items : list json)
| JObj (members : list (string * json)).

(** An integer that prints in plain decimal (a status code, a byte, a size
    in bytes), as a value. *)
Definition number (z : Z) : json := JNum (Z_to_string z).

(** The text of a finite Number: none of the three texts of the Numbers
    that are not finite, for which [JSON.stringify] prints [null]. *)
Definition is_finite (text : string) : bool :=
  negb (String.eqb text "Infinity" || String.eqb text "-Infinity" || String.eqb text "NaN").

Definition dquote : ascii := ascii_of_nat 34.
Definition backslash : ascii := ascii_of_nat 92.

(** ** [JSON.stringify(value)] *)

Definition hex_digit (n : nat) : ascii :=
  match n with
  | 0 => "0" | 1 => "1" | 2 => "2" | 3 => "3" | 4 => "4" | 5 => "5" | 6 => "6"
  | 7 => "7" | 8 => "8" | 9 => "9" | 10 => "a" | 11 => "b" | 12 => "c"
  | 13 => "d" | 14 => "e" | _ => "f"
  end%nat%char.

(** One character of a quoted string: the short escapes, [\u00xx] for the
    other control characters, and the character itself otherwise. *)
Definition escape_char (c : ascii) : string :=
  let n := nat_of_ascii c in
  if (n =? 8)%nat then String backslash "b"
  else if (n =? 9)%nat then String backslash "t"
  else if (n =? 10)%nat then String backslash "n"
  else if (n =? 12)%nat then String backslash "f"
  else if (n =? 13)%nat then String backslash "r"
  else if (n =? 34)%nat then String backslash (String dquote "")
  else if (n =? 92)%nat then String backslash (String backslash "")
  else if (n <? 32)%nat then
    String backslash
      (String "u" (String "0" (String "0"
         (String (hex_digit (n / 16)) (String (hex_digit (n mod 16)) "")))))
  else String c "".

(** The code unit three bytes stand for when they encode a surrogate. *)
Definition surrogate_unit (a b c : ascii) : option N :=
  let x := N_of_ascii a in
  let y := N_of_ascii b in
  let z := N_of_ascii c in
  if ((x =? 237) && (160 <=? y) && (y <=? 191) && (128 <=? z) && (z <=? 191))%N
  then Some (55296 + (y - 160) * 64 + (z - 128))%N
  else None.

(** The four hexadecimal digits of a code unit. *)
Definition hex4 (u : N) : string :=
  String (hex_digit (N.to_nat ((u / 4096) mod 16)))
    (String (hex_digit (N.to_nat ((u / 256) mod 16)))
       (String (hex_digit (N.to_nat ((u / 16) mod 16)))
          (String (hex_digit (N.to_nat (u mod 16))) ""))).

(** The characters of a quoted string.  A lone surrogate is written as its
    [\u] escape. *)
Fixpoint escape (s : string) : string :=
  match s with
  | EmptyString => ""
  | String a s1 =>
      match s1 with
      | String b (String c s3) =>
          match surrogate_unit a b c with
          | Some u => String backslash (String "u" (hex4 u)) +:+ escape s3
          | None => escape_char a +:+ escape s1
          end
      | _ => escape_char a +:+ escape s1
      end
  end.

Definition quote (s : string) : string :=
  String dquote (escape s +:+ String dquote "").

Fixpoint stringify (v : json) : string :=
  match v with
  | JNull => "null"
  | JBool true => "true"
  | JBool false => "false"
  | JNum text => if is_finite text then text else "null"
  | JStr s => quote s
  | JArr items => "[" +:+ String.concat "," (map stringify items) +:+ "]"
  | JObj members =>
      "{" +:+ String.concat ","
                (map (fun kv => quote (fst kv) +:+ ":" +:+ stringify (snd kv)) members)
          +:+ "}"
  end.

(** ** The JSON writer of the framework

    With its [json escape] setting on, [res.json] replaces the three
    characters that open markup in the text [JSON.stringify] printed. *)
Definition html_escape_char (c : ascii) : string :=
  if Ascii.eqb c "<" then String backslash "u003c"
  else if Ascii.eqb c ">" then String backslash "u003e"
  else if Ascii.eqb c "&" then String backslash "u0026"
  else String c "".

(** [json.replace(/[<>&]/g, ...)] *)
Fixpoint html_escape (s : string) : string :=
  match s with
  | EmptyString => ""
  | String c s' => html_escape_char c +:+ html_escape s'
  end.

(** ** Property order of an object *)

(** An array index: the canonical decimal form of an integer below 2^32 - 1. *)
Definition array_index (k : string) : option N :=
  match NilEmpty.uint_of_string k with
  | Some d =>
      let n := N.of_uint d in
      if String.eqb (NilZero.string_of_uint (N.to_uint n)) k && (n <? 4294967295)%N
      then Some n else None
  | None => None
  end.

(** [precedes k k']: a property [k] is enumerated before a later-created
    property [k']: indices come first, in ascending order. *)
Definition precedes (k k' : string) : bool :=
  match array_index k, array_index k' with
  | Some a, Some b => (a <? b)%N
  | Some _, None => true
  | None, Some _ => false
  | None, None => true
  end.

Fixpoint keys_ok (ks : list string) : bool :=
  match ks with
  | [] => true
  | k :: rest =>
      forallb (fun k' => negb (String.eqb k k') && precedes k k') rest && keys_ok rest
  end.

Definition has_key (k : string) (members : list (string * json)) : bool :=
  existsb (fun kv => String.eqb (fst kv) k) members.

Fixpoint replace_value (k : string) (v : json) (members : list (string * json))
    : list (string * json) :=
  match members with
  | [] => []
  | (k', v') :: rest =>
      if String.eqb k' k then (k', v) :: rest else (k', v') :: replace_value k v rest
  end.

Fixpoint insert_index (n : N) (k : string) (v : json) (members : list (string * json))
    : list (string * json) :=
  match members with
  | [] => [(k, v)]
  | (k', v') :: rest =>
      match array_index k' with
      | Some m =>
          if (m <? n)%N then (k', v') :: insert_index n k v rest
          else (k, v) :: (k', v') :: rest
      | None => (k, v) :: (k', v') :: rest
      end
  end.

(** Defining the property [k] of an object. *)
Definition set_property (k : string) (v : json) (members : list (string * json))
    : list (string * json) :=
  if has_key k members then replace_value k v members
  else
    match array_index k with
    | Some n => insert_index n k v members
    | None => members ++ [(k, v)]
    end.

Definition build_object (pairs : list (string * json)) : list (string * json) :=
  fold_left (fun o kv => set_property (fst kv) (snd kv) o) pairs [].

(** ** [JSON.parse(text)] *)

Definition is_space (c : ascii) : bool :=
  let n := nat_of_ascii c in
  ((n =? 32) || (n =? 9) || (n =? 10) || (n =? 13))%nat.

Fixpoint skip_ws (s : string) : string :=
  match s with
  | String c s' => if is_space c then skip_ws s' else s
  | EmptyString => ""
  end.

Definition is_digit (c : ascii) : bool :=
  let n := nat_of_ascii c in ((48 <=? n) && (n <=? 57))%nat.

Fixpoint span_digits (s : string) : string * string :=
  match s with
  | String c s' =>
      if is_digit c then let (d, r) := span_digits s' in (String c d, r)
      else ("", s)
  | EmptyString => ("", "")
  end.

(** The parts of a number token: an optional minus sign, the integer part
    (a single zero, or digits that do not start with zero), an optional
    fraction (a point and at least one digit) and an optional exponent (the
    letter, an optional sign and at least one digit).  Each gives the part
    and what follows it, or nothing when the token is malformed. *)
Definition take_sign (s : string) : string * string :=
  match s with
  | String c r => if Ascii.eqb c "-" then (String c "", r) else ("", s)
  | EmptyString => ("", "")
  end.

Definition take_int (s : string) : option (string * string) :=
  match s with
  | String c r =>
      if Ascii.eqb c "0" then Some (String c "", r)
      else if is_digit c then let (d, r') := span_digits r in Some (String c d, r')
      else None
  | EmptyString => None
  end.

Definition take_digits (s : string) : option (string * string) :=
  match span_digits s with
  | (EmptyString, _) => None
  | (d, r) => Some (d, r)
  end.

Definition take_frac (s : string) : option (string * string) :=
  match s with
  | String c r =>
      if Ascii.eqb c "." then
        match take_digits r with
        | Some (d, r') => Some (String c d, r')
        | None => None
        end
      else Some ("", s)
  | EmptyString => Some ("", "")
  end.

Definition take_exp_sign (s : string) : string * string :=
  match s with
  | String c r => if Ascii.eqb c "+" || Ascii.eqb c "-" then (String c "", r) else ("", s)
  | EmptyString => ("", "")
  end.

Definition take_exp (s : string) : option (string * string) :=
  match s with
  | String c r =>
      if Ascii.eqb c "e" || Ascii.eqb c "E" then
        let (sign, r1) := take_exp_sign r in
        match take_digits r1 with
        | Some (d, r2) => Some (String c (sign +:+ d), r2)
        | None => None
        end
      else Some ("", s)
  | EmptyString => Some ("", "")
  end.

Definition number_token (s : string) : option (string * string) :=
  let (sign, r0) := take_sign s in
  match take_int r0 with
  | Some (i, r1) =>
      match take_frac r1 with
      | Some (f, r2) =>
          match take_exp r2 with
          | Some (e, r3) => Some (sign +:+ i +:+ f +:+ e, r3)
          | None => None
          end
      | None => None
      end
  | None => None
  end.

Definition hex_value (c : ascii) : option N :=
  let n := N_of_ascii c in
  if ((48 <=? n) && (n <=? 57))%N then Some (n - 48)%N
  else if ((97 <=? n) && (n <=? 102))%N then Some (n - 87)%N
  else if ((65 <=? n) && (n <=? 70))%N then Some (n - 55)%N
  else None.

(** The UTF-8 bytes of a code point; a surrogate is encoded like the other
    code points of three bytes. *)
Definition utf8 (cp : N) : string :=
  if (cp <? 128)%N then String (ascii_of_N cp) ""
  else if (cp <? 2048)%N then
    String (ascii_of_N (192 + cp / 64))
      (String (ascii_of_N (128 + cp mod 64)) "")
  else if (cp <? 65536)%N then
    String (ascii_of_N (224 + cp / 4096))
      (String (ascii_of_N (128 + (cp / 64) mod 64))
         (String (ascii_of_N (128 + cp mod 64)) ""))
  else
    String (ascii_of_N (240 + cp / 262144))
      (String (ascii_of_N (128 + (cp / 4096) mod 64))
         (String (ascii_of_N (128 + (cp / 64) mod 64))
            (String (ascii_of_N (128 + cp mod 64)) ""))).

(** The code unit of [\uXXXX]. *)
Definition unicode_escape (a b c d : ascii) : option N :=
  match hex_value a, hex_value b, hex_value c, hex_value d with
  | Some x, Some y, Some z, Some w => Some (((x * 16 + y) * 16 + z) * 16 + w)%N
  | _, _, _, _ => None
  end.

(** A code unit that opens a surrogate pair, and the code unit of an escape
    that closes one. *)
Definition is_high_surrogate (unit : N) : bool :=
  ((55296 <=? unit) && (unit <=? 56319))%N.

Definition low_surrogate (b u g1 g2 g3 g4 : ascii) : option N :=
  if Ascii.eqb b backslash && Ascii.eqb u "u" then
    match unicode_escape g1 g2 g3 g4 with
    | Some low => if ((56320 <=? low) && (low <=? 57343))%N then Some low else None
    | None => None
    end
  else None.

(** The code point of a surrogate pair. *)
Definition pair_code_point (high low : N) : N :=
  (65536 + (high - 55296) * 1024 + (low - 56320))%N.

(** The characters of a string after its opening quote, up to the closing
    one.  The escape of a high surrogate followed by the escape of a low one
    is one character; any other escape of a code unit is a character of its
    own. *)
Fixpoint parse_chars (s : string) : option (string * string) :=
  match s with
  | EmptyString => None
  | String c s' =>
      if Ascii.eqb c dquote then Some ("", s')
      else if Ascii.eqb c backslash then
        match s' with
        | EmptyString => None
        | String e s'' =>
            let simple (x : ascii) :=
              match parse_chars s'' with
              | Some (t, r) => Some (String x t, r)
              | None => None
              end in
            if Ascii.eqb e dquote then simple dquote
            else if Ascii.eqb e backslash then simple backslash
            else if Ascii.eqb e "/" then simple "/"%char
            else if Ascii.eqb e "b" then simple (ascii_of_nat 8)
            else if Ascii.eqb e "f" then simple (ascii_of_nat 12)
            else if Ascii.eqb e "n" then simple (ascii_of_nat 10)
            else if Ascii.eqb e "r" then simple (ascii_of_nat 13)
            else if Ascii.eqb e "t" then simple (ascii_of_nat 9)
            else if Ascii.eqb e "u" then
              match s'' with
              | String h1 (String h2 (String h3 (String h4 s4))) =>
                  match unicode_escape h1 h2 h3 h4 with
                  | Some unit =>
                      let single :=
                        match parse_chars s4 with
                        | Some (t, r) => Some (utf8 unit +:+ t, r)
                        | None => None
                        end in
                      if is_high_surrogate unit then
                        match s4 with
                        | String b (String u (String g1 (String g2 (String g3 (String g4 s10))))) =>
                            match low_surrogate b u g1 g2 g3 g4 with
                            | Some low =>
                                match parse_chars s10 with
                                | Some (t, r) => Some (utf8 (pair_code_point unit low) +:+ t, r)
                                | None => None
                                end
                            | None => single
                            end
                        | _ => single
                        end
                      else single
                  | None => None
                  end
              | _ => None
              end
            else None
        end
      else if (nat_of_ascii c <? 32)%nat then None
      else
        match parse_chars s' with
        | Some (t, r) => Some (String c t, r)
        | None => None
        end
  end.

Fixpoint strip_prefix (p s : string) : option string :=
  match p with
  | EmptyString => Some s
  | String a p' =>
      match s with
      | String b s' => if Ascii.eqb a b then strip_prefix p' s' else None
      | EmptyString => None
      end
  end.

Definition literal (p : string) (v : json) (s : string) : option (json * string) :=
  match strip_prefix p s with
  | Some rest => Some (v, rest)
  | None => None
  end.

Section Reader.

(** The platform's reading of a number token: the text [Number::toString]
    gives for the Number the token denotes. *)
Variable canon : string -> string.

Definition parse_number (s : string) : option (string * string) :=
  match number_token s with
  | Some (token, rest) => Some (canon token, rest)
  | None => None
  end.

Fixpoint parse_value (fuel : nat) (s : string) : option (json * string) :=
  match fuel with
  | O => None
  | S fuel' =>
      match skip_ws s with
      | EmptyString => None
      | String c s' =>
          if Ascii.eqb c "n" then literal "null" JNull (String c s')
          else if Ascii.eqb c "t" then literal "true" (JBool true) (String c s')
          else if Ascii.eqb c "f" then literal "false" (JBool false) (String c s')
          else if Ascii.eqb c dquote then
            match parse_chars s' with
            | Some (t, r) => Some (JStr t, r)
            | None => None
            end
          else if Ascii.eqb c "[" then
            match skip_ws s' with
            | String c1 s1 =>
                if Ascii.eqb c1 "]" then Some (JArr [], s1)
                else
                  match parse_elements fuel' s' with
                  | Some (items, r) => Some (JArr items, r)
                  | None => None
                  end
            | EmptyString => None
            end
          else if Ascii.eqb c "{" then
            match skip_ws s' with
            | String c1 s1 =>
                if Ascii.eqb c1 "}" then Some (JObj [], s1)
                else
                  match parse_members fuel' s' with
                  | Some (pairs, r) => Some (JObj (build_object pairs), r)
                  | None => None
                  end
            | EmptyString => None
            end
          else
            match parse_number (String c s') with
            | Some (text, r) => Some (JNum text, r)
            | None => None
            end
      end
  end
with parse_elements (fuel : nat) (s : string) : option (list json * string) :=
  match fuel with
  | O => None
  | S fuel' =>
      match parse_value fuel' s with
      | Some (v, r) =>
          match skip_ws r with
          | String c r' =>
              if Ascii.eqb c "," then
                match parse_elements fuel' r' with
                | Some (vs, r'') => Some (v :: vs, r'')
                | None => None
                end
              else if Ascii.eqb c "]" then Some ([v], r')
              else None
          | EmptyString => None
          end
      | None => None
      end
  end
with parse_members (fuel : nat) (s : string) : option (list (string * json) * string) :=
  match fuel with
  | O => None
  | S fuel' =>
      match skip_ws s with
      | String q s1 =>
          if Ascii.eqb q dquote then
            match parse_chars s1 with
            | Some (k, r1) =>
                match skip_ws r1 with
                | String colon r2 =>
                    if Ascii.eqb colon ":" then
                      match parse_value fuel' r2 with
                      | Some (v, r3) =>
                          match skip_ws r3 with
                          | String c r4 =>
                              if Ascii.eqb c "," then
                                match parse_members fuel' r4 with
                                | Some (ps, r5) => Some ((k, v) :: ps, r5)
                                | None => None
                                end
                              else if Ascii.eqb c "}" then Some ([(k, v)], r4)
                              else None
                          | EmptyString => None
                          end
                      | None => None
                      end
                    else None
                | EmptyString => None
                end
            | None => None
            end
          else None
      | EmptyString => None
      end
  end.

(** [JSON.parse]: one value, then nothing but white space. *)
Definition parse (s : string) : option json :=
  match parse_value (S (String.length s)) s with
  | Some (v, rest) =>
      match skip_ws rest with
      | EmptyString => Some v
      | String _ _ => None
      end
  | None => None
  end.

(** A text the platform reads as the Number it is the text of. *)
Definition number_ok (text : string) : bool :=
  match number_token text with
  | Some (_, EmptyString) => String.eqb (canon text) text
  | _ => false
  end.

End Reader.

(** A string without the bytes of a surrogate. *)
Fixpoint surrogate_free (s : string) : bool :=
  match s with
  | EmptyString => true
  | String a s1 =>
      match s1 with
      | String b (String c _) =>
          match surrogate_unit a b c with
          | Some _ => false
          | None => surrogate_free s1
          end
      | _ => true
      end
  end.

(** A value as [JSON.parse] gives it for a text in UTF-8: the texts of the
    numbers are those of Numbers, the strings hold no surrogate, and every
    object lists distinct keys in enumeration order. *)
Fixpoint well_formed (canon : string -> string) (v : json) : bool :=
  match v with
  | JNum text => number_ok canon text
  | JStr s => surrogate_free s
  | JArr items => forallb (well_formed canon) items
  | JObj members =>
      keys_ok (map fst members)
      && forallb (fun kv => surrogate_free (fst kv) && well_formed canon (snd kv)) members
  | _ => true
  end.

(** The fuel [parse] needs for a value: one unit per value and per element. *)
Fixpoint json_size (v : json) : nat :=
  match v with
  | JArr items => S (list_sum (map (fun x => S (json_size x)) items))
  | JObj members => S (list_sum (map (fun kv => S (json_size (snd kv))) members))
  | _ => 1
  end.

(** What follows a value inside a text [stringify] printed. *)
Definition delimited (rest : string) : bool :=
  match rest with
  | EmptyString => true
  | String c _ => Ascii.eqb c "," || Ascii.eqb c "]" || Ascii.eqb c "}"
  end.

(** ** Notions used to relate [parse] and [stringify] *)

(** The characters of a quoted string, one by one. *)
Fixpoint escape_chars (s : string) : string :=
  match s with
  | EmptyString => ""
  | String c s' => escape_char c +:+ escape_chars s'
  end.

(** A character that can continue a number token. *)
Definition number_char (c : ascii) : bool :=
  is_digit c || Ascii.eqb c "." || Ascii.eqb c "e" || Ascii.eqb c "E"
  || Ascii.eqb c "+" || Ascii.eqb c "-".

(** A text that cannot continue a number token. *)
Definition neutral (rest : string) : bool :=
  match rest with
  | EmptyString => true
  | String c _ => negb (number_char c)
  end.

(** The first character of a printed value: no white space and no closing
    bracket. *)
Definition value_head (c : ascii) : Prop :=
  is_space c = false /\ Ascii.eqb c "]" = false /\ Ascii.eqb c "}" = false.

(** The text of one member of an object. *)
Definition member_text (kv : string * json) : string :=
  quote (fst kv) +:+ ":" +:+ stringify (snd kv).

(** [v] is read back from its own text, whatever delimiter follows. *)
Definition roundtrips (canon : string -> string) (v : json) : Prop :=
  forall fuel rest,
    (json_size v <= fuel)%nat -> delimited rest = true ->
    parse_value canon fuel (stringify v +:+ rest) = Some (v, rest).

(** The characters the JSON writer of the framework replaces. *)
Definition is_markup (c : ascii) : bool :=
  Ascii.eqb c "<" || Ascii.eqb c ">" || Ascii.eqb c "&".

Fixpoint count_markup (s : string) : nat :=
  match s with
  | EmptyString => 0
  | String c s' => (if is_markup c then 1 else 0) + count_markup s'
  end.

End Json.

(* ===================================================================== *)
(** * Persistence adapter: [SQLiteAdapter] *)
(* ===================================================================== *)

Module Persistence.
Import Js Js.Notations Logging.

(** Values bound to the positional parameters of a statement. *)
Inductive SqlValue :=
| SqlNull
| SqlInt (z : Z)
| SqlText (s : string).

(** The embedded engine behind [this.db] (the [sqlite] driver).  A call takes
    the connection to its next state and either resolves or rejects.  The SQL
    text of [run], [all] and [get] is whatever the caller passes, possibly
    [undefined].  [engine_open] is [open({ filename, driver })]. *)
Record Engine := mkEngine {
  Conn : Type;
  RunInfo : Type;
  Row : Type;
  engine_open : string -> Outcome Conn;
  engine_exec : string -> Conn -> Outcome unit * Conn;
  engine_run : option string -> list SqlValue -> Conn -> Outcome RunInfo * Conn;
  engine_all : option string -> list SqlValue -> Conn -> Outcome (list Row) * Conn;
  engine_get : option string -> list SqlValue -> Conn -> Outcome (option Row) * Conn
}.

(** The calls that reached the engine, in order (ghost state). *)
Inductive Call :=
| CallOpen (filename : string)
| CallExec (sql : string)
| CallRun (sql : option string) (params : list SqlValue)
| CallAll (sql : option string) (params : list SqlValue)
| CallGet (sql : option string) (params : list SqlValue).

(** What a property holding the connection evaluates to: [null] before
    [init], the driver's database object afterwards. *)
Inductive DbRef := RefNull | RefDb.

Section Adapter.

Variable E : Engine.
Variable CURRENT_LOG_LEVEL : option Z.

(** [this.dbPath] *)
Variable dbPath : string.

(** The adapter instance together with the console.  [db] is [this.db]. *)
Record World := mkWorld {
  db : option (Conn E);
  calls : list Call;
  console : list LogEntry
}.

Abbreviation M := (Js.M World).

Definition log (level : Level) (message : string)
    (data : list (string * LogVal)) : M unit :=
  fun w =>
    (Return tt,
     mkWorld (db w) (calls w) (logMessage CURRENT_LOG_LEVEL level message data (console w))).

(** Reading [this.db]. *)
Definition this_db : M DbRef :=
  fun w => (Return (match db w with Some _ => RefDb | None => RefNull end), w).

(** A method call on a connection reference.  On [null] the property access
    raises a TypeError and nothing reaches the engine. *)
Definition on_db {A} (ref : DbRef) (method : string) (c : Call)
    (f : Conn E -> Outcome A * Conn E) : M A :=
  fun w =>
    match ref, db w with
    | RefDb, Some conn =>
        let (r, conn') := f conn in
        (r, mkWorld (Some conn') (calls w ++ [c]) (console w))
    | _, _ =>
        (Throw (type_error ("Cannot read properties of null (reading '"
                              +:+ method +:+ "')")), w)
    end.

Definition db_exec (ref : DbRef) (sql : string) : M unit :=
  on_db ref "exec" (CallExec sql) (engine_exec E sql).

Definition db_run (ref : DbRef) (sql : option string) (params : list SqlValue)
    : M (RunInfo E) :=
  on_db ref "run" (CallRun sql params) (engine_run E sql params).

Definition db_all (ref : DbRef) (sql : option string) (params : list SqlValue)
    : M (list (Row E)) :=
  on_db ref "all" (CallAll sql params) (engine_all E sql params).

Definition db_get (ref : DbRef) (sql : option string) (params : list SqlValue)
    : M (option (Row E)) :=
  on_db ref "get" (CallGet sql params) (engine_get E sql params).

(** [this.db = await open({ filename: this.dbPath, driver })] *)
Definition open_db : M unit :=
  fun w =>
    let called := calls w ++ [CallOpen dbPath] in
    match engine_open E dbPath with
    | Return conn => (Return tt, mkWorld (Some conn) called (console w))
    | Throw e => (Throw e, mkWorld (db w) called (console w))
    end.

(** [init()] *)
Definition init : M unit :=
  let* _ := log LvInfo ("初始化SQLite数据库: " +:+ dbPath) [] in
  let* _ := open_db in
  let* ref := this_db in
  let* _ := db_exec ref "PRAGMA foreign_keys = ON;" in
  ret tt.

(** ** Prepared statements *)

(** The object [prepare] returns: [{ sql, params, _db }]. *)
Record Statement := mkStatement {
  sql : option string;
  params : list SqlValue;
  _db : DbRef
}.

Definition log_sql_value (v : SqlValue) : LogScalar :=
  match v with
  | SqlNull => ScalarNull
  | SqlInt z => ScalarNum z
  | SqlText s => ScalarStr s
  end.

(** [{ error, sql: this.sql, params: this.params }] *)
Definition sql_log_data (error : JsError) (st : Statement)
    : list (string * LogVal) :=
  [("error", LogErr error); ("sql", LogStr (sql st));
   ("params", LogList (map log_sql_value (params st)))].

(** [prepare(sql)] *)
Definition prepare (sql_text : option string) : M Statement :=
  let* ref := this_db in
  ret (mkStatement sql_text [] ref).

(** [bind(...args)] *)
Definition bind_params (st : Statement) (args : list SqlValue) : Statement :=
  mkStatement (sql st) args (_db st).

(** [{ success: true }] *)
Record RunOk := mkRunOk { success : bool }.

(** [run()] *)
Definition run (st : Statement) : M RunOk :=
  try_catch
    (let* _ := db_run (_db st) (sql st) (params st) in
     ret (mkRunOk true))
    (fun error =>
       let* _ := log LvError "SQL执行错误:" (sql_log_data error st) in
       throw error).

(** [{ results }] *)
Record AllOk := mkAllOk { results : list (Row E) }.

(** [all()] *)
Definition all (st : Statement) : M AllOk :=
  try_catch
    (let* rows := db_all (_db st) (sql st) (params st) in
     ret (mkAllOk rows))
    (fun error =>
       let* _ := log LvError "SQL查询错误:" (sql_log_data error st) in
       throw error).

(** [first()] *)
Definition first (st : Statement) : M (option (Row E)) :=
  try_catch
    (db_get (_db st) (sql st) (params st))
    (fun error =>
       let* _ := log LvError "SQL查询错误:" (sql_log_data error st) in
       throw error).

(** [exec(sql)] *)
Definition exec (sql_text : string) : M unit :=
  try_catch
    (let* ref := this_db in db_exec ref sql_text)
    (fun error =>
       let* _ := log LvError "SQL执行错误:"
                   [("error", LogErr error); ("sql", LogStr (Some sql_text))] in
       throw error).

(** ** Batches *)

(** The [params] property of a statement object. *)
Inductive Params :=
| ParamsUndefined
| ParamsArray (l : list SqlValue)
| ParamsFalsy                         (* null, 0, the empty string *)
| ParamsIterable (l : list SqlValue)  (* truthy, iterable, not an array *)
| ParamsOther.                        (* truthy, not iterable *)

Record StatementObject := mkStatementObject {
  so_sql : option string;
  so_text : option string;
  so_params : Params
}.

(** An element of the array given to [batch]. *)
Inductive BatchItem :=
| ItemString (s : string)
| ItemObject (o : StatementObject)
| ItemNullish.

(** A prepared statement handed to [batch] is seen through its [sql] and
    [params] properties. *)
Definition item_of_statement (st : Statement) : BatchItem :=
  ItemObject (mkStatementObject (sql st) None (ParamsArray (params st))).

(** An element pushed on [results]. *)
Inductive BatchResult :=
| ResultExec                      (* { success: true, result } of db.exec *)
| ResultRun (r : RunInfo E)       (* { success: true, result } of db.run *)
| ResultStatement (r : RunOk).    (* what stmt.run() returned *)

Definition is_array (p : Params) : bool :=
  match p with ParamsArray _ => true | _ => false end.

Definition is_undefined (p : Params) : bool :=
  match p with ParamsUndefined => true | _ => false end.

Definition array_elements (p : Params) : list SqlValue :=
  match p with ParamsArray l => l | _ => [] end.

(** The body of the [for] loop for one statement. *)
Definition exec_item (statement : BatchItem) : M BatchResult :=
  match statement with
  | ItemString s =>
      let* ref := this_db in
      let* _ := db_exec ref s in
      ret ResultExec
  | ItemNullish =>
      throw (type_error "Cannot read properties of undefined (reading 'sql')")
  | ItemObject o =>
      if truthy_str (so_sql o) && is_array (so_params o) then
        let* ref := this_db in
        let* result := db_run ref (so_sql o) (array_elements (so_params o)) in
        ret (ResultRun result)
      else if truthy_str (so_sql o) && is_undefined (so_params o) then
        let* ref := this_db in
        let* result := db_run ref (so_sql o) [] in
        ret (ResultRun result)
      else
        let* stmt := prepare (or_str (so_text o) (so_sql o)) in
        let* stmt :=
          match so_params o with
          | ParamsUndefined | ParamsFalsy => ret stmt
          | ParamsArray l | ParamsIterable l => ret (bind_params stmt l)
          | ParamsOther => throw (type_error "statement.params is not iterable")
          end in
        let* result := run stmt in
        ret (ResultStatement result)
  end.

(** [for (const statement of statements) { ...; results.push(...) }] *)
Fixpoint batch_loop (statements : list BatchItem) (acc : list BatchResult)
    : M (list BatchResult) :=
  match statements with
  | [] => ret acc
  | statement :: rest =>
      let* r := exec_item statement in
      batch_loop rest (acc ++ [r])
  end.

(** The [catch] block of [batch]: roll back, log a failing rollback, and
    rethrow the error that was caught. *)
Definition batch_rollback {A} (error : JsError) : M A :=
  let* _ := log LvError "批处理执行错误，回滚事务:" [("error", LogErr error)] in
  let* _ :=
    try_catch
      (let* ref := this_db in db_exec ref "ROLLBACK")
      (fun rollbackError =>
         log LvError "事务回滚失败:" [("rollbackError", LogErr rollbackError)]) in
  throw error.

(** [batch(statements)] *)
Definition batch (statements : list BatchItem) : M (list BatchResult) :=
  let* _ := log LvInfo
              ("执行批处理操作，共" +:+ nat_to_string (length statements) +:+ "条语句")
              [] in
  try_catch
    (let* ref := this_db in
     let* _ := db_exec ref "BEGIN TRANSACTION" in
     let* rs := batch_loop statements [] in
     let* ref := this_db in
     let* _ := db_exec ref "COMMIT" in
     ret rs)
    batch_rollback.

(** The first two steps of [batch]: the log line and [BEGIN TRANSACTION]. *)
Definition batch_begin (statements : list BatchItem) : M unit :=
  let* _ := log LvInfo
              ("执行批处理操作，共" +:+ nat_to_string (length statements) +:+ "条语句")
              [] in
  let* ref := this_db in
  db_exec ref "BEGIN TRANSACTION".

(** The step after the loop: [COMMIT]. *)
Definition batch_commit : M unit :=
  let* ref := this_db in db_exec ref "COMMIT".

(** The statements of a list run one after the other from [w], each
    resolving, with results [rs] in the same order, and leave [w']. *)
Inductive runs_in_order : list BatchItem -> World -> list BatchResult -> World -> Prop :=
| runs_nil w : runs_in_order [] w [] w
| runs_cons statement rest w r w1 rs w' :
    exec_item statement w = (Return r, w1) ->
    runs_in_order rest w1 rs w' ->
    runs_in_order (statement :: rest) w (r :: rs) w'.

End Adapter.

Arguments mkWorld {E} db calls console.
Arguments db {E} w.
Arguments calls {E} w.
Arguments console {E} w.
Arguments ResultExec {E}.
Arguments ResultStatement {E} r.

(** ** A small engine

    One table, [pastes], whose rows are the parameter lists inserted so far.
    The transaction statements behave as SQLite's do: [BEGIN] inside a
    transaction, and [COMMIT] or [ROLLBACK] outside one, are errors that
    change nothing; an error of a statement inside a transaction leaves the
    transaction open. *)
Module Mini.

Record MiniConn := mkMiniConn {
  rows : list (list SqlValue);
  txn : option (list (list SqlValue))
}.

Definition engine_error (msg : string) : JsError :=
  {| err_message := Some msg; err_status := StatusUndefined;
     err_stack := Some ("Error: " +:+ msg) |}.

Definition step (sql : option string) (params : list SqlValue) (c : MiniConn)
    : Outcome nat * MiniConn :=
  match sql with
  | None => (Throw (engine_error "SQLITE_MISUSE: statement is not a string"), c)
  | Some s =>
      if String.eqb s "BEGIN TRANSACTION" then
        match txn c with
        | None => (Return 0%nat, mkMiniConn (rows c) (Some (rows c)))
        | Some _ =>
            (Throw (engine_error
                      "SQLITE_ERROR: cannot start a transaction within a transaction"), c)
        end
      else if String.eqb s "COMMIT" then
        match txn c with
        | Some _ => (Return 0%nat, mkMiniConn (rows c) None)
        | None =>
            (Throw (engine_error "SQLITE_ERROR: cannot commit - no transaction is active"), c)
        end
      else if String.eqb s "ROLLBACK" then
        match txn c with
        | Some saved => (Return 0%nat, mkMiniConn saved None)
        | None =>
            (Throw (engine_error "SQLITE_ERROR: cannot rollback - no transaction is active"), c)
        end
      else if startsWith s "INSERT INTO pastes" then
        (Return 1%nat, mkMiniConn (rows c ++ [params]) (txn c))
      else if startsWith s "SELECT * FROM pastes" || startsWith s "PRAGMA " then
        (Return 0%nat, c)
      else
        (Throw (engine_error ("SQLITE_ERROR: cannot execute: " +:+ s)), c)
  end.

Definition mini_exec (sql : string) (c : MiniConn) : Outcome unit * MiniConn :=
  match step (Some sql) [] c with
  | (Return _, c') => (Return tt, c')
  | (Throw e, c') => (Throw e, c')
  end.

Definition mini_all (sql : option string) (params : list SqlValue) (c : MiniConn)
    : Outcome (list (list SqlValue)) * MiniConn :=
  match step sql params c with
  | (Return _, c') => (Return (rows c'), c')
  | (Throw e, c') => (Throw e, c')
  end.

Definition mini_get (sql : option string) (params : list SqlValue) (c : MiniConn)
    : Outcome (option (list SqlValue)) * MiniConn :=
  match step sql params c with
  | (Return _, c') => (Return (head (rows c')), c')
  | (Throw e, c') => (Throw e, c')
  end.

(** Opening needs a file name. *)
Definition mini_open (filename : string) : Outcome MiniConn :=
  if String.eqb filename "" then
    Throw (engine_error "SQLITE_CANTOPEN: unable to open database file")
  else Return (mkMiniConn [] None).

Definition engine : Engine :=
  {| Conn := MiniConn; RunInfo := nat; Row := list SqlValue;
     engine_open := mini_open;
     engine_exec := mini_exec; engine_run := step;
     engine_all := mini_all; engine_get := mini_get |}.

(** A fresh connection: no rows, no transaction. *)
Definition fresh : World engine :=
  @mkWorld engine (Some (mkMiniConn [] None)) [] [].

(** The adapter before [init]: [this.db] is [null]. *)
Definition closed : World engine := @mkWorld engine None [] [].

(** The scenario of the specification: the second insert names a table that
    does not exist; a third statement follows it. *)
Definition scenario_pre : list BatchItem :=
  [ItemObject (mkStatementObject (Some "INSERT INTO pastes VALUES (?)") None
                 (ParamsArray [SqlInt 1]))].

Definition scenario_failing : BatchItem :=
  ItemObject (mkStatementObject (Some "INSERT INTO nonexistent_table VALUES (?)") None
                (ParamsArray [])).

Definition scenario_post : list BatchItem :=
  [ItemString "INSERT INTO pastes VALUES (3)"].

Definition scenario_error : JsError :=
  engine_error
    "SQLITE_ERROR: cannot execute: INSERT INTO nonexistent_table VALUES (?)".

(** A batch that ends the transaction itself before a later statement fails. *)
Definition committing_batch : list BatchItem :=
  [ItemString "INSERT INTO pastes VALUES (1)";
   ItemString "COMMIT";
   ItemString "INSERT INTO nonexistent_table VALUES (2)"].

End Mini.

End Persistence.

(* ===================================================================== *)
(** * Express requests and responses *)
(* ===================================================================== *)

Module Express.
Import Js Json.

(** [req.body]: [undefined] when no parser set it, a [Buffer] from the raw
    parser, or a parsed value. *)
Inductive JsVal :=
| Undefined
| Buffer (bytes : string)
| Value (v : json).

(** Truthiness: [undefined], [null], [false], the zeros, [NaN] and the empty
    string are falsy; every object, an empty one or a [Buffer] included, is
    truthy. *)
Definition truthy (x : JsVal) : bool :=
  match x with
  | Undefined => false
  | Buffer _ => true
  | Value JNull => false
  | Value (JBool b) => b
  | Value (JNum text) => negb (String.eqb text "0" || String.eqb text "NaN")
  | Value (JStr s) => negb (String.eqb s "")
  | Value (JArr _) | Value (JObj _) => true
  end.

(** What [req.body] holds once the three body parsers ([express.raw],
    [express.urlencoded], [express.json]) have run: each of them first gives
    a request without a body the empty object; the raw parser then stores a
    [Buffer], the form parser an object, and the JSON parser, which is
    strict, an object or an array. *)
Definition parsed_body (x : JsVal) : bool :=
  match x with
  | Buffer _ | Value (JObj _) | Value (JArr _) => true
  | _ => false
  end.

(** [typeof x === "object"] *)
Definition is_object (x : JsVal) : bool :=
  match x with
  | Buffer _ | Value JNull | Value (JArr _) | Value (JObj _) => true
  | _ => false
  end.

(** [Buffer.isBuffer(x)] *)
Definition is_buffer (x : JsVal) : bool :=
  match x with Buffer _ => true | _ => false end.

(** The request object, with the properties the server reads or writes.
    Header names are in lower case, as Node delivers them. *)
Record Request := mkRequest {
  method : string;
  path : string;
  originalUrl : string;
  headers : gmap string string;
  encrypted : bool;                 (* req.connection && req.connection.encrypted *)
  body : JsVal;
  tempFilePath : option string;     (* undefined or null, or a path *)
  rawBody : option string           (* undefined, or a Buffer *)
}.

(** [req.headers[name] || ""] *)
Definition header (req : Request) (name : string) : string :=
  match headers req !! name with
  | Some v => v
  | None => ""
  end.

(** [req.tempFilePath = value] *)
Definition set_tempFilePath (value : option string) (req : Request) : Request :=
  mkRequest (method req) (path req) (originalUrl req) (headers req) (encrypted req)
    (body req) value (rawBody req).

(** What a response method wrote as the body. *)
Inductive Payload :=
| PayloadJson (v : json)                      (* res.json(v) *)
| PayloadText (contentType text : string)     (* res.type(contentType).send(text) *)
| PayloadBuffer (bytes : string)              (* res.send(Buffer) *)
| PayloadNone.                                (* res.end() *)

(** The bytes of the body on the wire.  [res.json] writes the text of
    [JSON.stringify], with the characters that open markup replaced when the
    application setting [json escape] is on. *)
Definition payload_bytes (json_escape : bool) (p : Payload) : string :=
  match p with
  | PayloadJson v => if json_escape then html_escape (stringify v) else stringify v
  | PayloadText _ text => text
  | PayloadBuffer bytes => bytes
  | PayloadNone => ""
  end.

(** The response object: status, headers by lower-case name, and the body
    once the response was ended. *)
Record Response := mkResponse {
  statusCode : Z;
  res_headers : gmap string string;
  sent : option Payload
}.

Definition fresh_response : Response := mkResponse 200 ∅ None.

Definition lower_char (c : ascii) : ascii :=
  let n := nat_of_ascii c in
  if ((65 <=? n) && (n <=? 90))%nat then ascii_of_nat (n + 32) else c.

Fixpoint lower (s : string) : string :=
  match s with
  | EmptyString => ""
  | String c s' => String (lower_char c) (lower s')
  end.

(** [res.setHeader(name, value)] and [res.set(name, value)] *)
Definition setHeader (name value : string) (res : Response) : Response :=
  mkResponse (statusCode res) (<[lower name := value]> (res_headers res)) (sent res).

Definition upper_char (c : ascii) : ascii :=
  let n := nat_of_ascii c in
  if ((97 <=? n) && (n <=? 122))%nat then ascii_of_nat (n - 32) else c.

Fixpoint upper (s : string) : string :=
  match s with
  | EmptyString => ""
  | String c s' => String (upper_char c) (upper s')
  end.

(** [res.status(code)]: the assignment [this.statusCode = code]. *)
Definition status (code : Z) (res : Response) : Response :=
  mkResponse code (res_headers res) (sent res).

(** The status codes with which Node writes the head of a response. *)
Definition valid_status (code : Z) : bool := (100 <=? code) && (code <=? 999).

(** The error of [writeHead] for any other status code. *)
Definition range_error (code : Z) : JsError :=
  {| err_message := Some ("Invalid status code: " +:+ Z_to_string code);
     err_status := StatusUndefined;
     err_stack :=
       Some ("RangeError [ERR_HTTP_INVALID_STATUS_CODE]: Invalid status code: "
               +:+ Z_to_string code) |}.

(** A response that was finished with this body. *)
Definition finish (p : Payload) (res : Response) : Response :=
  mkResponse (statusCode res) (res_headers res) (Some p).

(** [res.end()], [res.json(v)], [res.send(...)]: the head is written with
    the status code the response holds, then the body.  With a status code
    that cannot be written the call throws and nothing is sent.  (Where the
    server sets a literal status right before, as in [res.status(204).end()],
    the write cannot fail and [finish] is used directly.) *)
Definition respond (p : Payload) : M Response unit :=
  fun res =>
    if valid_status (statusCode res) then (Return tt, finish p res)
    else (Throw (range_error (statusCode res)), res).

(** How a middleware leaves: it called [next()], it ended the response, or
    it threw. *)
Inductive Handled :=
| Next (res : Response)
| Done (res : Response)
| Thrown (error : JsError) (res : Response).

End Express.

(* ===================================================================== *)
(** * Protocol surface: CORS and the preflight middleware under [/dav] *)
(* ===================================================================== *)

Module Dav.
Import Js Express.

(** What [getWebDAVConfig()] returns, as far as the server reads it. *)
Record WebDAVConfig := mkConfig {
  SUPPORTED_METHODS : list string;
  ALLOW_ORIGIN : string;
  ALLOW_HEADERS : string;
  RESPONSE_HEADER_DAV : string;               (* PROTOCOL.RESPONSE_HEADERS.DAV *)
  RESPONSE_HEADER_MS_AUTHOR_VIA : string      (* PROTOCOL.RESPONSE_HEADERS["MS-Author-Via"] *)
}.

(** [webdavConfig.SUPPORTED_METHODS.join(",")] *)
Definition supported_methods (cfg : WebDAVConfig) : string :=
  String.concat "," (SUPPORTED_METHODS cfg).

Record CorsOptions := mkCorsOptions {
  origin : string;
  methods : string;
  credentials : bool;
  optionsSuccessStatus : Z;
  maxAge : Z;
  exposedHeaders : string
}.

(** [corsOptions] *)
Definition corsOptions (cfg : WebDAVConfig) : CorsOptions :=
  {| origin := ALLOW_ORIGIN cfg;
     methods := supported_methods cfg;
     credentials := true;
     optionsSuccessStatus := 204;
     maxAge := 86400;
     exposedHeaders := ALLOW_HEADERS cfg |}.

(** The middleware registered right after CORS and method override. *)
Definition dav_middleware (cfg : WebDAVConfig) (req : Request) (res : Response)
    : Handled :=
  if startsWith (path req) "/dav" then
    let res := setHeader "Access-Control-Allow-Methods" (supported_methods cfg) res in
    let res := setHeader "Allow" (supported_methods cfg) res in
    if String.eqb (method req) "OPTIONS" then
      let res := setHeader "DAV" (RESPONSE_HEADER_DAV cfg) res in
      let res := setHeader "MS-Author-Via" (RESPONSE_HEADER_MS_AUTHOR_VIA cfg) res in
      Done (finish PayloadNone (status 204 res))
    else Next res
  else Next res.

(** ** [cors(corsOptions)]

    The middleware of the [cors] package for options given as an object
    whose [origin] is a string, whose [methods] and [exposedHeaders] are
    strings, and which sets neither [allowedHeaders] nor
    [preflightContinue]: the options the server passes. *)

Section Basic.

(** The value the [vary] package gives the [Vary] header, from the value it
    has and the field to add. *)
Variable vary_append : string -> string -> string.

(** [vary(res, field)] *)
Definition vary (field : string) (res : Response) : Response :=
  let present :=
    match res_headers res !! "vary" with
    | Some value => value
    | None => ""
    end in
  let value := vary_append present field in
  if String.eqb value "" then res else setHeader "Vary" value res.

(** A header is applied when its value is not empty. *)
Definition apply_header (key value : string) (res : Response) : Response :=
  if String.eqb value "" then res else setHeader key value res.

Definition configureOrigin (options : CorsOptions) (res : Response) : Response :=
  if String.eqb (origin options) "*" then
    apply_header "Access-Control-Allow-Origin" "*" res
  else
    vary "Origin" (apply_header "Access-Control-Allow-Origin" (origin options) res).

Definition configureCredentials (options : CorsOptions) (res : Response) : Response :=
  if credentials options then apply_header "Access-Control-Allow-Credentials" "true" res
  else res.

Definition configureMethods (options : CorsOptions) (res : Response) : Response :=
  apply_header "Access-Control-Allow-Methods" (methods options) res.

(** No allowed headers are configured: those the request asks for are
    reflected. *)
Definition configureAllowedHeaders (req : Request) (res : Response) : Response :=
  apply_header "Access-Control-Allow-Headers"
    (header req "access-control-request-headers")
    (vary "Access-Control-Request-Headers" res).

Definition configureMaxAge (options : CorsOptions) (res : Response) : Response :=
  apply_header "Access-Control-Max-Age" (Z_to_string (maxAge options)) res.

Definition configureExposedHeaders (options : CorsOptions) (res : Response) : Response :=
  apply_header "Access-Control-Expose-Headers" (exposedHeaders options) res.

(** The middleware: without an origin option it does nothing; a request
    whose method is OPTIONS, in any letter case, is a preflight, which it
    answers itself; any other request gets the headers of an actual
    response and goes on. *)
Definition cors (options : CorsOptions) (req : Request) (res : Response) : Handled :=
  if String.eqb (origin options) "" then Next res
  else if String.eqb (upper (method req)) "OPTIONS" then
    let res := configureOrigin options res in
    let res := configureCredentials options res in
    let res := configureMethods options res in
    let res := configureAllowedHeaders req res in
    let res := configureMaxAge options res in
    let res := configureExposedHeaders options res in
    let res := status (optionsSuccessStatus options) res in
    let res := setHeader "Content-Length" "0" res in
    match respond PayloadNone res with
    | (Return _, res') => Done res'
    | (Throw error, res') => Thrown error res'
    end
  else
    let res := configureOrigin options res in
    let res := configureCredentials options res in
    let res := configureExposedHeaders options res in
    Next res.

(** The three [methodOverride] middlewares, which may replace the method of
    the request and add to the [Vary] header. *)
Variable methodOverride : Request -> Response -> Request * Response.

(** The basic middlewares in the order of registration: CORS, the method
    overrides, and the protocol middleware.  (The routes registered before
    them only log and call [next()].) *)
Definition basic_middlewares (cfg : WebDAVConfig) (req : Request) (res : Response)
    : Handled :=
  match cors (corsOptions cfg) req res with
  | Done res' => Done res'
  | Thrown error res' => Thrown error res'
  | Next res' =>
      let (req', res'') := methodOverride req res' in
      dav_middleware cfg req' res''
  end.

End Basic.

(** A configuration with the usual values. *)
Definition sample_config : WebDAVConfig :=
  {| SUPPORTED_METHODS :=
       ["OPTIONS"; "PROPFIND"; "GET"; "HEAD"; "PUT"; "DELETE"; "MKCOL"; "COPY"; "MOVE";
        "LOCK"; "UNLOCK"; "PROPPATCH"];
     ALLOW_ORIGIN := "*";
     ALLOW_HEADERS := "Authorization, Content-Type, Depth, Destination";
     RESPONSE_HEADER_DAV := "1, 2";
     RESPONSE_HEADER_MS_AUTHOR_VIA := "DAV" |}.

Definition sample_preflight : Request :=
  mkRequest "OPTIONS" "/dav/documents" "/dav/documents"
    {["host" := "files.example"]} false Undefined None None.

(** The [Vary] header when fields are added that it does not hold yet. *)
Definition sample_vary_append (present field : string) : string :=
  if String.eqb present "" then field else present +:+ ", " +:+ field.

End Dav.

(* ===================================================================== *)
(** * Body ingestion: spooling multipart uploads to a temporary file *)
(* ===================================================================== *)

Module Spool.
Import Js Logging Json Express.

(** [fileStream], the write stream on the temporary file. *)
Inductive StreamState :=
| Writable            (* open, the request is piped into it *)
| Ending              (* end() was called, the finish event is pending *)
| Finished
| Failed.

(** What the middleware and its handlers read and write: the files by path,
    the console, the request object, the stream, and the calls of [next]
    (with the error passed, if any), oldest first. *)
Record World := mkWorld {
  files : gmap string string;
  console : list LogEntry;
  req : Request;
  stream : option (string * StreamState);
  next_calls : list (option JsError)
}.

(** [buffer.toString("hex")] *)
Fixpoint hex (bytes : string) : string :=
  match bytes with
  | EmptyString => ""
  | String c rest =>
      String (hex_digit (nat_of_ascii c / 16))
        (String (hex_digit (nat_of_ascii c mod 16)) (hex rest))
  end.

(** The byte two hexadecimal digits stand for. *)
Definition byte_of_hex (hi lo : ascii) : ascii :=
  match hex_value hi, hex_value lo with
  | Some a, Some b => ascii_of_N (16 * a + b)
  | _, _ => ascii_of_nat 0
  end.

Fixpoint ends_with_slash (s : string) : bool :=
  match s with
  | EmptyString => false
  | String c EmptyString => Ascii.eqb c "/"
  | String _ rest => ends_with_slash rest
  end.

(** [path.join(dir, name)] for a normalised directory and a plain name. *)
Definition path_join (dir name : string) : string :=
  if ends_with_slash dir then dir +:+ name else dir +:+ "/" +:+ name.

(** [fs.unlinkSync(p)]: removes the file, or throws when there is none. *)
Definition unlinkSync (p : string) (fs : gmap string string)
    : option (gmap string string) :=
  match fs !! p with
  | Some _ => Some (delete p fs)
  | None => None
  end.

Section Middleware.

Variable CURRENT_LOG_LEVEL : option Z.

(** [os.tmpdir()] *)
Variable tmpdir : string.

Definition log (level : Level) (message : string) (data : list (string * LogVal))
    (w : World) : World :=
  mkWorld (files w) (logMessage CURRENT_LOG_LEVEL level message data (console w))
    (req w) (stream w) (next_calls w).

(** [next()] and [next(err)] *)
Definition call_next (err : option JsError) (w : World) : World :=
  mkWorld (files w) (console w) (req w) (stream w) (next_calls w ++ [err]).

Definition set_stream (st : option (string * StreamState)) (w : World) : World :=
  mkWorld (files w) (console w) (req w) st (next_calls w).

(** The condition under which the middleware spools the body. *)
Definition is_multipart_post (r : Request) : bool :=
  String.eqb (method r) "POST"
  && truthy_str (headers r !! "content-type")
  && includes (header r "content-type") "multipart/form-data".

(** The name of the temporary file for the 16 bytes of [crypto.randomBytes]. *)
Definition temp_file_path (random : string) : string :=
  path_join tmpdir ("upload-" +:+ hex random).

(** The middleware, up to the point where it returns: for a multipart POST
    the file is created, the request is piped into it, the path is stored on
    the request and the handlers are registered; [next] is not called yet.
    Any other request goes straight to [next]. *)
Definition spool_middleware (random : string) (w : World) : World :=
  if is_multipart_post (req w) then
    let w := log LvDebug
               ("检测到multipart/form-data请求: " +:+ path (req w)
                  +:+ "，使用流式处理和临时文件存储") [] w in
    let tempFilePath := temp_file_path random in
    mkWorld (<[tempFilePath := ""]> (files w)) (console w)
      (set_tempFilePath (Some tempFilePath) (req w))
      (Some (tempFilePath, Writable)) (next_calls w)
  else call_next None w.

(** [fileStream.on("finish", ...)] *)
Definition on_stream_finish (tempFilePath : string) (w : World) : World :=
  let w := log LvDebug ("multipart请求数据已保存到临时文件: " +:+ tempFilePath) [] w in
  call_next None w.

(** [fileStream.on("error", ...)] *)
Definition on_stream_error (tempFilePath : string) (err : JsError) (w : World) : World :=
  let w := log LvError "保存multipart请求数据到临时文件失败:" [("error", LogErr err)] w in
  let w :=
    match unlinkSync tempFilePath (files w) with
    | Some fs => mkWorld fs (console w) (req w) (stream w) (next_calls w)
    | None => w
    end in
  call_next (Some err) w.

(** [res.on("finish", ...)] *)
Definition on_response_finish (w : World) : World :=
  match tempFilePath (req w) with
  | Some p =>
      if String.eqb p "" then w
      else
        let w := log LvDebug ("请求处理完成，清理临时文件: " +:+ p) [] w in
        match unlinkSync p (files w) with
        | Some fs =>
            mkWorld fs (console w) (set_tempFilePath None (req w)) (stream w)
              (next_calls w)
        | None =>
            log LvError "清理临时文件失败:"
              [("error", LogErr (type_error "ENOENT: no such file or directory, unlink"));
               ("path", LogStr (Some p))] w
        end
  | None => w
  end.

(** [req.on("error", ...)]: [fileStream.end()] and [next(err)]. *)
Definition on_request_error (err : JsError) (w : World) : World :=
  let w := log LvError "multipart请求处理错误:" [("error", LogErr err)] w in
  let w :=
    match stream w with
    | Some (p, Writable) => set_stream (Some (p, Ending)) w
    | _ => w
    end in
  call_next (Some err) w.

(** What the runtime delivers after the middleware returned. *)
Inductive Event :=
| EvData (chunk : string)          (* a chunk of the request body *)
| EvRequestEnd                     (* the request body is complete *)
| EvStreamFinish                   (* the file stream flushed and closed *)
| EvStreamError (err : JsError)    (* a write on the file stream failed *)
| EvRequestError (err : JsError)   (* the request stream failed: the client went away *)
| EvResponseFinish.                (* the response was handed to the socket *)

(** One event.  The pipe appends a chunk to the file while the stream is
    writable and the file is still linked, and ends the stream when the
    request ends.  An event that cannot occur in the current state, or that
    has no handler because nothing was spooled, changes nothing. *)
Definition step (ev : Event) (w : World) : World :=
  match stream w with
  | None => w
  | Some (p, st) =>
      match ev, st with
      | EvData chunk, Writable =>
          match files w !! p with
          | Some content =>
              mkWorld (<[p := content +:+ chunk]> (files w)) (console w) (req w)
                (stream w) (next_calls w)
          | None => w
          end
      | EvRequestEnd, Writable => set_stream (Some (p, Ending)) w
      | EvStreamFinish, Ending => on_stream_finish p (set_stream (Some (p, Finished)) w)
      | EvStreamError err, (Writable | Ending) =>
          on_stream_error p err (set_stream (Some (p, Failed)) w)
      | EvRequestError err, _ => on_request_error err w
      | EvResponseFinish, _ => on_response_finish w
      | _, _ => w
      end
  end.

Definition run (events : list Event) (w : World) : World :=
  fold_left (fun w ev => step ev w) events w.

End Middleware.

(** The chunks of a body, one after the other. *)
Definition joined (chunks : list string) : string :=
  fold_right String.append "" chunks.

(** A spooled request: the stream is on [p], and the request still refers to
    [p] unless the file was removed and the reference cleared. *)
Definition spooling (p : string) (w : World) : Prop :=
  (exists st, stream w = Some (p, st))
  /\ (tempFilePath (req w) = Some p
      \/ (tempFilePath (req w) = None /\ files w !! p = None)).

(** The events that can still reach the handlers once the request failed
    because the client went away: the response cannot be handed to the
    socket, so the finish event of the response is not among them.  (An
    upload whose write to the file fails as well is left aside.) *)
Definition follows_abort (ev : Event) : bool :=
  match ev with
  | EvResponseFinish | EvStreamError _ => false
  | _ => true
  end.

(** An upload that was given up: the stream no longer takes data, and the
    file with what was received and the reference to it are still there. *)
Definition abandoned (p content : string) (w : World) : Prop :=
  (exists st, stream w = Some (p, st) /\ st <> Writable)
  /\ files w !! p = Some content
  /\ tempFilePath (req w) = Some p.

(** A world with no files, for a request that just arrived. *)
Definition arriving (r : Request) : World := mkWorld ∅ [] r None [].

Definition upload_request (verb contentType : string) : Request :=
  mkRequest verb "/api/upload" "/api/upload"
    {["content-type" := contentType; "host" := "files.example"]}
    false Undefined None None.

Definition sample_random : string := "0123456789abcdef".

Definition sample_upload : World :=
  arriving (upload_request "POST" "multipart/form-data; boundary=x").

(** The same upload sent with PUT, and a POST of another multipart type. *)
Definition put_upload : World :=
  arriving (upload_request "PUT" "multipart/form-data; boundary=x").

Definition mixed_upload : World :=
  arriving (upload_request "POST" "multipart/mixed; boundary=x").

Definition sample_error : JsError := type_error "aborted".

End Spool.

(* ===================================================================== *)
(** * Request/response bridge *)
(* ===================================================================== *)

Module Bridge.
Import Js Js.Notations Logging Json Express.

(** The [body] handed to [new Request(url, init)]. *)
Inductive BodyInit :=
| BodyText (s : string)
| BodyBytes (bytes : string)            (* a Buffer *)
| BodyFileStream (file : string).       (* fs.createReadStream(file) *)

(** The arguments of [new URL(originalUrl, protocol + "://" + host)]. *)
Record Url := mkUrl {
  url_protocol : string;
  url_host : string;
  url_target : string
}.

(** The canonical request: the URL and the [requestInit] object. *)
Record CanonicalRequest := mkCanonical {
  cr_url : Url;
  cr_method : string;
  cr_headers : gmap string string;
  cr_body : option BodyInit;            (* absent, or requestInit.body *)
  cr_duplex : option string             (* absent, or requestInit.duplex *)
}.

(** The methods for which a body is looked for. *)
Definition body_methods : list string :=
  ["POST"; "PUT"; "PATCH"; "PROPFIND"; "PROPPATCH"; "MKCOL"; "COPY"; "MOVE"; "DELETE"].

(** [body_methods.includes(m)] *)
Definition may_carry_body (m : string) : bool :=
  existsb (String.eqb m) body_methods.

(** What [JSON.stringify] sees of a value: a Buffer through its [toJSON]. *)
Definition json_of (x : JsVal) : option json :=
  match x with
  | Undefined => None
  | Buffer bytes =>
      Some (JObj [("type", JStr "Buffer");
                  ("data", JArr (map (fun c => number (Z.of_nat (nat_of_ascii c)))
                                   (list_ascii_of_string bytes)))])
  | Value v => Some v
  end.

(** [JSON.stringify(x)]: a string, or [undefined] for [undefined]. *)
Definition JSON_stringify (x : JsVal) : option string :=
  match json_of x with
  | Some v => Some (stringify v)
  | None => None
  end.

(** What the server uses of the JavaScript runtime without defining it:
    the error [new URL(input, base)] throws for arguments it cannot parse,
    if any; the error [new Request(url, init)] throws for a method, headers
    or a body it refuses, if any; and the text [Number::toString] gives for
    the Number a JSON number token denotes. *)
Record Runtime := mkRuntime {
  URL_error : Url -> option JsError;
  Request_error : string -> gmap string string -> option BodyInit -> option JsError;
  number_text : string -> string
}.

Section Requests.

Variable CURRENT_LOG_LEVEL : option Z.

(** [fs.existsSync] *)
Variable existsSync : string -> bool.

(** The text of the [URLSearchParams] filled from the keys of a parsed form. *)
Variable form_urlencode : JsVal -> string.

Variable runtime : Runtime.

Abbreviation Console := (list LogEntry).

Definition log (level : Level) (message : string) (data : list (string * LogVal))
    : M Console unit :=
  fun console => (Return tt, logMessage CURRENT_LOG_LEVEL level message data console).

(** [expressReq.tempFilePath && fs.existsSync(expressReq.tempFilePath)] *)
Definition spooled_file (expressReq : Request) : option string :=
  match tempFilePath expressReq with
  | Some p => if negb (String.eqb p "") && existsSync p then Some p else None
  | None => None
  end.

(** The first part of the body block: the multipart branch and the WebDAV
    branch.  It gives the body found so far and the content type, which the
    WebDAV branch replaces for a collection-create without one. *)
Definition body_from_upload (expressReq : Request)
    : M Console (option BodyInit * string) :=
  let contentType := header expressReq "content-type" in
  if includes contentType "multipart/form-data" then
    match spooled_file expressReq, rawBody expressReq with
    | Some p, _ =>
        let* _ := log LvDebug
                    ("处理multipart/form-data请求: " +:+ path expressReq
                       +:+ "，使用流式读取临时文件: " +:+ p) [] in
        ret (Some (BodyFileStream p), contentType)
    | None, Some raw =>
        let* _ := log LvDebug
                    ("处理multipart/form-data请求: " +:+ path expressReq
                       +:+ "，使用原始请求体（兼容模式），大小: "
                       +:+ nat_to_string (String.length raw) +:+ " 字节") [] in
        ret (Some (BodyBytes raw), contentType)
    | None, None => ret (None, contentType)
    end
  else if startsWith (path expressReq) "/dav" then
    if String.eqb contentType "" && String.eqb (method expressReq) "MKCOL" then
      let* _ := log LvDebug
                  ("WebDAV请求: 添加默认Content-Type (application/octet-stream) 到 "
                     +:+ method expressReq +:+ " 请求") [] in
      ret (None, "application/octet-stream")
    else ret (None, contentType)
  else ret (None, contentType).

(** [typeof expressReq.body] *)
Definition typeof (x : JsVal) : string :=
  match x with
  | Undefined => "undefined"
  | Buffer _ | Value JNull | Value (JArr _) | Value (JObj _) => "object"
  | Value (JBool _) => "boolean"
  | Value (JNum _) => "number"
  | Value (JStr _) => "string"
  end.

(** The branch for collection-create. *)
Definition body_for_mkcol (expressReq : Request) (body : option BodyInit)
    (contentType : string) : M Console (option BodyInit) :=
  if truthy (Express.body expressReq) then
    let* _ := log LvDebug
                ("MKCOL请求包含请求体，内容类型: " +:+ contentType
                   +:+ ", 请求体类型: " +:+ typeof (Express.body expressReq)) [] in
    let* _ :=
      match Express.body expressReq with
      | Buffer bytes =>
          if (1024 <? String.length bytes)%nat then
            log LvWarn
              ("MKCOL请求包含异常大的请求体 (" +:+ nat_to_string (String.length bytes)
                 +:+ " 字节)，可能是客户端错误或恶意请求") []
          else ret tt
      | _ => ret tt
      end in
    ret (Some (BodyText ""))
  else ret body.

(** The branch for every other method, taken when no body was set yet. *)
Definition body_by_content_type (expressReq : Request) (contentType : string)
    : option BodyInit :=
  let parsed := Express.body expressReq in
  if (includes contentType "application/json" || includes contentType "json")
     && truthy parsed && is_object parsed then
    option_map BodyText (JSON_stringify parsed)
  else if (includes contentType "application/xml" || includes contentType "text/xml"
           || includes contentType "application/octet-stream")
          && is_buffer parsed then
    match parsed with
    | Buffer bytes => Some (BodyBytes bytes)
    | _ => None
    end
  else if includes contentType "application/x-www-form-urlencoded"
          && truthy parsed && is_object parsed then
    Some (BodyText (form_urlencode parsed))
  else if truthy parsed then
    match parsed with
    | Buffer bytes => Some (BodyBytes bytes)
    | Value (JStr text) => Some (BodyText text)
    | other => option_map BodyText (JSON_stringify other)
    end
  else None.

(** The value of [body] when [requestInit] is built. *)
Definition select_body (expressReq : Request) : M Console (option BodyInit) :=
  if may_carry_body (method expressReq) then
    let* found := body_from_upload expressReq in
    if String.eqb (method expressReq) "MKCOL" then
      body_for_mkcol expressReq (fst found) (snd found)
    else
      match fst found with
      | Some b => ret (Some b)
      | None => ret (body_by_content_type expressReq (snd found))
      end
  else ret None.

(** The protocol the URL is built with. *)
Definition request_protocol (expressReq : Request) : string :=
  if truthy_str (headers expressReq !! "x-forwarded-proto")
  then header expressReq "x-forwarded-proto"
  else if encrypted expressReq then "https" else "http".

(** The arguments of [new URL]. *)
Definition request_url (expressReq : Request) : Url :=
  mkUrl (request_protocol expressReq)
    (if truthy_str (headers expressReq !! "host") then header expressReq "host"
     else "localhost")
    (originalUrl expressReq).

(** [requestInit], with the URL: [body] and [duplex] are set when a body
    was chosen. *)
Definition request_init (expressReq : Request) (body : option BodyInit)
    : CanonicalRequest :=
  mkCanonical (request_url expressReq) (method expressReq) (headers expressReq) body
    (match body with
     | Some _ => Some "half"
     | None => None
     end).

(** [createAdaptedRequest(expressReq)].  The two constructors may throw:
    [new URL] before the body is looked at, [new Request] at the end. *)
Definition createAdaptedRequest (expressReq : Request) : M Console CanonicalRequest :=
  let* _ :=
    if includes (path expressReq) "/api/file-" then
      log LvDebug
        ("协议检测 - Path: " +:+ path expressReq +:+ ", X-Forwarded-Proto: "
           +:+ match headers expressReq !! "x-forwarded-proto" with
               | Some p => p
               | None => "undefined"
               end
           +:+ ", 最终协议: " +:+ request_protocol expressReq) []
    else ret tt in
  let* _ :=
    match URL_error runtime (request_url expressReq) with
    | Some error => throw error
    | None => ret tt
    end in
  let* body := select_body expressReq in
  match Request_error runtime (method expressReq) (headers expressReq) body with
  | Some error => throw error
  | None => ret (request_init expressReq body)
  end.

End Requests.

(** ** Responses *)

(** The response of the native application: [status], [headers] (names in
    lower case) and the body, absent or read in full. *)
Record WorkerResponse := mkWorkerResponse {
  wr_status : Z;
  wr_headers : gmap string string;
  wr_body : option string
}.

Definition syntax_error (msg : string) : JsError :=
  {| err_message := Some msg; err_status := StatusUndefined;
     err_stack := Some ("SyntaxError: " +:+ msg) |}.

(** [workerResponse.headers.forEach((value, key) => expressRes.set(key, value))] *)
Definition copy_headers (from : gmap string string) (res : Response) : Response :=
  fold_right (fun kv r => setHeader (fst kv) (snd kv) r) res (map_to_list from).

(** [convertWorkerResponseToExpress(workerResponse, expressRes)], with the
    Express response as the state.  The body of the application's response
    is taken as text in UTF-8. *)
Definition convertWorkerResponseToExpress (runtime : Runtime)
    (workerResponse : WorkerResponse) : M Response unit :=
  fun expressRes =>
    let expressRes := status (wr_status workerResponse) expressRes in
    let expressRes := copy_headers (wr_headers workerResponse) expressRes in
    match wr_body workerResponse with
    | Some text =>
        let contentType :=
          match wr_headers workerResponse !! "content-type" with
          | Some ct => ct
          | None => ""
          end in
        if includes contentType "application/json" then
          match parse (number_text runtime) text with
          | Some jsonData => respond (PayloadJson jsonData) expressRes
          | None => (Throw (syntax_error "Unexpected token in JSON"), expressRes)
          end
        else if includes contentType "application/xml" || includes contentType "text/xml" then
          respond (PayloadText contentType text) expressRes
        else if includes contentType "text/" then
          respond (PayloadText contentType text) expressRes
        else respond (PayloadBuffer text) expressRes
    | None => respond PayloadNone expressRes
    end.

(** ** Error responses *)

(** Whether [pattern] occurs at the start of [s], letter case apart. *)
Fixpoint matches_here (pattern s : string) : bool :=
  match pattern, s with
  | EmptyString, _ => true
  | String a pattern', String b s' =>
      Ascii.eqb a (lower_char b) && matches_here pattern' s'
  | String _ _, EmptyString => false
  end.

(** The length of the first alternative of [key|password|token|secret|auth]
    that matches at the start of [s]. *)
Definition sensitive_here (s : string) : option nat :=
  match List.filter (fun p => matches_here p s)
          ["key"; "password"; "token"; "secret"; "auth"] with
  | p :: _ => Some (String.length p)
  | [] => None
  end.

Fixpoint mask_from (pending : nat) (s : string) : string :=
  match s with
  | EmptyString => ""
  | String c s' =>
      match pending with
      | S n => String "*" (mask_from n s')
      | O =>
          match sensitive_here s with
          | Some (S n) => String "*" (mask_from n s')
          | _ => String c (mask_from O s')
          end
      end
  end.

(** [message.replace(/key|password|token|secret|auth/gi, (m) => "*".repeat(m.length))] *)
Definition mask_sensitive (message : string) : string := mask_from O message.

Fixpoint split_lines (current s : string) : list string :=
  match s with
  | EmptyString => [current]
  | String c s' =>
      if Ascii.eqb c (ascii_of_nat 10) then current :: split_lines "" s'
      else split_lines (current +:+ String c "") s'
  end.

(** [stack.split("\n").slice(0, 3).join("\n")] *)
Definition first_three_lines (stack : string) : string :=
  String.concat (String (ascii_of_nat 10) "") (firstn 3 (split_lines "" stack)).

(** What the clock and the random generator give when an error identifier is
    made: [Date.now().toString(36)] and [Math.random().toString(36)]. *)
Record Entropy := mkEntropy {
  now36 : string;
  random36 : string
}.

Definition defaultMessage : string := "服务器内部错误".

Section Errors.

Variable CURRENT_LOG_LEVEL : option Z.

(** [ApiStatus.INTERNAL_ERROR], the default server-error status. *)
Variable INTERNAL_ERROR : Z.

(** The body object [createErrorResponse] returns. *)
Definition error_body (code : Z) (message errorId : string) : json :=
  JObj [("code", number code); ("message", JStr message); ("errorId", JStr errorId);
        ("success", JBool false); ("data", JNull)].

(** [createErrorResponse(error, status, defaultMessage)] *)
Definition createErrorResponse (entropy : Entropy) (error : JsError) (code : Z)
    (message : string) : M (list LogEntry) json :=
  let errorId := now36 entropy +:+ String.substring 2 5 (random36 entropy) in
  let sanitizedErrorMessage :=
    if truthy_str (err_message error)
    then match err_message error with
         | Some m => mask_sensitive m
         | None => message
         end
    else message in
  let* _ :=
    log CURRENT_LOG_LEVEL LvError ("[" +:+ errorId +:+ "] 服务器错误:")
      [("status", LogNum code);
       ("message", LogStr (Some sanitizedErrorMessage));
       ("stack", if truthy_str (err_stack error)
                 then LogStr (option_map first_three_lines (err_stack error))
                 else LogNull)] in
  ret (error_body code message errorId).

(** [error.status && typeof error.status === "number" ? error.status
     : ApiStatus.INTERNAL_ERROR] *)
Definition error_status (error : JsError) : Z :=
  match err_status error with
  | StatusNum z => if z =? 0 then INTERNAL_ERROR else z
  | _ => INTERNAL_ERROR
  end.

(** ** The wildcard route *)

Variable existsSync : string -> bool.
Variable form_urlencode : JsVal -> string.
Variable runtime : Runtime.

(** The native application: [app.fetch(request, env, {})], with whatever
    state it keeps. *)
Variable AppState : Type.
Variable fetch : CanonicalRequest -> AppState -> Outcome WorkerResponse * AppState.

Record RouteWorld := mkRouteWorld {
  route_console : list LogEntry;
  route_res : Response;
  route_app : AppState;
  route_entropy : Entropy
}.

Definition with_console {A} (m : M (list LogEntry) A) : M RouteWorld A :=
  fun w =>
    let (r, console) := m (route_console w) in
    (r, mkRouteWorld console (route_res w) (route_app w) (route_entropy w)).

Definition with_res {A} (m : M Response A) : M RouteWorld A :=
  fun w =>
    let (r, res) := m (route_res w) in
    (r, mkRouteWorld (route_console w) res (route_app w) (route_entropy w)).

Definition app_fetch (request : CanonicalRequest) : M RouteWorld WorkerResponse :=
  fun w =>
    let (r, app) := fetch request (route_app w) in
    (r, mkRouteWorld (route_console w) (route_res w) app (route_entropy w)).

(** The [catch] block: [res.status(status).json(createErrorResponse(error, status))].
    The status is assigned, the body is made, and [json] writes both. *)
Definition respond_with_error (error : JsError) : M RouteWorld unit :=
  let code := error_status error in
  let* _ := with_res (fun res => (Return tt, status code res)) in
  let* body :=
    (fun w =>
       with_console (createErrorResponse (route_entropy w) error code defaultMessage) w) in
  with_res (respond (PayloadJson body)).

(** The [try] block: build the request, call the application, write its
    response. *)
Definition dispatch (req : Request) : M RouteWorld unit :=
  let* request :=
    with_console
      (createAdaptedRequest CURRENT_LOG_LEVEL existsSync form_urlencode runtime req) in
  let* response := app_fetch request in
  with_res (convertWorkerResponseToExpress runtime response).

(** [server.use("*", async (req, res) => { ... })] *)
Definition wildcard_route (req : Request) : M RouteWorld unit :=
  try_catch (dispatch req) respond_with_error.

(** The state of the application after one call of [fetch] with the
    canonical request, or as it was when the request could not be built. *)
Definition app_after (req : Request) (w : RouteWorld) : AppState :=
  match fst (createAdaptedRequest CURRENT_LOG_LEVEL existsSync form_urlencode runtime req
               (route_console w)) with
  | Return creq => snd (fetch creq (route_app w))
  | Throw _ => route_app w
  end.

End Errors.

Arguments mkRouteWorld {AppState} route_console route_res route_app route_entropy.
Arguments route_console {AppState} r.
Arguments route_res {AppState} r.
Arguments route_app {AppState} r.
Arguments route_entropy {AppState} r.
Arguments respond_with_error CURRENT_LOG_LEVEL INTERNAL_ERROR {AppState} error _.
Arguments dispatch CURRENT_LOG_LEVEL existsSync form_urlencode runtime {AppState} fetch req _.
Arguments wildcard_route CURRENT_LOG_LEVEL INTERNAL_ERROR existsSync form_urlencode runtime
  {AppState} fetch req _.
Arguments app_after CURRENT_LOG_LEVEL existsSync form_urlencode runtime {AppState} fetch req w.

(** An application that fails every request with a given error. *)
Definition failing_app (error : JsError) (_ : CanonicalRequest) (st : unit)
    : Outcome WorkerResponse * unit :=
  (Throw error, st).

(** An application that sends the body of the request back, with the content
    type of the request. *)
Definition echo_app (request : CanonicalRequest) (st : unit)
    : Outcome WorkerResponse * unit :=
  (Return
     (mkWorkerResponse 200
        (match cr_headers request !! "content-type" with
         | Some ct => {["content-type" := ct]}
         | None => ∅
         end)
        (match cr_body request with
         | Some (BodyText s) | Some (BodyBytes s) => Some s
         | _ => None
         end)), st).

Definition sample_entropy : Entropy := mkEntropy "lx2k9f3a" "0.4fzyo82mvyr".

Definition sample_route_world : RouteWorld unit :=
  mkRouteWorld [] fresh_response tt sample_entropy.

(** A body of 2000 bytes. *)
Definition two_thousand_bytes : string :=
  string_of_list_ascii (repeat "x"%char 2000).

(** A parsed JSON body: an object with an index key, a nested array and a
    string with characters that need escaping. *)
Definition sample_json : json :=
  JObj [("1", JArr [JBool true; JNull; JNum "-5"; JNum "0.25"; JNum "1e+21"]);
        ("content", JStr ("line one" +:+ String (ascii_of_nat 10) "line two"));
        ("meta", JObj [("size", JNum "42")])].

(** A parsed JSON body with a piece of markup in it. *)
Definition markup_json : json :=
  JObj [("title", JStr "<b>Q&A</b>")].

(** Text between double quotes. *)
Definition in_quotes (text : string) : string :=
  String dquote (text +:+ String dquote "").

(** The text [JSON.stringify] prints for [markup_json], and the text the
    JSON writer makes of it when it escapes. *)
Definition markup_text : string :=
  "{" +:+ in_quotes "title" +:+ ":" +:+ in_quotes "<b>Q&A</b>" +:+ "}".

Definition markup_escaped : string :=
  "{" +:+ in_quotes "title" +:+ ":"
    +:+ in_quotes "\u003cb\u003eQ\u0026A\u003c/b\u003e" +:+ "}".

(** The methods [new Request] refuses. *)
Definition forbidden_method (m : string) : bool :=
  existsb (String.eqb (upper m)) ["CONNECT"; "TRACE"; "TRACK"].

(** A runtime for the samples: it takes every URL, refuses the forbidden
    methods and a body on GET or HEAD, and reads a number token as the text
    it is, which is right for the tokens of the samples. *)
Definition sample_runtime : Runtime :=
  {| URL_error := fun _ => None;
     Request_error := fun m _ body =>
       if forbidden_method m then
         Some (type_error ("'" +:+ m +:+ "' HTTP method is unsupported."))
       else
         match body with
         | Some _ =>
             if String.eqb (upper m) "GET" || String.eqb (upper m) "HEAD" then
               Some (type_error "Request with GET/HEAD method cannot have body.")
             else None
         | None => None
         end;
     number_text := fun token => token |}.

(** The application's answer when it returns [sample_json] as it came. *)
Definition sample_echo : WorkerResponse :=
  mkWorkerResponse 201 {["content-type" := "application/json; charset=utf-8"]}
    (Some (stringify sample_json)).

(** An error of the application that carries a status, a message with a
    secret in it, and a stack. *)
Definition not_found_error : JsError :=
  mkError (Some "no such paste: secret=abc") (StatusNum 404) (Some "Error: no such paste").

(** A request as it reaches the bridge. *)
Definition bridge_request (verb target contentType : string) (parsed : JsVal) : Request :=
  mkRequest verb target target
    (if String.eqb contentType "" then {["host" := "files.example"]}
     else {["content-type" := contentType; "host" := "files.example"]})
    false parsed None None.

End Bridge.

(* ===================================================================== *)
(** * Lazy database initialisation *)
(* ===================================================================== *)

Module Startup.
Import Js Js.Notations Logging Persistence.

(** [req.env] *)
Record Env := mkEnv {
  ENCRYPTION_SECRET : string
}.

(** How the middleware leaves: [next()] with [req.env] set, or a response
    with the internal-error status for the error caught by the outer
    [catch]. *)
Inductive Outcome500 :=
| CallNext (env : Env)
| InternalError (error : JsError).

Section Middleware.

Variable E : Engine.
Variable CURRENT_LOG_LEVEL : option Z.
Variable dbPath : string.

(** [checkAndInitDatabase(sqliteAdapter)], from [src/utils/database.js]. *)
Variable checkAndInitDatabase : M (World E) unit.

(** [process.env.ENCRYPTION_SECRET] *)
Variable env_secret : option string.

(** The module-level [isDbInitialized] and the adapter instance. *)
Record Server := mkServer {
  isDbInitialized : bool;
  adapter : World E
}.

Definition on_adapter {A} (m : M (World E) A) : M Server A :=
  fun s =>
    let (r, w) := m (adapter s) in
    (r, mkServer (isDbInitialized s) w).

Definition set_initialized : M Server unit :=
  fun s => (Return tt, mkServer true (adapter s)).

Definition server_log (level : Level) (message : string)
    (data : list (string * LogVal)) : M Server unit :=
  on_adapter (Persistence.log E CURRENT_LOG_LEVEL level message data).

(** What the first request does before the inner [try]: the log line and
    the assignment of the flag. *)
Definition begin_first_request : M Server unit :=
  let* _ := server_log LvInfo "首次请求，检查数据库状态..." [] in
  set_initialized.

(** The two awaited calls inside the inner [try]. *)
Definition initialise : M Server unit :=
  let* _ := on_adapter (init E CURRENT_LOG_LEVEL dbPath) in
  on_adapter checkAndInitDatabase.

(** The database initialisation middleware. *)
Definition db_init_middleware : M Server Outcome500 :=
  try_catch
    (let* initialised := (fun s => (Return (isDbInitialized s), s)) in
     let* _ :=
       if negb initialised then
         let* _ := server_log LvInfo "首次请求，检查数据库状态..." [] in
         let* _ := set_initialized in
         try_catch initialise
           (fun error => server_log LvError "数据库初始化出错:" [("error", LogErr error)])
       else ret tt in
     ret (CallNext
            (mkEnv (if truthy_str env_secret
                    then match env_secret with
                         | Some secret => secret
                         | None => "default-encryption-key"
                         end
                    else "default-encryption-key"))))
    (fun error =>
       let* _ := server_log LvError "请求处理中间件错误:" [("error", LogErr error)] in
       ret (InternalError error)).

(** The number of times [open] was called on the driver. *)
Definition open_attempts (s : Server) : nat :=
  length (List.filter (fun c => match c with CallOpen _ => true | _ => false end)
            (calls (adapter s))).

End Middleware.

Arguments mkServer {E} isDbInitialized adapter.
Arguments isDbInitialized {E} s.
Arguments adapter {E} s.
Arguments open_attempts {E} s.

(** A server that just started, on the small engine, behind a path the
    driver cannot open. *)
Definition unopenable_path : string := "".

Definition started : Server Mini.engine := mkServer false Mini.closed.

(** The schema check of the small engine: one statement on the adapter. *)
Definition mini_check : M (World Mini.engine) unit :=
  exec Mini.engine (Some 2) "SELECT * FROM pastes".

End Startup.

(* ===================================================================== *)
(** * The middleware chain around the bridge *)
(* ===================================================================== *)

Module Pipeline.
Import Js Logging Json Express Dav.

(** ** Routes for the protocol verbs *)

(** How a route handler leaves: [next()] or [next("route")]. *)
Inductive RouteStep := NextHandler | NextRoute.

(** The first handler of a route registered through
    [server[method.toLowerCase()](path, ...handlers)]. *)
Definition method_gate (m : string) (req : Request) : RouteStep :=
  if String.eqb (method req) m then NextHandler else NextRoute.

(** [server[method.toLowerCase()] = function (path, ...handlers) { ... }],
    for each supported verb, replaces the method of that name on the
    application.  With GET among the verbs the method replaced is [get],
    through which Express also reads its settings: [app.get("json escape")]
    is then a call of the function above, which returns a route, a truthy
    value, and the JSON writer of [res.json] escapes. *)
Definition json_escape (cfg : WebDAVConfig) : bool :=
  existsb (fun m => String.eqb (lower m) "get") (SUPPORTED_METHODS cfg).

Section Routes.

Variable CURRENT_LOG_LEVEL : option Z.

(** Whether Express matches a request path against the route path [/dav*]. *)
Variable matches_dav_route : string -> bool.

(** The route registered for the verb [m]: the gate, then the handler that
    logs and calls [next()]. *)
Definition direct_route (m : string) (req : Request) (console : list LogEntry)
    : list LogEntry :=
  if matches_dav_route (path req) then
    match method_gate m req with
    | NextHandler =>
        logMessage CURRENT_LOG_LEVEL LvDebug
          ("直接WebDAV路由处理: " +:+ m +:+ " " +:+ path req) [] console
    | NextRoute => console
    end
  else console.

(** The routes of all the supported verbs, in the order of registration. *)
Definition direct_routes (cfg : WebDAVConfig) (req : Request)
    (console : list LogEntry) : list LogEntry :=
  fold_left (fun console m => direct_route m req console) (SUPPORTED_METHODS cfg) console.

(** [req.headers[name] || fallback] *)
Definition header_or (req : Request) (name fallback : string) : string :=
  if truthy_str (headers req !! name) then header req name else fallback.

(** ** Errors of the body parsers *)

(** A value the body parsers pass to [next]: an error with the [type] and
    [limit] properties of [raw-body]. *)
Record ParserError := mkParserError {
  pe_error : JsError;
  pe_type : option string;
  pe_limit : option Z
}.

(** How the error middleware leaves: it answered, or it called [next(err)]. *)
Inductive ErrorHandled :=
| Replied (res : Response)
| PassedOn (err : ParserError) (res : Response).

(** [err.message && err.message.includes(sub)] *)
Definition message_includes (err : ParserError) (sub : string) : bool :=
  match err_message (pe_error err) with
  | Some m => negb (String.eqb m "") && includes m sub
  | None => false
  end.

(** [`${err.limit}`] *)
Definition limit_text (err : ParserError) : string :=
  match pe_limit err with
  | Some n => Z_to_string n
  | None => "undefined"
  end.

(** [err.limit] as a logged value *)
Definition limit_logged (err : ParserError) : LogVal :=
  match pe_limit err with
  | Some n => LogNum n
  | None => LogStr None
  end.

Definition too_large_body (err : ParserError) : json :=
  JObj ([("error", JStr "请求体过大");
         ("message", JStr ("上传内容超过限制 (" +:+ limit_text err +:+ ")"))]
        ++ match pe_limit err with
           | Some n => [("maxSize", number n)]
           | None => []
           end).

Definition bad_form_body (err : ParserError) : json :=
  JObj ([("error", JStr "无效的表单数据");
         ("message", JStr "无法解析multipart/form-data请求，请检查表单格式是否正确")]
        ++ match err_message (pe_error err) with
           | Some m => [("detail", JStr m)]
           | None => []
           end).

Definition bad_type_body (req : Request) : json :=
  JObj [("error", JStr "不支持的内容类型");
        ("message", JStr ("服务器无法处理请求的内容类型 "
                            +:+ header_or req "content-type" "未指定"))].

Definition is_too_large (err : ParserError) : bool :=
  match pe_type err with
  | Some t => String.eqb t "entity.too.large"
  | None => false
  end.

Definition is_bad_form (err : ParserError) : bool :=
  message_includes err "Unexpected end of form"
  || message_includes err "Unexpected end of multipart data"
  || message_includes err "Multipart: Boundary not found".

Definition is_bad_type (err : ParserError) : bool :=
  match err_status (pe_error err) with
  | StatusNum 415 => true
  | _ => message_includes err "content type"
  end.

(** The error middleware registered after the raw body parser. *)
Definition body_error_middleware (err : ParserError) (req : Request)
    (state : Response * list LogEntry) : ErrorHandled * list LogEntry :=
  let (res, console) := state in
  if is_too_large err then
    (Replied (finish (PayloadJson (too_large_body err)) (status 413 res)),
     logMessage CURRENT_LOG_LEVEL LvError "请求体过大错误:"
       [("method", LogStr (Some (method req)));
        ("path", LogStr (Some (path req)));
        ("contentLength", LogStr (Some (header_or req "content-length" "未知")));
        ("limit", limit_logged err)] console)
  else if is_bad_form err then
    (Replied (finish (PayloadJson (bad_form_body err)) (status 400 res)),
     logMessage CURRENT_LOG_LEVEL LvError "Multipart解析错误:"
       [("method", LogStr (Some (method req)));
        ("path", LogStr (Some (path req)));
        ("contentType", LogStr (Some (header_or req "content-type" "未知")));
        ("error", LogStr (err_message (pe_error err)))] console)
  else if is_bad_type err then
    (Replied (finish (PayloadJson (bad_type_body req)) (status 415 res)),
     logMessage CURRENT_LOG_LEVEL LvError "内容类型错误:"
       [("method", LogStr (Some (method req)));
        ("path", LogStr (Some (path req)));
        ("contentType", LogStr (Some (header_or req "content-type" "未知")))] console)
  else (PassedOn err res, console).

End Routes.

End Pipeline.

(* ===================================================================== *)
(** * The log level from the environment *)
(* ===================================================================== *)

Module Environment.
Import Js Logging.

Local Open Scope N_scope.

(** The code of a byte. *)
Definition code (c : ascii) : N := N_of_ascii c.

(** The last two bytes of a white space or line terminator of three bytes
    in UTF-8, given the first: U+1680, U+2000 to U+200A, U+2028, U+2029,
    U+202F, U+205F, U+3000, U+FEFF. *)
Definition wide_space (a b c : N) : bool :=
  ((a =? 225) && (b =? 154) && (c =? 128))
  || ((a =? 226) && (b =? 128)
      && (((128 <=? c) && (c <=? 138)) || (c =? 168) || (c =? 169) || (c =? 175)))
  || ((a =? 226) && (b =? 129) && (c =? 159))
  || ((a =? 227) && (b =? 128) && (c =? 128))
  || ((a =? 239) && (b =? 187) && (c =? 191)).

(** The text after one leading white space or line terminator, as
    [parseInt] understands them: tab, line feed, vertical tab, form feed,
    carriage return, space, U+00A0, and the characters of [wide_space]. *)
Definition strip_space (s : string) : option string :=
  match s with
  | EmptyString => None
  | String a rest =>
      if existsb (N.eqb (code a)) [9; 10; 11; 12; 13; 32] then Some rest
      else if code a =? 194 then
        match rest with
        | String b rest' => if code b =? 160 then Some rest' else None
        | EmptyString => None
        end
      else if existsb (N.eqb (code a)) [225; 226; 227; 239] then
        match rest with
        | String b (String c rest') =>
            if wide_space (code a) (code b) (code c) then Some rest' else None
        | _ => None
        end
      else None
  end.

Fixpoint trim_start (fuel : nat) (s : string) : string :=
  match fuel with
  | O => s
  | S fuel' =>
      match strip_space s with
      | Some rest => trim_start fuel' rest
      | None => s
      end
  end.

(** The value of a digit in the given radix. *)
Definition digit_value (radix : N) (c : ascii) : option N :=
  let n := code c in
  let value :=
    if (48 <=? n) && (n <=? 57) then Some (n - 48)
    else if (97 <=? n) && (n <=? 122) then Some (n - 87)
    else if (65 <=? n) && (n <=? 90) then Some (n - 55)
    else None in
  match value with
  | Some d => if d <? radix then Some d else None
  | None => None
  end.

(** The number the longest prefix of digits stands for; nothing when there
    is no digit. *)
Fixpoint read_digits (radix : N) (read : option N) (s : string) : option N :=
  match s with
  | EmptyString => read
  | String c rest =>
      match digit_value radix c with
      | Some d =>
          read_digits radix
            (Some (radix * match read with Some n => n | None => 0 end + d)) rest
      | None => read
      end
  end.

(** [parseInt(s)]: the integer read, before it is rounded to a double, which
    changes nothing to how it compares with the four levels; [None] is
    [NaN]. *)
Definition parseInt (s : string) : option Z :=
  let trimmed := trim_start (String.length s) s in
  let signed :=
    match trimmed with
    | String "-" rest => (true, rest)
    | String "+" rest => (false, rest)
    | _ => (false, trimmed)
    end in
  let prefixed :=
    match snd signed with
    | String "0" (String x rest) =>
        if Ascii.eqb x "x" || Ascii.eqb x "X" then (16, rest) else (10, snd signed)
    | _ => (10, snd signed)
    end in
  match read_digits (fst prefixed) None (snd prefixed) with
  | Some n => Some (if fst signed then (- Z.of_N n)%Z else Z.of_N n)
  | None => None
  end.

(** [CURRENT_LOG_LEVEL], from [process.env.LOG_LEVEL]. *)
Definition current_log_level (LOG_LEVEL : option string) : option Z :=
  match LOG_LEVEL with
  | Some text => if String.eqb text "" then Some (LOG_LEVELS LvInfo) else parseInt text
  | None => Some (LOG_LEVELS LvInfo)
  end.

(** A letter of the basic Latin alphabet. *)
Definition is_letter (c : ascii) : bool :=
  ((65 <=? code c) && (code c <=? 90)) || ((97 <=? code c) && (code c <=? 122)).

End Environment.

(* ===================================================================== *)
(** * The files of an upload *)
(* ===================================================================== *)

Module Upload.
Import Js Express.

(** [fs.existsSync(p)] on the files the spooling middleware works with. *)
Definition existsSync (fs : gmap string string) (p : string) : bool :=
  match fs !! p with
  | Some _ => true
  | None => false
  end.

End Upload.

(* ===================================================================== *)
(** * Notions used to state the properties *)
(* ===================================================================== *)

Module Measures.
Import Js Express.

(** A word without a star. *)
Definition star_free (p : string) : bool :=
  forallb (fun c => negb (Ascii.eqb c "*")) (list_ascii_of_string p).

(** The words masked in error messages. *)
Definition sensitive_words : list string :=
  ["key"; "password"; "token"; "secret"; "auth"].

Definition newline : ascii := ascii_of_nat 10.

Fixpoint count_newlines (s : string) : nat :=
  match s with
  | EmptyString => 0
  | String c s' => (if Ascii.eqb c newline then 1 else 0) + count_newlines s'
  end.

(** The response a middleware leaves, whether it answered or not. *)
Definition handled_response (h : Handled) : Response :=
  match h with
  | Next res | Done res | Thrown _ res => res
  end.

(** The names of the headers the CORS middleware may set. *)
Definition cors_headers : list string :=
  ["access-control-allow-origin"; "vary"; "access-control-allow-credentials";
   "access-control-allow-methods"; "access-control-allow-headers";
   "access-control-max-age"; "access-control-expose-headers"; "content-length"].

(** [res.set] for each pair of a list, the last pair first. *)
Definition set_all (l : list (string * string)) (res : Response) : Response :=
  fold_right (fun kv r => setHeader (fst kv) (snd kv) r) res l.

End Measures.

(* ===================================================================== *)
(** * Sample states and requests *)
(* ===================================================================== *)

Module Scenarios.
Import Js Logging Json Express Persistence.

(** A connection on the small engine with a transaction the caller opened:
    one row inserted since, none before. *)
Definition in_transaction : World Mini.engine :=
  @mkWorld Mini.engine (Some (Mini.mkMiniConn [[SqlInt 7]] (Some []))) [] [].

Definition nested_begin_error : JsError :=
  Mini.engine_error "SQLITE_ERROR: cannot start a transaction within a transaction".

(** A stack of two lines. *)
Definition short_stack : string :=
  "Error: no such paste" +:+ String (ascii_of_nat 10) "    at fetch (index.js:10:3)".

(** A multipart POST after the spooling middleware stored the path of its
    temporary file; the JSON parser left an empty object as the body. *)
Definition spooled_request : Request :=
  mkRequest "POST" "/api/upload" "/api/upload"
    {["content-type" := "multipart/form-data; boundary=x"; "host" := "files.example"]}
    false (Value (JObj [])) (Some "/tmp/upload-00ff") None.

(** The headers of a response of the application, names in lower case. *)
Definition application_headers : gmap string string :=
  <["allow" := "GET"]> {["x-request-id" := "42"]}.

(** A partial download: a binary body. *)
Definition download : Bridge.WorkerResponse :=
  Bridge.mkWorkerResponse 206 {["content-type" := "application/pdf"]}
    (Some "%PDF-1.7 ...").

(** A response of the application whose status Node cannot write. *)
Definition unwritable : Bridge.WorkerResponse :=
  Bridge.mkWorkerResponse 0 ∅ None.

(** A multipart upload arriving while the temporary file of another request
    is on disk. *)
Definition busy_upload : Spool.World :=
  Spool.mkWorld {["/tmp/upload-of-another-request" := "kept"]} []
    (Spool.upload_request "POST" "multipart/form-data; boundary=x") None [].

End Scenarios.

(* ===================================================================== *)
(** * Properties of the persistence adapter *)
(* ===================================================================== *)

Module PersistenceFacts.
Import Js Logging Persistence.

Section AdapterFacts.

Variable E : Engine.
Variable lvl : option Z.

Ltac unfold_m :=
  unfold batch, batch_begin, batch_commit, batch_rollback, run, all, first,
    prepare, exec, db_exec, db_run, db_all, db_get, on_db, this_db, log,
    bind, try_catch, ret, throw in *.

(** ** Statements *)

Lemma prepare_pure (sql_text : option string) (w : World E) :
  exists ref, prepare E sql_text w = (Return (mkStatement sql_text [] ref), w).
Proof.
  unfold_m. destruct (db w); eauto.
Qed.

Lemma on_db_null {A} method c (f : Conn E -> Outcome A * Conn E) (w : World E) :
  exists e, on_db E RefNull method c f w = (Throw e, w).
Proof.
  unfold on_db. eauto.
Qed.

(** [batch] seen as its four stages. *)
Lemma batch_stages (statements : list BatchItem) (w : World E) :
  batch E lvl statements w =
  match batch_begin E lvl statements w with
  | (Throw e, w1) => batch_rollback E lvl e w1
  | (Return _, w1) =>
      match batch_loop E lvl statements [] w1 with
      | (Throw e, w2) => batch_rollback E lvl e w2
      | (Return rs, w2) =>
          match batch_commit E w2 with
          | (Throw e, w3) => batch_rollback E lvl e w3
          | (Return _, w3) => (Return rs, w3)
          end
      end
  end.
Proof.
  unfold batch, batch_begin, batch_commit, bind, try_catch, log, this_db, ret.
  cbn [fst snd db].
  destruct (db_exec E _ "BEGIN TRANSACTION" _) as [[[]|e] w1]; [|reflexivity].
  destruct (batch_loop E lvl statements [] w1) as [[rs|e] w2]; [|reflexivity].
  destruct (db_exec E _ "COMMIT" w2) as [[[]|e] w3]; reflexivity.
Qed.

Lemma batch_loop_app (pre post : list BatchItem) acc (w : World E) :
  batch_loop E lvl (pre ++ post) acc w =
  match batch_loop E lvl pre acc w with
  | (Return rs, w') => batch_loop E lvl post rs w'
  | (Throw e, w') => (Throw e, w')
  end.
Proof.
  revert acc w. induction pre as [|statement pre IH]; intros acc w; simpl.
  - reflexivity.
  - unfold bind. destruct (exec_item E lvl statement w) as [[r|e] w1].
    + apply IH.
    + reflexivity.
Qed.

Lemma batch_loop_runs (statements : list BatchItem) acc (w : World E) rs w' :
  batch_loop E lvl statements acc w = (Return rs, w') ->
  exists rs', rs = (acc ++ rs')%list /\ runs_in_order E lvl statements w rs' w'.
Proof.
  revert acc w. induction statements as [|statement rest IH]; intros acc w; simpl.
  - unfold ret. intros [= <- <-]. exists []. split.
    + symmetry. apply app_nil_r.
    + constructor.
  - unfold bind. destruct (exec_item E lvl statement w) as [[r|e] w1] eqn:Hitem; [|discriminate].
    intros Hrest. destruct (IH _ _ Hrest) as (rs' & -> & Hruns).
    exists (r :: rs'). split.
    + rewrite <- app_assoc. reflexivity.
    + econstructor; eassumption.
Qed.

Lemma runs_in_order_length statements (w : World E) rs w' :
  runs_in_order E lvl statements w rs w' -> length rs = length statements.
Proof.
  induction 1; simpl; congruence.
Qed.

(** The [catch] block always rethrows the error it was given, after one
    [ROLLBACK] reached the engine (when there is a connection). *)
Lemma batch_rollback_spec {A} (e : JsError) (w : World E) c :
  db w = Some c ->
  exists w',
    batch_rollback E lvl (A := A) e w = (Throw e, w')
    /\ calls w' = (calls w ++ [CallExec "ROLLBACK"])%list
    /\ db w' = Some (snd (engine_exec E "ROLLBACK" c))
    /\ (forall re,
          fst (engine_exec E "ROLLBACK" c) = Throw re ->
          level_enabled lvl LvError = true ->
          last (console w') =
            Some (mkLog LvError "事务回滚失败:" [("rollbackError", LogErr re)])).
Proof.
  intros Hdb. unfold_m. cbn [db calls console]. rewrite Hdb.
  destruct (engine_exec E "ROLLBACK" c) as [[[]|re] c'] eqn:Hrb; cbn [fst snd db calls console].
  - eexists. repeat split; try reflexivity. intros re [=].
  - eexists. repeat split; try reflexivity.
    intros re' [= <-] Hlvl. unfold logMessage at 1. rewrite Hlvl.
    apply last_snoc.
Qed.

Lemma batch_begin_spec (statements : list BatchItem) (w w1 : World E) c0 :
  db w = Some c0 ->
  batch_begin E lvl statements w = (Return tt, w1) ->
  exists c1,
    engine_exec E "BEGIN TRANSACTION" c0 = (Return tt, c1)
    /\ db w1 = Some c1
    /\ calls w1 = (calls w ++ [CallExec "BEGIN TRANSACTION"])%list.
Proof.
  intros Hdb. unfold_m. cbn [db calls console]. rewrite Hdb.
  destruct (engine_exec E "BEGIN TRANSACTION" c0) as [[[]|e] c1]; [|discriminate].
  intros [= <-]. exists c1. repeat split; reflexivity.
Qed.

Lemma batch_commit_spec (w w3 : World E) :
  batch_commit E w = (Return tt, w3) ->
  calls w3 = (calls w ++ [CallExec "COMMIT"])%list.
Proof.
  unfold_m. destruct (db w) as [c|]; [|discriminate].
  destruct (engine_exec E "COMMIT" c) as [[[]|e] c']; [|discriminate].
  intros [= <-]. reflexivity.
Qed.

End AdapterFacts.

(** ** The small engine keeps the transaction contract *)

Lemma mini_begin_opens (c c' : Mini.MiniConn) :
  Mini.mini_exec "BEGIN TRANSACTION" c = (Return tt, c') ->
  Mini.txn c' = Some (Mini.rows c).
Proof.
  unfold Mini.mini_exec, Mini.step. cbn.
  destruct (Mini.txn c); [discriminate|]. intros [= <-]. reflexivity.
Qed.

Lemma mini_rollback_restores (c c' : Mini.MiniConn) d :
  Mini.mini_exec "ROLLBACK" c = (Return tt, c') ->
  Mini.txn c = Some d ->
  Mini.rows c' = d.
Proof.
  unfold Mini.mini_exec, Mini.step. cbn.
  intros H Htxn. rewrite Htxn in H. injection H as <-. reflexivity.
Qed.

(** ** Batches *)

(** C1 (as amended).  [batch] sends BEGIN TRANSACTION, then the statements in
    order.  When statement k fails, nothing after it reaches the engine, one
    ROLLBACK follows, and the error of statement k is what the caller gets,
    without any result; a failing ROLLBACK is logged (at an enabled error
    level) and changes nothing of that.  If the engine's ROLLBACK succeeds and
    the transaction that BEGIN opened is still the open one at the failure,
    the contents seen through the connection are those from before the call.
    When every statement and COMMIT succeed, the results are those of the
    statements, one by one in input order. *)
Theorem batch_is_transactional :
  forall (E : Engine) (lvl : option Z) (D : Type)
         (visible : Conn E -> D) (open_txn : Conn E -> option D),
    (forall c c', engine_exec E "BEGIN TRANSACTION" c = (Return tt, c') ->
                  open_txn c' = Some (visible c)) ->
    (forall c c' d, engine_exec E "ROLLBACK" c = (Return tt, c') ->
                    open_txn c = Some d -> visible c' = d) ->
    (forall pre statement post (w w1 w2 w3 : World E) rs e c0 c1 c3,
        db w = Some c0 ->
        batch_begin E lvl (pre ++ statement :: post) w = (Return tt, w1) ->
        batch_loop E lvl pre [] w1 = (Return rs, w2) ->
        exec_item E lvl statement w2 = (Throw e, w3) ->
        db w1 = Some c1 ->
        db w3 = Some c3 ->
        exists w',
          batch E lvl (pre ++ statement :: post) w = (Throw e, w')
          /\ calls w1 = (calls w ++ [CallExec "BEGIN TRANSACTION"])%list
          /\ calls w' = (calls w3 ++ [CallExec "ROLLBACK"])%list
          /\ (forall re,
                fst (engine_exec E "ROLLBACK" c3) = Throw re ->
                level_enabled lvl LvError = true ->
                last (console w') =
                  Some (mkLog LvError "事务回滚失败:" [("rollbackError", LogErr re)]))
          /\ (fst (engine_exec E "ROLLBACK" c3) = Return tt ->
              open_txn c3 = open_txn c1 ->
              exists c', db w' = Some c' /\ visible c' = visible c0))
    /\
    (forall statements (w w1 w2 w3 : World E) rs,
        batch_begin E lvl statements w = (Return tt, w1) ->
        batch_loop E lvl statements [] w1 = (Return rs, w2) ->
        batch_commit E w2 = (Return tt, w3) ->
        batch E lvl statements w = (Return rs, w3)
        /\ runs_in_order E lvl statements w1 rs w2
        /\ length rs = length statements
        /\ calls w3 = (calls w2 ++ [CallExec "COMMIT"])%list).
Proof.
  intros E lvl D visible open_txn Hbegin Hrollback. split.
  - intros pre statement post w w1 w2 w3 rs e c0 c1 c3 Hdb Hb Hpre Hfail Hdb1 Hdb3.
    destruct (@batch_begin_spec E lvl _ _ _ _ Hdb Hb) as (c1' & Hexec & Hdb1' & Hcalls1).
    assert (c1' = c1) as -> by congruence.
    destruct (@batch_rollback_spec E lvl (list (BatchResult E)) e _ _ Hdb3)
      as (w' & Hrb & Hcalls & Hdb' & Hlog).
    exists w'. repeat split; try assumption.
    + rewrite batch_stages, Hb, batch_loop_app, Hpre. simpl.
      unfold bind at 1. rewrite Hfail. exact Hrb.
    + intros Hok Hkept. eexists. split; [exact Hdb'|].
      destruct (engine_exec E "ROLLBACK" c3) as [r c4] eqn:Hr. simpl in Hok. subst r.
      simpl. apply (Hrollback _ _ _ Hr). rewrite Hkept. eapply Hbegin; eassumption.
  - intros statements w w1 w2 w3 rs Hb Hloop Hcommit.
    destruct (@batch_loop_runs E lvl _ _ _ _ _ Hloop) as (rs' & -> & Hruns). simpl in *.
    repeat split.
    + rewrite batch_stages, Hb, Hloop, Hcommit. reflexivity.
    + assumption.
    + eapply runs_in_order_length; eassumption.
    + eapply batch_commit_spec; eassumption.
Qed.

(** The scenario of the specification on the small engine: the first insert
    is rolled back and the failure of the second insert is reported. *)
Lemma batch_is_transactional_witness :
  exists w' c',
    batch Mini.engine (Some 2) (Mini.scenario_pre ++ Mini.scenario_failing :: Mini.scenario_post)
      Mini.fresh = (Throw Mini.scenario_error, w')
    /\ db w' = Some c'
    /\ Mini.rows c' = [].
Proof.
  destruct (@batch_is_transactional Mini.engine (Some 2) _ Mini.rows Mini.txn
              mini_begin_opens mini_rollback_restores) as [Hfail _].
  edestruct (Hfail Mini.scenario_pre Mini.scenario_failing Mini.scenario_post Mini.fresh)
    as (w' & Hbatch & _ & _ & _ & Hvisible);
    [reflexivity | reflexivity | reflexivity | reflexivity
    | reflexivity | reflexivity |].
  destruct Hvisible as (c' & Hdb & Hrows); [reflexivity | reflexivity |].
  exists w', c'. repeat split; assumption.
Defined.

(** C1 (as stated) fails: a statement that ends the transaction makes the
    later ROLLBACK fail, which is only logged, and the row inserted by the
    first statement stays visible after the call has thrown. *)
Lemma batch_failure_can_leave_changes :
  exists e w' c',
    batch Mini.engine (Some 2) Mini.committing_batch Mini.fresh = (Throw e, w')
    /\ db w' = Some c'
    /\ Mini.rows c' = [[]]
    /\ Mini.rows c' <> []
    /\ calls w' = [CallExec "BEGIN TRANSACTION";
                   CallExec "INSERT INTO pastes VALUES (1)";
                   CallExec "COMMIT";
                   CallExec "INSERT INTO nonexistent_table VALUES (2)";
                   CallExec "ROLLBACK"].
Proof.
  do 3 eexists. split; [vm_compute; reflexivity|].
  repeat split; try reflexivity. discriminate.
Qed.

(** ** Prepared statements *)

(** C10.  [prepare] returns a statement for any SQL text and leaves the
    adapter as it was: no call reaches the engine and nothing is logged.
    For a statement that holds the connection, [run], [all] and [first] make
    one call of the engine, [run], [all] and [get], with the SQL text and
    the parameters of the statement.  They throw exactly when that call
    fails, and then throw its error, after logging it; otherwise [run] gives
    [{ success: true }], [all] wraps the rows in [results], and [first]
    gives what [get] gave: a row or nothing.  For a statement prepared
    before the connection was opened, the call on [this._db] fails with a
    TypeError before anything reaches the engine, and that error is logged
    and thrown in the same way. *)
Theorem prepare_defers_engine_errors :
  forall (E : Engine) (lvl : option Z),
    (forall sql_text (w : World E),
        prepare E sql_text w =
          (Return (mkStatement sql_text []
                     (match db w with Some _ => RefDb | None => RefNull end)), w))
    /\ (forall st (w : World E) conn,
          _db st = RefDb ->
          db w = Some conn ->
          let called := (calls w ++ [CallRun (sql st) (params st)])%list in
          match engine_run E (sql st) (params st) conn with
          | (Return _, conn') =>
              run E lvl st w = (Return (mkRunOk true), mkWorld (Some conn') called (console w))
          | (Throw e, conn') =>
              run E lvl st w =
                (Throw e,
                 mkWorld (Some conn') called
                   (logMessage lvl LvError "SQL执行错误:" (sql_log_data e st) (console w)))
          end)
    /\ (forall st (w : World E) conn,
          _db st = RefDb ->
          db w = Some conn ->
          let called := (calls w ++ [CallAll (sql st) (params st)])%list in
          match engine_all E (sql st) (params st) conn with
          | (Return rows, conn') =>
              all E lvl st w = (Return (mkAllOk E rows), mkWorld (Some conn') called (console w))
          | (Throw e, conn') =>
              all E lvl st w =
                (Throw e,
                 mkWorld (Some conn') called
                   (logMessage lvl LvError "SQL查询错误:" (sql_log_data e st) (console w)))
          end)
    /\ (forall st (w : World E) conn,
          _db st = RefDb ->
          db w = Some conn ->
          let called := (calls w ++ [CallGet (sql st) (params st)])%list in
          match engine_get E (sql st) (params st) conn with
          | (Return row, conn') =>
              first E lvl st w = (Return row, mkWorld (Some conn') called (console w))
          | (Throw e, conn') =>
              first E lvl st w =
                (Throw e,
                 mkWorld (Some conn') called
                   (logMessage lvl LvError "SQL查询错误:" (sql_log_data e st) (console w)))
          end)
    /\ (forall st (w : World E),
          _db st = RefNull ->
          let failed (A : Type) (method message : string) : Outcome A * World E :=
            let e := type_error ("Cannot read properties of null (reading '"
                                   +:+ method +:+ "')") in
            (Throw e,
             mkWorld (db w) (calls w)
               (logMessage lvl LvError message (sql_log_data e st) (console w))) in
          run E lvl st w = failed RunOk "run" "SQL执行错误:"
          /\ all E lvl st w = failed (AllOk E) "all" "SQL查询错误:"
          /\ first E lvl st w = failed (option (Row E)) "get" "SQL查询错误:").
Proof.
  intros E lvl. split; [reflexivity|]. split; [|split; [|split]].
  - intros st w conn Href Hdb called. subst called.
    unfold run, try_catch, bind, ret, throw, log, db_run, on_db. rewrite Href, Hdb.
    destruct (engine_run E (sql st) (params st) conn) as [[r|e] conn']; reflexivity.
  - intros st w conn Href Hdb called. subst called.
    unfold all, try_catch, bind, ret, throw, log, db_all, on_db. rewrite Href, Hdb.
    destruct (engine_all E (sql st) (params st) conn) as [[r|e] conn']; reflexivity.
  - intros st w conn Href Hdb called. subst called.
    unfold first, try_catch, bind, ret, throw, log, db_get, on_db. rewrite Href, Hdb.
    destruct (engine_get E (sql st) (params st) conn) as [[r|e] conn']; reflexivity.
  - intros st w Href failed. subst failed.
    unfold run, all, first, try_catch, bind, ret, throw, log, db_run, db_all, db_get, on_db.
    rewrite Href. repeat split.
Qed.

(** On the small engine: an insert prepared on an open connection, bound to
    a value and run, adds its row; a statement the engine does not know
    fails when it is run, with the error of the engine. *)
Lemma prepare_defers_engine_errors_witness :
  run Mini.engine (Some 2)
    (bind_params (mkStatement (Some "INSERT INTO pastes VALUES (?)") [] RefDb) [SqlInt 1])
    Mini.fresh
  = (Return (mkRunOk true),
     @mkWorld Mini.engine (Some (Mini.mkMiniConn [[SqlInt 1]] None))
       [CallRun (Some "INSERT INTO pastes VALUES (?)") [SqlInt 1]] [])
  /\ fst (run Mini.engine (Some 2) (mkStatement (Some "SELEC 1") [] RefDb) Mini.fresh)
     = Throw (Mini.engine_error "SQLITE_ERROR: cannot execute: SELEC 1").
Proof.
  destruct (prepare_defers_engine_errors Mini.engine (Some 2)) as (_ & Hrun & _).
  split.
  - exact (Hrun (bind_params (mkStatement (Some "INSERT INTO pastes VALUES (?)") [] RefDb)
                   [SqlInt 1])
             Mini.fresh (Mini.mkMiniConn [] None) eq_refl eq_refl).
  - exact (f_equal fst
             (Hrun (mkStatement (Some "SELEC 1") [] RefDb) Mini.fresh
                (Mini.mkMiniConn [] None) eq_refl eq_refl
              : run Mini.engine (Some 2) (mkStatement (Some "SELEC 1") [] RefDb) Mini.fresh
                = (Throw (Mini.engine_error "SQLITE_ERROR: cannot execute: SELEC 1"), _))).
Defined.

End PersistenceFacts.

(* ===================================================================== *)
(** * [JSON.parse] reads back what [JSON.stringify] printed *)
(* ===================================================================== *)

Module JsonFacts.
Import Js Json.

#[local] Arguments String.append !_ _ / : simpl nomatch.

Lemma append_assoc (a b c : string) : (a +:+ b) +:+ c = a +:+ (b +:+ c).
Proof.
  induction a as [|x a IH]; simpl; [reflexivity | now rewrite IH].
Qed.

Lemma append_nil_r (a : string) : a +:+ "" = a.
Proof.
  induction a as [|x a IH]; simpl; [reflexivity | now rewrite IH].
Qed.

Lemma length_append (a b : string) :
  String.length (a +:+ b) = (String.length a + String.length b)%nat.
Proof.
  induction a as [|x a IH]; simpl; [reflexivity | now rewrite IH].
Qed.

Lemma json_nested_ind (P : json -> Prop) :
  P JNull ->
  (forall b, P (JBool b)) ->
  (forall text, P (JNum text)) ->
  (forall s, P (JStr s)) ->
  (forall items, Forall P items -> P (JArr items)) ->
  (forall members, Forall (fun kv => P (snd kv)) members -> P (JObj members)) ->
  forall v, P v.
Proof.
  intros Hnull Hbool Hnum Hstr Harr Hobj.
  fix IH 1. intros [| b | text | s | items | members].
  - exact Hnull.
  - apply Hbool.
  - apply Hnum.
  - apply Hstr.
  - apply Harr. induction items as [|x items IHl]; constructor; [apply IH | exact IHl].
  - apply Hobj. induction members as [|[k x] members IHl]; constructor;
      [apply IH | exact IHl].
Qed.

(** ** Strings *)

Lemma escape_step (a : ascii) (s1 : string) :
  escape (String a s1) =
  match s1 with
  | String b (String c s3) =>
      match surrogate_unit a b c with
      | Some u => String backslash (String "u" (hex4 u)) +:+ escape s3
      | None => escape_char a +:+ escape s1
      end
  | _ => escape_char a +:+ escape s1
  end.
Proof.
  destruct s1 as [|b [|c s3]]; reflexivity.
Qed.

Lemma surrogate_free_step (a : ascii) (s1 : string) :
  surrogate_free (String a s1) =
  match s1 with
  | String b (String c _) =>
      match surrogate_unit a b c with
      | Some _ => false
      | None => surrogate_free s1
      end
  | _ => true
  end.
Proof.
  destruct s1 as [|b [|c s3]]; reflexivity.
Qed.

(** Without surrogates, a string is escaped character by character. *)
Lemma escape_surrogate_free (s : string) :
  surrogate_free s = true -> escape s = escape_chars s.
Proof.
  induction s as [|a s1 IH]; [reflexivity|].
  rewrite escape_step, surrogate_free_step. cbn [escape_chars].
  destruct s1 as [|b [|c s3]].
  - reflexivity.
  - intros _. now rewrite IH.
  - destruct (surrogate_unit a b c); [discriminate|].
    intros H. now rewrite (IH H).
Qed.

Lemma parse_chars_escape_char (c : ascii) (t : string) :
  parse_chars (escape_char c +:+ t) =
  match parse_chars t with
  | Some (u, r) => Some (String c u, r)
  | None => None
  end.
Proof.
  destruct c as [[] [] [] [] [] [] [] []]; reflexivity.
Qed.

Lemma parse_chars_escape_chars (s rest : string) :
  parse_chars (escape_chars s +:+ String dquote rest) = Some (s, rest).
Proof.
  induction s as [|c s IH]; cbn [escape_chars].
  - reflexivity.
  - rewrite append_assoc, parse_chars_escape_char, IH. reflexivity.
Qed.

Lemma parse_chars_escape (s rest : string) :
  surrogate_free s = true ->
  parse_chars (escape s +:+ String dquote rest) = Some (s, rest).
Proof.
  intros H. rewrite (escape_surrogate_free s H). apply parse_chars_escape_chars.
Qed.

(** ** Numbers *)

Lemma neutral_head (c : ascii) (rest : string) :
  neutral (String c rest) = true ->
  is_digit c = false /\ Ascii.eqb c "." = false /\ Ascii.eqb c "e" = false
  /\ Ascii.eqb c "E" = false /\ Ascii.eqb c "+" = false /\ Ascii.eqb c "-" = false.
Proof.
  unfold neutral, number_char. rewrite negb_true_iff, !orb_false_iff. tauto.
Qed.

Lemma span_digits_app (s d r rest : string) :
  span_digits s = (d, r) -> neutral rest = true ->
  span_digits (s +:+ rest) = (d, r +:+ rest).
Proof.
  revert d r. induction s as [|c s IH]; intros d r; cbn [span_digits String.append].
  - intros [= <- <-] Hrest. destruct rest as [|c rest]; [reflexivity|].
    destruct (neutral_head c rest Hrest) as (Hd & _). cbn [span_digits]. now rewrite Hd.
  - destruct (is_digit c).
    + destruct (span_digits s) as [d' r'] eqn:Hs. intros [= <- <-] Hrest.
      now rewrite (IH d' r' eq_refl Hrest).
    + intros [= <- <-] _. reflexivity.
Qed.

Lemma span_digits_whole (s d r : string) :
  span_digits s = (d, r) -> s = d +:+ r.
Proof.
  revert d r. induction s as [|c s IH]; intros d r; cbn [span_digits].
  - now intros [= <- <-].
  - destruct (is_digit c).
    + destruct (span_digits s) as [d' r'] eqn:Hs. intros [= <- <-].
      cbn [String.append]. now rewrite <- (IH d' r' eq_refl).
    + now intros [= <- <-].
Qed.

Lemma take_digits_app (s d r rest : string) :
  take_digits s = Some (d, r) -> neutral rest = true ->
  take_digits (s +:+ rest) = Some (d, r +:+ rest).
Proof.
  unfold take_digits. destruct (span_digits s) as [d' r'] eqn:Hs.
  intros H Hrest. rewrite (span_digits_app s d' r' rest Hs Hrest).
  destruct d'; [discriminate|]. now injection H as <- <-.
Qed.

Lemma take_digits_whole (s d r : string) :
  take_digits s = Some (d, r) -> s = d +:+ r.
Proof.
  unfold take_digits. destruct (span_digits s) as [d' r'] eqn:Hs.
  destruct d'; [discriminate|]. intros [= <- <-]. now apply span_digits_whole.
Qed.

Lemma take_int_app (s i r rest : string) :
  take_int s = Some (i, r) -> neutral rest = true ->
  take_int (s +:+ rest) = Some (i, r +:+ rest).
Proof.
  destruct s as [|c s]; [discriminate|]. cbn [take_int String.append].
  destruct (Ascii.eqb c "0").
  - now intros [= <- <-].
  - destruct (is_digit c); [|discriminate].
    destruct (span_digits s) as [d r'] eqn:Hs. intros [= <- <-] Hrest.
    now rewrite (span_digits_app s d r' rest Hs Hrest).
Qed.

Lemma take_int_whole (s i r : string) :
  take_int s = Some (i, r) -> s = i +:+ r.
Proof.
  destruct s as [|c s]; [discriminate|]. cbn [take_int].
  destruct (Ascii.eqb c "0").
  - now intros [= <- <-].
  - destruct (is_digit c); [|discriminate].
    destruct (span_digits s) as [d r'] eqn:Hs. intros [= <- <-].
    cbn [String.append]. now rewrite <- (span_digits_whole s d r' Hs).
Qed.

Lemma take_int_head (s i r : string) :
  take_int s = Some (i, r) -> exists c t, s = String c t /\ is_digit c = true.
Proof.
  destruct s as [|c s]; [discriminate|]. cbn [take_int].
  destruct (Ascii.eqb_spec c "0") as [->|_].
  - intros _. eexists _, _. split; reflexivity.
  - destruct (is_digit c) eqn:Hc; [|discriminate]. intros _. eauto.
Qed.

Lemma take_frac_app (s f r rest : string) :
  take_frac s = Some (f, r) -> neutral rest = true ->
  take_frac (s +:+ rest) = Some (f, r +:+ rest).
Proof.
  destruct s as [|c s]; cbn [take_frac String.append].
  - intros [= <- <-] Hrest. destruct rest as [|c rest]; [reflexivity|].
    destruct (neutral_head c rest Hrest) as (_ & Hp & _). cbn [take_frac]. now rewrite Hp.
  - destruct (Ascii.eqb c ".").
    + destruct (take_digits s) as [[d r']|] eqn:Hs; [|discriminate].
      intros [= <- <-] Hrest. now rewrite (take_digits_app s d r' rest Hs Hrest).
    + now intros [= <- <-].
Qed.

Lemma take_frac_whole (s f r : string) :
  take_frac s = Some (f, r) -> s = f +:+ r.
Proof.
  destruct s as [|c s]; cbn [take_frac].
  - now intros [= <- <-].
  - destruct (Ascii.eqb c ".").
    + destruct (take_digits s) as [[d r']|] eqn:Hs; [|discriminate].
      intros [= <- <-]. cbn [String.append]. now rewrite <- (take_digits_whole s d r' Hs).
    + now intros [= <- <-].
Qed.

Lemma take_exp_sign_app (s sign r rest : string) :
  take_exp_sign s = (sign, r) -> neutral rest = true ->
  take_exp_sign (s +:+ rest) = (sign, r +:+ rest).
Proof.
  destruct s as [|c s]; cbn [take_exp_sign String.append].
  - intros [= <- <-] Hrest. destruct rest as [|c rest]; [reflexivity|].
    destruct (neutral_head c rest Hrest) as (_ & _ & _ & _ & Hplus & Hminus).
    cbn [take_exp_sign]. now rewrite Hplus, Hminus.
  - destruct (_ || _); now intros [= <- <-].
Qed.

Lemma take_exp_sign_whole (s sign r : string) :
  take_exp_sign s = (sign, r) -> s = sign +:+ r.
Proof.
  destruct s as [|c s]; cbn [take_exp_sign].
  - now intros [= <- <-].
  - destruct (_ || _); now intros [= <- <-].
Qed.

Lemma take_exp_app (s e r rest : string) :
  take_exp s = Some (e, r) -> neutral rest = true ->
  take_exp (s +:+ rest) = Some (e, r +:+ rest).
Proof.
  destruct s as [|c s]; cbn [take_exp String.append].
  - intros [= <- <-] Hrest. destruct rest as [|c rest]; [reflexivity|].
    destruct (neutral_head c rest Hrest) as (_ & _ & He & HE & _).
    cbn [take_exp]. now rewrite He, HE.
  - destruct (_ || _).
    + destruct (take_exp_sign s) as [sign r1] eqn:Hsign.
      destruct (take_digits r1) as [[d r2]|] eqn:Hd; [|discriminate].
      intros [= <- <-] Hrest.
      rewrite (take_exp_sign_app s sign r1 rest Hsign Hrest).
      now rewrite (take_digits_app r1 d r2 rest Hd Hrest).
    + now intros [= <- <-].
Qed.

Lemma take_exp_whole (s e r : string) :
  take_exp s = Some (e, r) -> s = e +:+ r.
Proof.
  destruct s as [|c s]; cbn [take_exp].
  - now intros [= <- <-].
  - destruct (_ || _).
    + destruct (take_exp_sign s) as [sign r1] eqn:Hsign.
      destruct (take_digits r1) as [[d r2]|] eqn:Hd; [|discriminate].
      intros [= <- <-]. cbn [String.append]. rewrite append_assoc.
      rewrite <- (take_digits_whole r1 d r2 Hd).
      now rewrite <- (take_exp_sign_whole s sign r1 Hsign).
    + now intros [= <- <-].
Qed.

Lemma take_sign_app (s sign r rest : string) :
  take_sign s = (sign, r) -> s <> "" ->
  take_sign (s +:+ rest) = (sign, r +:+ rest).
Proof.
  destruct s as [|c s]; [congruence|]. cbn [take_sign String.append].
  destruct (Ascii.eqb c "-"); now intros [= <- <-].
Qed.

Lemma take_sign_whole (s sign r : string) :
  take_sign s = (sign, r) -> s = sign +:+ r.
Proof.
  destruct s as [|c s]; cbn [take_sign].
  - now intros [= <- <-].
  - destruct (Ascii.eqb c "-"); now intros [= <- <-].
Qed.

(** A number token is read the same way in front of a text that cannot
    continue it. *)
Lemma number_token_app (s token r rest : string) :
  number_token s = Some (token, r) -> neutral rest = true ->
  number_token (s +:+ rest) = Some (token, r +:+ rest).
Proof.
  unfold number_token. intros H Hrest.
  destruct (take_sign s) as [sign r0] eqn:Hsign.
  assert (s <> "") as Hs.
  { intros ->. cbn in Hsign. injection Hsign as <- <-. discriminate H. }
  rewrite (take_sign_app s sign r0 rest Hsign Hs).
  destruct (take_int r0) as [[i r1]|] eqn:Hi; [|discriminate].
  rewrite (take_int_app r0 i r1 rest Hi Hrest).
  destruct (take_frac r1) as [[f r2]|] eqn:Hf; [|discriminate].
  rewrite (take_frac_app r1 f r2 rest Hf Hrest).
  destruct (take_exp r2) as [[e r3]|] eqn:He; [|discriminate].
  rewrite (take_exp_app r2 e r3 rest He Hrest).
  now injection H as <- <-.
Qed.

(** The token and what follows it make up the text. *)
Lemma number_token_whole (s token r : string) :
  number_token s = Some (token, r) -> s = token +:+ r.
Proof.
  unfold number_token.
  destruct (take_sign s) as [sign r0] eqn:Hsign.
  destruct (take_int r0) as [[i r1]|] eqn:Hi; [|discriminate].
  destruct (take_frac r1) as [[f r2]|] eqn:Hf; [|discriminate].
  destruct (take_exp r2) as [[e r3]|] eqn:He; [|discriminate].
  intros [= <- <-]. rewrite !append_assoc.
  rewrite <- (take_exp_whole r2 e r3 He), <- (take_frac_whole r1 f r2 Hf).
  rewrite <- (take_int_whole r0 i r1 Hi). now apply take_sign_whole.
Qed.

Lemma number_token_head (s token r : string) :
  number_token s = Some (token, r) ->
  exists c t, s = String c t /\ (is_digit c = true \/ c = "-"%char).
Proof.
  unfold number_token.
  destruct (take_sign s) as [sign r0] eqn:Hsign.
  destruct (take_int r0) as [[i r1]|] eqn:Hi; [|discriminate].
  intros _. destruct s as [|c s]; cbn [take_sign] in Hsign.
  - injection Hsign as <- <-. discriminate Hi.
  - destruct (Ascii.eqb_spec c "-") as [->|_].
    + eauto.
    + injection Hsign as <- <-.
      destruct (take_int_head _ _ _ Hi) as (c' & t' & [= -> ->] & Hc). eauto.
Qed.

Lemma number_ok_token (canon : string -> string) (text : string) :
  number_ok canon text = true ->
  number_token text = Some (text, "") /\ canon text = text.
Proof.
  unfold number_ok. destruct (number_token text) as [[token r]|] eqn:Htoken; [|discriminate].
  destruct r; [|discriminate]. intros Hcanon. apply String.eqb_eq in Hcanon.
  split; [|assumption].
  pose proof (number_token_whole _ _ _ Htoken) as Hwhole.
  rewrite append_nil_r in Hwhole. now subst token.
Qed.

Lemma number_ok_finite (canon : string -> string) (text : string) :
  number_ok canon text = true -> is_finite text = true.
Proof.
  intros H. destruct (number_ok_token canon text H) as [Htoken _].
  unfold is_finite. rewrite negb_true_iff, !orb_false_iff.
  repeat split; apply String.eqb_neq; intros ->; discriminate Htoken.
Qed.

Lemma delimited_neutral (rest : string) :
  delimited rest = true -> neutral rest = true.
Proof.
  destruct rest as [|c rest]; simpl; [auto|].
  destruct c as [[] [] [] [] [] [] [] []]; intros H; try discriminate H; reflexivity.
Qed.

Lemma delimited_skip_ws (rest : string) :
  delimited rest = true -> skip_ws rest = rest.
Proof.
  destruct rest as [|c rest]; simpl; [auto|].
  destruct c as [[] [] [] [] [] [] [] []]; intros H; try discriminate H; reflexivity.
Qed.

Lemma parse_number_roundtrip (canon : string -> string) (text rest : string) :
  number_ok canon text = true ->
  delimited rest = true ->
  parse_number canon (text +:+ rest) = Some (text, rest).
Proof.
  intros Hok Hrest. destruct (number_ok_token canon text Hok) as [Htoken Hcanon].
  unfold parse_number.
  rewrite (number_token_app text text "" rest Htoken (delimited_neutral _ Hrest)).
  now rewrite Hcanon.
Qed.

(** ** Property order *)

Lemma keys_ok_app_l (ks ks' : list string) :
  keys_ok (ks ++ ks') = true -> keys_ok ks = true.
Proof.
  induction ks as [|k ks IH]; simpl; [reflexivity|].
  rewrite !andb_true_iff, forallb_app, andb_true_iff.
  intros [[H _] Hrest]. split; [exact H | exact (IH Hrest)].
Qed.

Lemma keys_ok_last (ks : list string) (k : string) :
  keys_ok (ks ++ [k]) = true ->
  Forall (fun k' => String.eqb k' k = false /\ precedes k' k = true) ks.
Proof.
  induction ks as [|k' ks IH]; simpl; [constructor|].
  rewrite !andb_true_iff, forallb_app, andb_true_iff. simpl.
  rewrite !andb_true_iff, negb_true_iff.
  intros [[_ [[Hne Hpre] _]] Hrest]. constructor; [split; assumption | exact (IH Hrest)].
Qed.

Lemma has_key_fresh (k : string) (v : json) (members : list (string * json)) :
  Forall (fun k' => String.eqb k' k = false /\ precedes k' k = true) (map fst members) ->
  has_key k members = false.
Proof.
  unfold has_key. induction members as [|[k' v'] members IH]; simpl; [reflexivity|].
  intros H. inversion H as [|? ? [Hne _] Hrest]; subst. rewrite Hne. exact (IH Hrest).
Qed.

Lemma insert_index_last (n : N) (k : string) (v : json) (members : list (string * json)) :
  array_index k = Some n ->
  Forall (fun k' => String.eqb k' k = false /\ precedes k' k = true) (map fst members) ->
  insert_index n k v members = members ++ [(k, v)].
Proof.
  intros Hk. induction members as [|[k' v'] members IH]; simpl; [reflexivity|].
  intros H. inversion H as [|? ? [_ Hpre] Hrest]; subst.
  unfold precedes in Hpre. rewrite Hk in Hpre.
  destruct (array_index k') as [m|]; [|discriminate].
  rewrite Hpre, (IH Hrest). reflexivity.
Qed.

Lemma set_property_last (k : string) (v : json) (members : list (string * json)) :
  keys_ok (map fst (members ++ [(k, v)])) = true ->
  set_property k v members = members ++ [(k, v)].
Proof.
  rewrite map_app. simpl. intros H. apply keys_ok_last in H.
  unfold set_property. rewrite (has_key_fresh k v members H).
  destruct (array_index k) as [n|] eqn:Hk; [|reflexivity].
  now apply insert_index_last.
Qed.

Lemma fold_set_property (pairs acc : list (string * json)) :
  keys_ok (map fst (acc ++ pairs)) = true ->
  fold_left (fun o kv => set_property (fst kv) (snd kv) o) pairs acc = acc ++ pairs.
Proof.
  revert acc. induction pairs as [|[k v] pairs IH]; intros acc H; simpl.
  - now rewrite app_nil_r.
  - change (acc ++ (k, v) :: pairs) with (acc ++ [(k, v)] ++ pairs) in *.
    rewrite app_assoc in *.
    rewrite set_property_last.
    + now apply IH.
    + rewrite map_app in H. now apply keys_ok_app_l in H.
Qed.

Lemma build_object_ordered (members : list (string * json)) :
  keys_ok (map fst members) = true -> build_object members = members.
Proof.
  intros H. unfold build_object. now rewrite fold_set_property.
Qed.

(** ** Values *)

Lemma number_head (c : ascii) :
  is_digit c = true \/ c = "-"%char ->
  is_space c = false /\ Ascii.eqb c "n" = false /\ Ascii.eqb c "t" = false
  /\ Ascii.eqb c "f" = false /\ Ascii.eqb c dquote = false
  /\ Ascii.eqb c "[" = false /\ Ascii.eqb c "{" = false
  /\ Ascii.eqb c "]" = false /\ Ascii.eqb c "}" = false.
Proof.
  destruct c as [[] [] [] [] [] [] [] []]; intros [H|H]; try discriminate H;
    repeat split; reflexivity.
Qed.

Section Reading.

Variable canon : string -> string.

Lemma stringify_number (text : string) :
  number_ok canon text = true -> stringify (JNum text) = text.
Proof.
  intros H. cbn [stringify]. now rewrite (number_ok_finite canon text H).
Qed.

Lemma stringify_head (v : json) :
  well_formed canon v = true ->
  exists c t, stringify v = String c t /\ value_head c.
Proof.
  destruct v as [| [] | text | s | items | members];
    try (intros _; simpl; eexists _, _; split; [reflexivity | repeat split; reflexivity]).
  cbn [well_formed]. intros Hok. rewrite (stringify_number text Hok).
  destruct (number_ok_token canon text Hok) as [Htoken _].
  destruct (number_token_head _ _ _ Htoken) as (c & t & -> & Hc).
  exists c, t. split; [reflexivity|].
  destruct (number_head c Hc) as (? & _ & _ & _ & _ & _ & _ & ? & ?). repeat split; assumption.
Qed.

Lemma skip_ws_head (c : ascii) (t : string) :
  is_space c = false -> skip_ws (String c t) = String c t.
Proof.
  intros H. simpl. now rewrite H.
Qed.

Lemma parse_value_number (fuel : nat) (text rest : string) :
  number_ok canon text = true ->
  delimited rest = true ->
  parse_value canon (S fuel) (text +:+ rest) = Some (JNum text, rest).
Proof.
  intros Hok Hrest. pose proof (parse_number_roundtrip canon text rest Hok Hrest) as Hnum.
  destruct (number_ok_token canon text Hok) as [Htoken _].
  destruct (number_token_head _ _ _ Htoken) as (c & t & Hz & Hc). rewrite Hz in *.
  destruct (number_head c Hc) as (Hs & Hn & Ht & Hf & Hq & Hb & Hc' & _).
  change (String c t +:+ rest) with (String c (t +:+ rest)) in *.
  cbn [parse_value]. rewrite (skip_ws_head _ _ Hs), Hn, Ht, Hf, Hq, Hb, Hc', Hnum.
  reflexivity.
Qed.

Lemma parse_value_string (fuel : nat) (s' : string) :
  parse_value canon (S fuel) (String dquote s') =
  match parse_chars s' with
  | Some (t, r) => Some (JStr t, r)
  | None => None
  end.
Proof. reflexivity. Qed.

Lemma parse_value_array (fuel : nat) (c : ascii) (t : string) :
  value_head c ->
  parse_value canon (S fuel) (String "[" (String c t)) =
  match parse_elements canon fuel (String c t) with
  | Some (items, r) => Some (JArr items, r)
  | None => None
  end.
Proof.
  intros (Hs & Hb & _).
  change (parse_value canon (S fuel) (String "[" (String c t))) with
    (match skip_ws (String c t) with
     | String c1 s1 =>
         if Ascii.eqb c1 "]" then Some (JArr [], s1)
         else
           match parse_elements canon fuel (String c t) with
           | Some (items, r) => Some (JArr items, r)
           | None => None
           end
     | EmptyString => None
     end).
  now rewrite (skip_ws_head _ _ Hs), Hb.
Qed.

Lemma parse_value_object (fuel : nat) (t : string) :
  parse_value canon (S fuel) (String "{" (String dquote t)) =
  match parse_members canon fuel (String dquote t) with
  | Some (pairs, r) => Some (JObj (build_object pairs), r)
  | None => None
  end.
Proof. reflexivity. Qed.

Lemma parse_elements_step (fuel : nat) (s : string) :
  parse_elements canon (S fuel) s =
  match parse_value canon fuel s with
  | Some (v, r) =>
      match skip_ws r with
      | String c r' =>
          if Ascii.eqb c "," then
            match parse_elements canon fuel r' with
            | Some (vs, r'') => Some (v :: vs, r'')
            | None => None
            end
          else if Ascii.eqb c "]" then Some ([v], r')
          else None
      | EmptyString => None
      end
  | None => None
  end.
Proof. reflexivity. Qed.

Lemma parse_members_step (fuel : nat) (s1 : string) :
  parse_members canon (S fuel) (String dquote s1) =
  match parse_chars s1 with
  | Some (k, r1) =>
      match skip_ws r1 with
      | String colon r2 =>
          if Ascii.eqb colon ":" then
            match parse_value canon fuel r2 with
            | Some (v, r3) =>
                match skip_ws r3 with
                | String c r4 =>
                    if Ascii.eqb c "," then
                      match parse_members canon fuel r4 with
                      | Some (ps, r5) => Some ((k, v) :: ps, r5)
                      | None => None
                      end
                    else if Ascii.eqb c "}" then Some ([(k, v)], r4)
                    else None
                | EmptyString => None
                end
            | None => None
            end
          else None
      | EmptyString => None
      end
  | None => None
  end.
Proof. reflexivity. Qed.

Lemma parse_elements_stringify (items : list json) :
  items <> [] ->
  Forall (roundtrips canon) items ->
  forall fuel rest,
    (list_sum (map (fun x => S (json_size x)) items) <= fuel)%nat ->
    parse_elements canon fuel (String.concat "," (map stringify items) +:+ String "]" rest)
    = Some (items, rest).
Proof.
  induction items as [|x items IH]; [congruence|].
  intros _ Hall fuel rest Hfuel.
  inversion Hall as [|? ? Hx Hitems]; subst.
  destruct fuel as [|fuel]; [simpl in Hfuel; lia|].
  simpl in Hfuel. rewrite parse_elements_step.
  destruct items as [|y items].
  - simpl. rewrite Hx by (simpl; try lia; reflexivity). reflexivity.
  - change (String.concat "," (map stringify (x :: y :: items)))
      with (stringify x +:+ "," +:+ String.concat "," (map stringify (y :: items))).
    rewrite !append_assoc.
    rewrite Hx by (try reflexivity; lia).
    change ("," +:+ String.concat "," (map stringify (y :: items)) +:+ String "]" rest)
      with (String "," (String.concat "," (map stringify (y :: items)) +:+ String "]" rest)).
    rewrite skip_ws_head by reflexivity. rewrite Ascii.eqb_refl.
    rewrite IH; [reflexivity | congruence | assumption |].
    simpl in *. lia.
Qed.

Lemma member_text_shape (kv : string * json) (rest : string) :
  member_text kv +:+ rest =
  String dquote (escape (fst kv) +:+ String dquote (String ":" (stringify (snd kv) +:+ rest))).
Proof.
  unfold member_text, quote. simpl. now rewrite !append_assoc.
Qed.

Lemma parse_member (fuel : nat) (kv : string * json) (rest : string) :
  surrogate_free (fst kv) = true ->
  roundtrips canon (snd kv) ->
  (json_size (snd kv) <= fuel)%nat ->
  delimited rest = true ->
  parse_members canon (S fuel) (member_text kv +:+ rest) =
  match rest with
  | String c r4 =>
      if Ascii.eqb c "," then
        match parse_members canon fuel r4 with
        | Some (ps, r5) => Some ((fst kv, snd kv) :: ps, r5)
        | None => None
        end
      else if Ascii.eqb c "}" then Some ([(fst kv, snd kv)], r4)
      else None
  | EmptyString => None
  end.
Proof.
  intros Hkey Hv Hfuel Hrest.
  rewrite member_text_shape, parse_members_step, (parse_chars_escape _ _ Hkey).
  rewrite skip_ws_head by reflexivity. rewrite Ascii.eqb_refl.
  rewrite (Hv fuel rest Hfuel Hrest), (delimited_skip_ws _ Hrest). reflexivity.
Qed.

Lemma parse_members_stringify (members : list (string * json)) :
  members <> [] ->
  Forall (fun kv => surrogate_free (fst kv) = true /\ roundtrips canon (snd kv)) members ->
  forall fuel rest,
    (list_sum (map (fun kv => S (json_size (snd kv))) members) <= fuel)%nat ->
    parse_members canon fuel (String.concat "," (map member_text members) +:+ String "}" rest)
    = Some (members, rest).
Proof.
  induction members as [|kv members IH]; [congruence|].
  intros _ Hall fuel rest Hfuel.
  inversion Hall as [|? ? [Hkey Hx] Hmembers]; subst.
  destruct fuel as [|fuel]; [simpl in Hfuel; lia|].
  simpl in Hfuel.
  destruct members as [|kv' members].
  - cbn [map String.concat]. rewrite parse_member; [| assumption | assumption | lia | reflexivity].
    rewrite Ascii.eqb_refl. simpl. now destruct kv.
  - change (String.concat "," (map member_text (kv :: kv' :: members)))
      with (member_text kv +:+ "," +:+ String.concat "," (map member_text (kv' :: members))).
    rewrite !append_assoc.
    rewrite parse_member; [| assumption | assumption | lia | reflexivity].
    change ("," +:+ ?x) with (String "," x). cbv iota beta. rewrite Ascii.eqb_refl.
    rewrite IH; [now destruct kv | congruence | assumption |].
    simpl in *. lia.
Qed.

Lemma concat_head {A} (f : A -> string) (x : A) (xs : list A) (rest : string) c t :
  f x = String c t ->
  exists t', String.concat "," (map f (x :: xs)) +:+ rest = String c t'.
Proof.
  intros H. destruct xs as [|y xs]; simpl map; cbn [String.concat]; rewrite H; simpl; eauto.
Qed.

Lemma parse_value_stringify (v : json) : well_formed canon v = true -> roundtrips canon v.
Proof.
  induction v as [| b | text | s | items IH | members IH] using json_nested_ind;
    intros Hwf fuel rest Hfuel Hrest;
    (destruct fuel as [|fuel]; [simpl in Hfuel; lia|]).
  - reflexivity.
  - destruct b; reflexivity.
  - cbn [well_formed] in Hwf. rewrite (stringify_number text Hwf).
    now apply parse_value_number.
  - cbn [well_formed] in Hwf.
    change (stringify (JStr s) +:+ rest)
      with (String dquote ((escape s +:+ String dquote "") +:+ rest)).
    rewrite append_assoc. change (String dquote "" +:+ rest) with (String dquote rest).
    now rewrite parse_value_string, (parse_chars_escape _ _ Hwf).
  - simpl in Hwf.
    assert (Forall (roundtrips canon) items) as Hall.
    { rewrite forallb_forall in Hwf. rewrite Forall_forall in *.
      intros x Hx. apply IH; [assumption|]. apply Hwf. now apply list_elem_of_In. }
    destruct items as [|x items]; [reflexivity|].
    change (stringify (JArr (x :: items)) +:+ rest)
      with (String "[" ((String.concat "," (map stringify (x :: items)) +:+ String "]" EmptyString) +:+ rest)).
    rewrite append_assoc. simpl (String "]" EmptyString +:+ rest).
    destruct (stringify_head x) as (c & t & Hc & Hhead).
    { apply andb_true_iff in Hwf. apply Hwf. }
    destruct (concat_head stringify x items (String "]" rest) c t Hc) as (t' & Ht').
    rewrite Ht', (parse_value_array _ _ _ Hhead), <- Ht'.
    rewrite parse_elements_stringify; [reflexivity | congruence | assumption |].
    simpl in Hfuel. simpl. lia.
  - simpl in Hwf. apply andb_true_iff in Hwf as [Hkeys Hwf].
    assert (Forall (fun kv => surrogate_free (fst kv) = true /\ roundtrips canon (snd kv))
              members) as Hall.
    { rewrite forallb_forall in Hwf. rewrite Forall_forall in *.
      intros x Hx. specialize (Hwf x (proj1 (list_elem_of_In _ _) Hx)).
      apply andb_true_iff in Hwf as [Hkey Hval]. split; [assumption|].
      apply IH; assumption. }
    destruct members as [|kv members]; [reflexivity|].
    change (stringify (JObj (kv :: members)) +:+ rest)
      with (String "{" ((String.concat "," (map member_text (kv :: members)) +:+ String "}" EmptyString) +:+ rest)).
    rewrite append_assoc. simpl (String "}" EmptyString +:+ rest).
    destruct (concat_head member_text kv members (String "}" rest) dquote
                (escape (fst kv) +:+ String dquote (String ":" (stringify (snd kv)))))
      as (t' & Ht').
    { unfold member_text, quote.
      change (String dquote (escape (fst kv) +:+ String dquote "") +:+ ":" +:+ stringify (snd kv))
        with (String dquote ((escape (fst kv) +:+ String dquote "") +:+ String ":" (stringify (snd kv)))).
      now rewrite append_assoc. }
    rewrite Ht', parse_value_object, <- Ht'.
    rewrite parse_members_stringify; [| congruence | assumption |].
    + now rewrite build_object_ordered.
    + simpl in Hfuel. simpl. lia.
Qed.

Lemma json_size_length (v : json) :
  well_formed canon v = true -> (json_size v <= String.length (stringify v))%nat.
Proof.
  induction v as [| b | text | s | items IH | members IH] using json_nested_ind; intros Hwf.
  - simpl. lia.
  - destruct b; simpl; lia.
  - destruct (stringify_head (JNum text) Hwf) as (c & t & -> & _). simpl. lia.
  - simpl. lia.
  - change (stringify (JArr items))
      with ("[" +:+ String.concat "," (map stringify items) +:+ "]").
    rewrite !length_append. cbn [json_size String.length].
    enough (list_sum (map (fun x => S (json_size x)) items)
            <= S (String.length (String.concat "," (map stringify items))))%nat by lia.
    cbn [well_formed] in Hwf.
    induction IH as [|x items Hx _ IHitems]; [simpl; lia|].
    cbn [forallb] in Hwf. apply andb_true_iff in Hwf as [Hwx Hwitems].
    specialize (Hx Hwx). specialize (IHitems Hwitems).
    destruct items as [|y items]; [simpl in *; lia|].
    change (String.concat "," (map stringify (x :: y :: items)))
      with (stringify x +:+ "," +:+ String.concat "," (map stringify (y :: items))).
    rewrite !length_append. simpl in *. lia.
  - change (stringify (JObj members))
      with ("{" +:+ String.concat "," (map member_text members) +:+ "}").
    rewrite !length_append. cbn [json_size String.length].
    enough (list_sum (map (fun kv => S (json_size (snd kv))) members)
            <= S (String.length (String.concat "," (map member_text members))))%nat by lia.
    assert (forall kv : string * json,
               (String.length (stringify (snd kv)) <= String.length (member_text kv))%nat)
      as Hmem.
    { intros kv. unfold member_text. rewrite !length_append. lia. }
    cbn [well_formed] in Hwf. apply andb_true_iff in Hwf as [_ Hwf].
    induction IH as [|x members Hx _ IHmembers]; [simpl; lia|].
    cbn [forallb] in Hwf. apply andb_true_iff in Hwf as [Hwx Hwmembers].
    apply andb_true_iff in Hwx as [_ Hwx].
    specialize (Hx Hwx). specialize (IHmembers Hwmembers).
    specialize (Hmem x).
    destruct members as [|y members]; [simpl in *; lia|].
    change (String.concat "," (map member_text (x :: y :: members)))
      with (member_text x +:+ "," +:+ String.concat "," (map member_text (y :: members))).
    rewrite !length_append. simpl in *. lia.
Qed.

(** [JSON.parse(JSON.stringify(v))] gives [v] back. *)
Theorem parse_stringify (v : json) :
  well_formed canon v = true -> parse canon (stringify v) = Some v.
Proof.
  intros Hwf. unfold parse.
  rewrite <- (append_nil_r (stringify v)) at 2.
  rewrite (parse_value_stringify v Hwf); [reflexivity | | reflexivity].
  pose proof (json_size_length v Hwf). lia.
Qed.

End Reading.

(** ** The escaping of the JSON writer *)

Lemma html_escape_length (s : string) :
  String.length (html_escape s) = (String.length s + 5 * count_markup s)%nat.
Proof.
  induction s as [|c s IH]; [reflexivity|].
  cbn [html_escape count_markup String.length]. rewrite length_append, IH.
  unfold html_escape_char, is_markup.
  destruct (Ascii.eqb c "<"); [simpl; lia|].
  destruct (Ascii.eqb c ">"); [simpl; lia|].
  destruct (Ascii.eqb c "&"); simpl; lia.
Qed.

Lemma html_escape_plain (s : string) :
  count_markup s = 0%nat -> html_escape s = s.
Proof.
  induction s as [|c s IH]; [reflexivity|].
  cbn [html_escape count_markup]. unfold html_escape_char, is_markup.
  destruct (Ascii.eqb c "<"); [discriminate|].
  destruct (Ascii.eqb c ">"); [discriminate|].
  destruct (Ascii.eqb c "&"); [discriminate|].
  cbn [orb]. intros H. rewrite (IH H). reflexivity.
Qed.

(** The escaped text is the text itself exactly when the text holds none of
    the three characters. *)
Lemma html_escape_same (s : string) :
  html_escape s = s <-> count_markup s = 0%nat.
Proof.
  split; [|apply html_escape_plain].
  intros H. pose proof (html_escape_length s) as Hlen. rewrite H in Hlen. lia.
Qed.

End JsonFacts.

(* ===================================================================== *)
(** * Properties of the preflight middleware *)
(* ===================================================================== *)

Module DavFacts.
Import Js Express Dav Measures.

(** ** What the CORS headers leave alone *)

Lemma apply_header_other (key value : string) (res : Response) (name : string) :
  lower key <> name ->
  res_headers (apply_header key value res) !! name = res_headers res !! name.
Proof.
  intros Hne. unfold apply_header. destruct (String.eqb value ""); [reflexivity|].
  cbn [setHeader res_headers]. now rewrite lookup_insert_ne.
Qed.

Lemma apply_header_state (key value : string) (res : Response) :
  statusCode (apply_header key value res) = statusCode res
  /\ sent (apply_header key value res) = sent res.
Proof.
  unfold apply_header. destruct (String.eqb value ""); split; reflexivity.
Qed.

Lemma vary_other (vary_append : string -> string -> string) (field : string)
    (res : Response) (name : string) :
  name <> "vary" ->
  res_headers (vary vary_append field res) !! name = res_headers res !! name.
Proof.
  intros Hne. unfold vary. destruct (String.eqb _ ""); [reflexivity|].
  cbn [setHeader res_headers]. rewrite lookup_insert_ne; [reflexivity|].
  intros Heq. apply Hne. rewrite <- Heq. reflexivity.
Qed.

Lemma vary_state (vary_append : string -> string -> string) (field : string)
    (res : Response) :
  statusCode (vary vary_append field res) = statusCode res
  /\ sent (vary vary_append field res) = sent res.
Proof.
  unfold vary. destruct (String.eqb _ ""); split; reflexivity.
Qed.

Lemma setHeader_other (key value : string) (res : Response) (name : string) :
  lower key <> name ->
  res_headers (setHeader key value res) !! name = res_headers res !! name.
Proof.
  intros Hne. cbn [setHeader res_headers]. now rewrite lookup_insert_ne.
Qed.

Ltac other_name :=
  let Heq := fresh "Heq" in intros Heq; vm_compute in Heq; congruence.

Ltac other_header :=
  repeat first
    [ rewrite setHeader_other by other_name
    | rewrite apply_header_other by other_name
    | rewrite vary_other by congruence ].

(** The answer of the CORS middleware to a preflight. *)
Lemma cors_answers_preflight (vary_append : string -> string -> string)
    (options : CorsOptions) (req : Request) (res : Response) :
  upper (method req) = "OPTIONS" ->
  origin options <> "" ->
  valid_status (optionsSuccessStatus options) = true ->
  exists res',
    cors vary_append options req res = Done res'
    /\ statusCode res' = optionsSuccessStatus options
    /\ sent res' = Some PayloadNone
    /\ res_headers res' !! "content-length" = Some "0"
    /\ (methods options <> "" ->
        res_headers res' !! "access-control-allow-methods" = Some (methods options))
    /\ (forall name, ~ In name cors_headers ->
          res_headers res' !! name = res_headers res !! name).
Proof.
  intros Hmethod Horigin Hstatus. unfold cors, respond.
  apply String.eqb_neq in Horigin. rewrite Horigin, Hmethod. cbn [String.eqb Ascii.eqb].
  change (String.eqb "OPTIONS" "OPTIONS") with true. cbv iota.
  cbn [statusCode setHeader status]. rewrite Hstatus.
  eexists. split; [reflexivity|]. cbn [finish statusCode sent res_headers].
  split; [reflexivity|]. split; [reflexivity|]. split; [apply lookup_insert_eq|]. split.
  - intros Hmethods. rewrite setHeader_other by other_name.
    cbn [status res_headers].
    unfold configureExposedHeaders, configureMaxAge, configureAllowedHeaders.
    other_header. unfold configureMethods, apply_header.
    apply String.eqb_neq in Hmethods. rewrite Hmethods.
    cbn [setHeader res_headers]. apply lookup_insert_eq.
  - intros name Hname.
    assert (Hne : name <> "access-control-allow-origin" /\ name <> "vary"
                  /\ name <> "access-control-allow-credentials"
                  /\ name <> "access-control-allow-methods"
                  /\ name <> "access-control-allow-headers"
                  /\ name <> "access-control-max-age"
                  /\ name <> "access-control-expose-headers"
                  /\ name <> "content-length").
    { unfold cors_headers in Hname. cbn [In] in Hname.
      repeat split; intros ->; apply Hname; tauto. }
    destruct Hne as (H1 & H2 & H3 & H4 & H5 & H6 & H7 & H8).
    rewrite setHeader_other by other_name. cbn [status res_headers].
    unfold configureExposedHeaders, configureMaxAge, configureAllowedHeaders,
      configureMethods, configureCredentials, configureOrigin.
    other_header.
    destruct (credentials options); other_header;
      destruct (String.eqb (origin options) "*"); other_header; reflexivity.
Qed.

(** C6.  With an origin configured, every request whose method is OPTIONS is
    answered by the CORS middleware, the first of the basic middlewares,
    which ends the response: status 204, no body, [Content-Length: 0] and
    the CORS headers.  The protocol middleware registered after it is not
    reached, so the answer to a preflight under [/dav] carries no [Allow],
    [DAV] or [MS-Author-Via] header of the server: these three are as they
    were before the request came in. *)
Theorem preflight_is_answered_by_cors :
  forall (vary_append : string -> string -> string)
         (methodOverride : Request -> Response -> Request * Response)
         (cfg : WebDAVConfig) (req : Request) (res : Response),
    method req = "OPTIONS" ->
    ALLOW_ORIGIN cfg <> "" ->
    exists res',
      basic_middlewares vary_append methodOverride cfg req res = Done res'
      /\ statusCode res' = 204
      /\ sent res' = Some PayloadNone
      /\ res_headers res' !! "content-length" = Some "0"
      /\ (supported_methods cfg <> "" ->
          res_headers res' !! "access-control-allow-methods" = Some (supported_methods cfg))
      /\ res_headers res' !! "allow" = res_headers res !! "allow"
      /\ res_headers res' !! "dav" = res_headers res !! "dav"
      /\ res_headers res' !! "ms-author-via" = res_headers res !! "ms-author-via".
Proof.
  intros vary_append methodOverride cfg req res Hmethod Horigin.
  destruct (cors_answers_preflight vary_append (corsOptions cfg) req res)
    as (res' & Hcors & Hstatus & Hsent & Hlength & Hmethods & Hother).
  - rewrite Hmethod. reflexivity.
  - exact Horigin.
  - reflexivity.
  - exists res'. unfold basic_middlewares. rewrite Hcors.
    split; [reflexivity|]. split; [exact Hstatus|]. split; [exact Hsent|].
    split; [exact Hlength|]. split; [exact Hmethods|].
    repeat split; apply Hother; unfold cors_headers; cbn [In];
      intros Hin; repeat destruct Hin as [Hin|Hin]; try discriminate Hin; exact Hin.
Qed.

Lemma preflight_is_answered_by_cors_witness :
  exists res',
    basic_middlewares sample_vary_append (fun req res => (req, res)) sample_config
      sample_preflight fresh_response = Done res'
    /\ statusCode res' = 204
    /\ res_headers res' !! "allow" = None
    /\ res_headers res' !! "dav" = None.
Proof.
  destruct (preflight_is_answered_by_cors sample_vary_append (fun req res => (req, res))
              sample_config sample_preflight fresh_response eq_refl)
    as (res' & Hdone & Hstatus & _ & _ & _ & Hallow & Hdav & _); [discriminate|].
  exists res'. repeat split; assumption.
Defined.

(** The preflight of the sample, through the basic middlewares and through
    the protocol middleware alone: the answer the client gets has the
    status 204 and the CORS headers, and none of the three headers the
    protocol middleware would have set. *)
Lemma preflight_carries_no_protocol_headers :
  exists res' res'',
    basic_middlewares sample_vary_append (fun req res => (req, res)) sample_config
      sample_preflight fresh_response = Done res'
    /\ statusCode res' = 204
    /\ res_headers res' !! "access-control-allow-methods"
       = Some (supported_methods sample_config)
    /\ res_headers res' !! "allow" = None
    /\ res_headers res' !! "dav" = None
    /\ res_headers res' !! "ms-author-via" = None
    /\ dav_middleware sample_config sample_preflight fresh_response = Done res''
    /\ res_headers res'' !! "allow" = Some (supported_methods sample_config)
    /\ res_headers res'' !! "dav" = Some "1, 2"
    /\ res_headers res'' !! "ms-author-via" = Some "DAV".
Proof.
  eexists _, _. split; [reflexivity|]. split; [reflexivity|].
  split; [vm_compute; reflexivity|]. split; [vm_compute; reflexivity|].
  split; [vm_compute; reflexivity|]. split; [vm_compute; reflexivity|].
  split; [reflexivity|]. repeat split; vm_compute; reflexivity.
Qed.

End DavFacts.

(* ===================================================================== *)
(** * Properties of the bridge *)
(* ===================================================================== *)

Module BridgeFacts.
Import Js Logging Json Express Bridge.

Lemma parsed_body_truthy (x : JsVal) : parsed_body x = true -> truthy x = true.
Proof.
  destruct x as [| bytes | []]; try discriminate; reflexivity.
Qed.

Lemma copy_headers_state (from : gmap string string) (res : Response) :
  statusCode (copy_headers from res) = statusCode res
  /\ sent (copy_headers from res) = sent res.
Proof.
  unfold copy_headers. generalize (map_to_list from).
  intros l. induction l as [|kv l IH]; simpl; [split; reflexivity | exact IH].
Qed.

Lemma respond_valid (p : Payload) (res : Response) :
  valid_status (statusCode res) = true -> respond p res = (Return tt, finish p res).
Proof.
  intros H. unfold respond. now rewrite H.
Qed.

Lemma respond_refused (p : Payload) (res : Response) :
  valid_status (statusCode res) = false ->
  respond p res = (Throw (range_error (statusCode res)), res).
Proof.
  intros H. unfold respond. now rewrite H.
Qed.

Section RequestFacts.

Variable lvl : option Z.
Variable existsSync : string -> bool.
Variable form_urlencode : JsVal -> string.
Variable runtime : Runtime.

Ltac run_m :=
  unfold bind, ret, throw, Bridge.log; cbn [fst snd].

Lemma body_from_upload_returns (req : Request) (console : list LogEntry) :
  exists found console',
    body_from_upload lvl existsSync req console = (Return found, console').
Proof.
  unfold body_from_upload.
  destruct (includes (header req "content-type") "multipart/form-data").
  - destruct (spooled_file existsSync req), (rawBody req); run_m; eauto.
  - destruct (startsWith (path req) "/dav"); [|run_m; eauto].
    destruct (_ && _); run_m; eauto.
Qed.

(** Outside the multipart branch nothing is found in the first part. *)
Lemma body_from_upload_plain (req : Request) (console : list LogEntry) :
  includes (header req "content-type") "multipart/form-data" = false ->
  exists contentType console',
    body_from_upload lvl existsSync req console = (Return (None, contentType), console')
    /\ (method req <> "MKCOL" -> contentType = header req "content-type").
Proof.
  intros Hct. unfold body_from_upload. rewrite Hct.
  destruct (startsWith (path req) "/dav"); [|run_m; eauto].
  destruct (String.eqb (header req "content-type") "") eqn:Hempty; cbn [andb];
    [|run_m; eauto].
  destruct (String.eqb_spec (method req) "MKCOL") as [Hm|Hm]; run_m.
  - eexists _, _. split; [reflexivity|]. congruence.
  - eauto.
Qed.

(** The first part never yields a text body: a file stream, the raw bytes,
    or nothing. *)
Lemma body_from_upload_kind (req : Request) (console : list LogEntry) found console' :
  body_from_upload lvl existsSync req console = (Return found, console') ->
  forall text, fst found <> Some (BodyText text).
Proof.
  unfold body_from_upload.
  destruct (includes (header req "content-type") "multipart/form-data").
  - destruct (spooled_file existsSync req), (rawBody req); run_m;
      intros [= <- _] text; discriminate.
  - destruct (startsWith (path req) "/dav"); [|run_m; intros [= <- _] text; discriminate].
    destruct (_ && _); run_m; intros [= <- _] text; discriminate.
Qed.

Lemma JSON_stringify_defined (x : JsVal) :
  x <> Undefined -> exists text, JSON_stringify x = Some text.
Proof.
  destruct x; [congruence | |]; intros _; unfold JSON_stringify; simpl; eauto.
Qed.

Lemma body_by_content_type_truthy (req : Request) (contentType : string) :
  truthy (body req) = true ->
  exists b, body_by_content_type form_urlencode req contentType = Some b.
Proof.
  intros Htruthy. unfold body_by_content_type. cbv zeta.
  destruct (body req) as [| bytes | v] eqn:Hbody; [discriminate | |]; rewrite Htruthy.
  - repeat match goal with
           | |- context [if ?c then _ else _] => destruct c eqn:?
           end; simpl; eauto; discriminate.
  - assert (exists text, JSON_stringify (Value v) = Some text) as [text Htext]
      by (apply JSON_stringify_defined; discriminate).
    change (is_buffer (Value v)) with false. rewrite andb_false_r.
    repeat match goal with
           | |- context [if ?c then _ else _] => destruct c eqn:?
           end; rewrite ?Htext; simpl; eauto; try discriminate.
    destruct v; eauto.
Qed.

Lemma body_for_mkcol_truthy (req : Request) found contentType console :
  truthy (body req) = true ->
  exists console',
    body_for_mkcol lvl req found contentType console = (Return (Some (BodyText "")), console').
Proof.
  intros Htruthy. unfold body_for_mkcol. rewrite Htruthy. run_m.
  destruct (body req) as [| bytes | v]; run_m; eauto.
  destruct (_ <? _)%nat; run_m; eauto.
Qed.

Lemma select_body_returns (req : Request) (console : list LogEntry) :
  exists chosen console',
    select_body lvl existsSync form_urlencode req console = (Return chosen, console')
    /\ (may_carry_body (method req) = false -> chosen = None)
    /\ (may_carry_body (method req) = true -> truthy (body req) = true -> chosen <> None)
    /\ (method req = "MKCOL" -> truthy (body req) = true -> chosen = Some (BodyText ""))
    /\ (method req = "MKCOL" -> truthy (body req) = false ->
        forall text, chosen <> Some (BodyText text)).
Proof.
  unfold select_body.
  destruct (may_carry_body (method req)) eqn:Hcarry.
  - destruct (body_from_upload_returns req console) as ([found ct] & console1 & Hfound).
    pose proof (body_from_upload_kind req console _ _ Hfound) as Hkind.
    unfold bind at 1. rewrite Hfound. cbn [fst snd] in *.
    destruct (String.eqb_spec (method req) "MKCOL") as [Hm|Hm].
    + destruct (truthy (body req)) eqn:Htruthy.
      * destruct (body_for_mkcol_truthy req found ct console1 Htruthy) as (console' & Hmk).
        rewrite Hmk. eexists _, _. split; [reflexivity|].
        repeat split; intros; congruence.
      * unfold body_for_mkcol. rewrite Htruthy. run_m.
        eexists _, _. split; [reflexivity|].
        repeat split; first [intros _ _; exact Hkind | intros; congruence].
    + destruct found as [b|]; run_m.
      * eexists _, _. split; [reflexivity|]. repeat split; intros; congruence.
      * eexists _, _. split; [reflexivity|]. repeat split; try congruence.
        intros _ Htruthy.
        destruct (body_by_content_type_truthy req ct Htruthy) as (b & ->). discriminate.
  - run_m. eexists _, _. split; [reflexivity|].
    repeat split; try (intros; congruence);
      intros Hm; rewrite Hm in Hcarry; discriminate.
Qed.

(** The course of [createAdaptedRequest]: the URL is built, the body is
    chosen, the request is built; each constructor may throw instead. *)
Lemma createAdaptedRequest_cases (req : Request) (console : list LogEntry) :
  exists console1 chosen console2,
    select_body lvl existsSync form_urlencode req console1 = (Return chosen, console2)
    /\ createAdaptedRequest lvl existsSync form_urlencode runtime req console =
       match URL_error runtime (request_url req) with
       | Some error => (Throw error, console1)
       | None =>
           match Request_error runtime (method req) (headers req) chosen with
           | Some error => (Throw error, console2)
           | None => (Return (request_init req chosen), console2)
           end
       end.
Proof.
  unfold createAdaptedRequest.
  set (console1 :=
         snd ((if includes (path req) "/api/file-"
               then Bridge.log lvl LvDebug
                      ("协议检测 - Path: " +:+ path req +:+ ", X-Forwarded-Proto: "
                         +:+ match headers req !! "x-forwarded-proto" with
                             | Some p => p
                             | None => "undefined"
                             end
                         +:+ ", 最终协议: " +:+ request_protocol req) []
               else ret tt) console)).
  destruct (select_body_returns req console1) as (chosen & console2 & Hsel & _).
  exists console1, chosen, console2. split; [exact Hsel|].
  subst console1.
  destruct (includes (path req) "/api/file-"); run_m;
    (destruct (URL_error runtime (request_url req)); [reflexivity|]);
    cbn [snd] in Hsel; unfold Bridge.log, ret in Hsel; cbn [snd] in Hsel;
    rewrite Hsel;
    destruct (Request_error runtime (method req) (headers req) chosen); reflexivity.
Qed.

(** A canonical request that was returned is the [requestInit] of the body
    [select_body] chose, with the duplex option set exactly when there is a
    body. *)
Lemma createAdaptedRequest_returned (req : Request) (console : list LogEntry) creq console' :
  createAdaptedRequest lvl existsSync form_urlencode runtime req console
  = (Return creq, console') ->
  exists console1,
    select_body lvl existsSync form_urlencode req console1 = (Return (cr_body creq), console')
    /\ creq = request_init req (cr_body creq)
    /\ URL_error runtime (request_url req) = None
    /\ Request_error runtime (method req) (headers req) (cr_body creq) = None.
Proof.
  destruct (createAdaptedRequest_cases req console)
    as (console1 & chosen & console2 & Hsel & ->).
  destruct (URL_error runtime (request_url req)); [discriminate|].
  destruct (Request_error runtime (method req) (headers req) chosen) eqn:Haccepted;
    [discriminate|].
  intros [= <- <-]. exists console1. cbn [request_init cr_body]. repeat split; assumption.
Qed.

(** When both constructors accept their arguments a canonical request is
    returned. *)
Lemma createAdaptedRequest_accepted (req : Request) (console : list LogEntry) :
  URL_error runtime (request_url req) = None ->
  (forall chosen, Request_error runtime (method req) (headers req) chosen = None) ->
  exists creq console',
    createAdaptedRequest lvl existsSync form_urlencode runtime req console
    = (Return creq, console').
Proof.
  intros Hurl Hreq.
  destruct (createAdaptedRequest_cases req console)
    as (console1 & chosen & console2 & _ & ->).
  rewrite Hurl, Hreq. eauto.
Qed.

(** A TRACE request: [new Request] refuses the method and no canonical
    request is made. *)
Lemma trace_request_is_refused :
  fst (createAdaptedRequest (Some 2) (fun _ => false) (fun _ => "") sample_runtime
         (bridge_request "TRACE" "/api/paste/x" "" (Value (JObj []))) [])
  = Throw (type_error "'TRACE' HTTP method is unsupported.").
Proof.
  vm_compute. reflexivity.
Qed.

Lemma select_body_json (req : Request) (v : json) (console : list LogEntry) :
  body req = Value v ->
  is_object (Value v) = true ->
  truthy (Value v) = true ->
  may_carry_body (method req) = true ->
  method req <> "MKCOL" ->
  includes (header req "content-type") "json" = true ->
  includes (header req "content-type") "multipart/form-data" = false ->
  exists console',
    select_body lvl existsSync form_urlencode req console
    = (Return (Some (BodyText (stringify v))), console').
Proof.
  intros Hbody Hobj Htruthy Hcarry Hm Hjson Hmulti.
  unfold select_body. rewrite Hcarry.
  destruct (body_from_upload_plain req console Hmulti) as (ct & console' & Hfound & Hct).
  unfold bind. rewrite Hfound. cbn [fst snd].
  destruct (String.eqb_spec (method req) "MKCOL") as [|_]; [contradiction|].
  rewrite (Hct Hm). unfold body_by_content_type. cbv zeta.
  rewrite Hbody, Hjson, Hobj, Htruthy, orb_true_r. cbn [andb].
  exists console'. reflexivity.
Qed.

End RequestFacts.



(** C2.  For a collection-create request, whatever body the parsers left on
    it (an object, an empty one included, or a Buffer of any size), the
    canonical request that [createAdaptedRequest] returns carries a body,
    and that body is the empty string, with the duplex option set.  A
    canonical request is returned whenever the constructors [URL] and
    [Request] accept their arguments. *)
Theorem mkcol_body_is_the_empty_string :
  forall (lvl : option Z) (existsSync : string -> bool) (form_urlencode : JsVal -> string)
         (runtime : Runtime) (req : Request) (console : list LogEntry),
    method req = "MKCOL" ->
    parsed_body (body req) = true ->
    (forall creq console',
        createAdaptedRequest lvl existsSync form_urlencode runtime req console
        = (Return creq, console') ->
        cr_method creq = "MKCOL"
        /\ cr_body creq = Some (BodyText "")
        /\ cr_duplex creq = Some "half")
    /\ (URL_error runtime (request_url req) = None ->
        Request_error runtime "MKCOL" (headers req) (Some (BodyText "")) = None ->
        exists creq console',
          createAdaptedRequest lvl existsSync form_urlencode runtime req console
          = (Return creq, console')
          /\ cr_body creq = Some (BodyText "")).
Proof.
  intros lvl existsSync form_urlencode runtime req console Hm Hparsed.
  pose proof (parsed_body_truthy _ Hparsed) as Htruthy.
  destruct (createAdaptedRequest_cases lvl existsSync form_urlencode runtime req console)
    as (console1 & chosen & console2 & Hsel & Hcases).
  destruct (select_body_returns lvl existsSync form_urlencode req console1)
    as (chosen' & console2' & Hsel' & _ & _ & Hempty & _).
  rewrite Hsel in Hsel'. injection Hsel' as <- <-.
  rewrite (Hempty Hm Htruthy) in Hcases. rewrite Hm in Hcases.
  split.
  - intros creq console' Hreq. rewrite Hcases in Hreq.
    destruct (URL_error runtime (request_url req)); [discriminate|].
    destruct (Request_error runtime "MKCOL" (headers req) (Some (BodyText "")));
      [discriminate|].
    injection Hreq as <- _. cbn [request_init cr_method cr_body cr_duplex].
    repeat split. exact Hm.
  - intros Hurl Haccepted. rewrite Hurl, Haccepted in Hcases.
    eexists _, _. split; [exact Hcases | reflexivity].
Qed.

(** The scenario of the specification: no content type, 2000 bytes. *)
Lemma mkcol_body_is_the_empty_string_witness :
  exists creq console',
    createAdaptedRequest (Some 2) (fun _ => false) (fun _ => "") sample_runtime
      (bridge_request "MKCOL" "/dav/new-folder" "" (Buffer two_thousand_bytes)) []
    = (Return creq, console')
    /\ cr_method creq = "MKCOL"
    /\ cr_body creq = Some (BodyText "")
    /\ cr_duplex creq = Some "half".
Proof.
  destruct (mkcol_body_is_the_empty_string (Some 2) (fun _ => false) (fun _ => "")
              sample_runtime
              (bridge_request "MKCOL" "/dav/new-folder" "" (Buffer two_thousand_bytes)) []
              eq_refl eq_refl)
    as [Hshape Hreturns].
  destruct (Hreturns eq_refl eq_refl) as (creq & console' & Hreq & _).
  exists creq, console'. split; [exact Hreq|]. exact (Hshape creq console' Hreq).
Defined.

(** C9.  A parsed JSON body (an object or an array) of a request that may
    carry a body is serialised with [JSON.stringify] on the request side.
    When the application returns that text unchanged under a content type
    containing [application/json], the response side decodes it to the same
    value, and [res.json] writes it again.  With GET among the supported
    verbs the JSON writer escapes: the bytes sent are those of the request
    exactly when the text holds none of the characters [<], [>] and [&]. *)
Theorem json_round_trip_escapes_markup :
  forall (lvl : option Z) (existsSync : string -> bool) (form_urlencode : JsVal -> string)
         (runtime : Runtime) (cfg : Dav.WebDAVConfig) (req : Request) (v : json)
         (console : list LogEntry),
    body req = Value v ->
    parsed_body (Value v) = true ->
    well_formed (number_text runtime) v = true ->
    may_carry_body (method req) = true ->
    method req <> "MKCOL" ->
    includes (header req "content-type") "json" = true ->
    includes (header req "content-type") "multipart/form-data" = false ->
    (forall creq console',
        createAdaptedRequest lvl existsSync form_urlencode runtime req console
        = (Return creq, console') ->
        cr_body creq = Some (BodyText (stringify v)))
    /\ (forall (response : WorkerResponse) (contentType : string) (res : Response),
          wr_body response = Some (stringify v) ->
          wr_headers response !! "content-type" = Some contentType ->
          includes contentType "application/json" = true ->
          valid_status (wr_status response) = true ->
          exists res',
            convertWorkerResponseToExpress runtime response res = (Return tt, res')
            /\ statusCode res' = wr_status response
            /\ sent res' = Some (PayloadJson v))
    /\ (In "GET" (Dav.SUPPORTED_METHODS cfg) ->
        payload_bytes (Pipeline.json_escape cfg) (PayloadJson v)
        = html_escape (stringify v)
        /\ (payload_bytes (Pipeline.json_escape cfg) (PayloadJson v) = stringify v
            <-> count_markup (stringify v) = 0%nat)).
Proof.
  intros lvl existsSync form_urlencode runtime cfg req v console
    Hbody Hparsed Hwf Hcarry Hm Hjson Hmulti.
  split; [|split].
  - intros creq console' Hreq.
    destruct (createAdaptedRequest_returned lvl existsSync form_urlencode runtime req console
                creq console' Hreq) as (console1 & Hsel & _).
    destruct (select_body_json lvl existsSync form_urlencode req v console1 Hbody)
      as (console2 & Hsel'); try assumption.
    + now destruct v.
    + now apply parsed_body_truthy.
    + rewrite Hsel in Hsel'. now injection Hsel' as -> _.
  - intros response contentType res Hecho Hct Hjs Hstatus.
    unfold convertWorkerResponseToExpress.
    rewrite Hecho, Hct, Hjs, (JsonFacts.parse_stringify _ v Hwf).
    rewrite respond_valid.
    + eexists. split; [reflexivity|]. cbn [finish statusCode sent].
      split; [|reflexivity]. now rewrite (proj1 (copy_headers_state _ _)).
    + now rewrite (proj1 (copy_headers_state _ _)).
  - intros Hget.
    assert (Pipeline.json_escape cfg = true) as Hescape.
    { unfold Pipeline.json_escape. apply existsb_exists. exists "GET". split; [exact Hget|].
      reflexivity. }
    rewrite Hescape. cbn [payload_bytes]. split; [reflexivity|].
    apply JsonFacts.html_escape_same.
Qed.

(** The body of the sample: several kinds of numbers, an index key, an
    escaped line feed, and no markup.  It comes back byte for byte. *)
Lemma json_round_trip_escapes_markup_witness :
  exists creq console' res',
    createAdaptedRequest (Some 2) (fun _ => false) (fun _ => "") sample_runtime
      (bridge_request "POST" "/api/paste" "application/json" (Value sample_json)) []
    = (Return creq, console')
    /\ cr_body creq = Some (BodyText (stringify sample_json))
    /\ convertWorkerResponseToExpress sample_runtime sample_echo fresh_response
       = (Return tt, res')
    /\ sent res' = Some (PayloadJson sample_json)
    /\ payload_bytes (Pipeline.json_escape Dav.sample_config) (PayloadJson sample_json)
       = stringify sample_json.
Proof.
  destruct (json_round_trip_escapes_markup (Some 2) (fun _ => false) (fun _ => "")
              sample_runtime Dav.sample_config
              (bridge_request "POST" "/api/paste" "application/json" (Value sample_json))
              sample_json [] eq_refl eq_refl eq_refl eq_refl)
    as (Hrequest & Hback & Hbytes);
    [discriminate | reflexivity | reflexivity |].
  destruct (Hback sample_echo "application/json; charset=utf-8" fresh_response)
    as (res' & Hconv & _ & Hsent); [reflexivity | reflexivity | reflexivity | reflexivity |].
  eexists _, _, res'. split; [reflexivity|].
  split; [apply (Hrequest _ _ eq_refl)|]. split; [exact Hconv|]. split; [exact Hsent|].
  apply Hbytes; [cbn; tauto | reflexivity].
Defined.

(** A title with markup in it, sent as JSON and returned unchanged by the
    application, reaches the client with other bytes than were sent. *)
Lemma markup_body_is_not_returned_byte_for_byte :
  exists creq console' response res',
    createAdaptedRequest (Some 2) (fun _ => false) (fun _ => "") sample_runtime
      (bridge_request "POST" "/api/paste" "application/json" (Value markup_json)) []
    = (Return creq, console')
    /\ cr_body creq = Some (BodyText markup_text)
    /\ echo_app creq tt = (Return response, tt)
    /\ wr_body response = Some markup_text
    /\ convertWorkerResponseToExpress sample_runtime response fresh_response
       = (Return tt, res')
    /\ sent res' = Some (PayloadJson markup_json)
    /\ option_map (payload_bytes (Pipeline.json_escape Dav.sample_config)) (sent res')
       = Some markup_escaped
    /\ markup_escaped <> markup_text.
Proof.
  eexists _, _, _, _. split; [reflexivity|]. split; [reflexivity|].
  split; [reflexivity|]. split; [reflexivity|]. split; [vm_compute; reflexivity|].
  split; [reflexivity|]. split; [vm_compute; reflexivity|]. discriminate.
Qed.

(** ** Errors of the dispatch *)

(** A dispatch that throws has written nothing. *)
Lemma dispatch_throw_keeps_response (lvl : option Z) (existsSync : string -> bool)
    (form_urlencode : JsVal -> string) (runtime : Runtime) (AppState : Type)
    (fetch : CanonicalRequest -> AppState -> Outcome WorkerResponse * AppState)
    (req : Request) (w w1 : RouteWorld AppState) (e : JsError) :
  dispatch lvl existsSync form_urlencode runtime fetch req w = (Throw e, w1) ->
  sent (route_res w1) = sent (route_res w) /\ route_entropy w1 = route_entropy w.
Proof.
  unfold dispatch, bind, with_console, app_fetch, with_res.
  destruct (createAdaptedRequest _ _ _ _ req (route_console w)) as [[creq|e1] console1].
  2: { intros [= _ <-]. split; reflexivity. }
  cbn [route_console route_res route_app route_entropy].
  destruct (fetch creq (route_app w)) as [[response|e2] app'].
  2: { intros [= _ <-]. split; reflexivity. }
  cbn [route_console route_res route_app route_entropy].
  unfold convertWorkerResponseToExpress, respond.
  repeat match goal with
         | |- context [match ?x with _ => _ end] =>
             lazymatch x with
             | context [match _ with _ => _ end] => fail
             | _ => destruct x eqn:?
             end
         end;
    intros [= _ <-]; cbn [route_res route_entropy sent];
    (split; [|reflexivity]); rewrite (proj2 (copy_headers_state _ _)); reflexivity.
Qed.

(** C8.  When the dispatch throws, the catch block takes the status of the
    error when it is a number other than zero, and the default server-error
    status in every other case.  With a status code that can be written
    (100 to 999) the route returns, and the response has that status and the
    body of [createErrorResponse]: the status, the fixed generic message,
    the generated identifier and two constants, whatever the message and the
    stack of the error are.  With any other status code the write fails:
    the route throws a RangeError instead, and no response is sent. *)
Theorem dispatch_error_is_answered_unless_status_is_refused :
  forall (lvl : option Z) (INTERNAL_ERROR : Z) (existsSync : string -> bool)
         (form_urlencode : JsVal -> string) (runtime : Runtime) (AppState : Type)
         (fetch : CanonicalRequest -> AppState -> Outcome WorkerResponse * AppState)
         (req : Request) (w w1 : RouteWorld AppState) (e : JsError),
    dispatch lvl existsSync form_urlencode runtime fetch req w = (Throw e, w1) ->
    let code := error_status INTERNAL_ERROR e in
    (forall z, err_status e = StatusNum z -> z <> 0 -> code = z)
    /\ ((forall z, err_status e = StatusNum z -> z = 0) -> code = INTERNAL_ERROR)
    /\ (valid_status code = true ->
        exists w',
          wildcard_route lvl INTERNAL_ERROR existsSync form_urlencode runtime fetch req w
          = (Return tt, w')
          /\ statusCode (route_res w') = code
          /\ sent (route_res w') =
               Some (PayloadJson
                       (error_body code defaultMessage
                          (now36 (route_entropy w)
                             +:+ String.substring 2 5 (random36 (route_entropy w)))))
          /\ (forall e2 : JsError,
                err_status e2 = err_status e ->
                route_res (snd (respond_with_error lvl INTERNAL_ERROR e2 w1))
                = route_res w'))
    /\ (valid_status code = false ->
        exists w',
          wildcard_route lvl INTERNAL_ERROR existsSync form_urlencode runtime fetch req w
          = (Throw (range_error code), w')
          /\ sent (route_res w') = sent (route_res w)).
Proof.
  intros lvl INTERNAL_ERROR existsSync form_urlencode runtime AppState fetch req w w1 e
    Hthrow code.
  destruct (dispatch_throw_keeps_response _ _ _ _ _ _ _ _ _ _ Hthrow) as [Hsent Hentropy].
  split; [|split; [|split]].
  - intros z Hz Hnz. subst code. unfold error_status. rewrite Hz.
    destruct (Z.eqb_spec z 0); [contradiction | reflexivity].
  - intros Hzero. subst code. unfold error_status.
    destruct (err_status e) as [| z | |] eqn:Hst; try reflexivity.
    rewrite (Hzero z eq_refl). reflexivity.
  - intros Hvalid. unfold wildcard_route, try_catch. rewrite Hthrow.
    unfold respond_with_error, with_res, with_console, createErrorResponse, bind, ret,
      Bridge.log.
    cbn [fst snd route_console route_res route_app route_entropy].
    fold code. unfold respond. cbn [statusCode status]. rewrite Hvalid.
    eexists. split; [reflexivity|].
    cbn [route_res statusCode sent finish status]. rewrite Hentropy.
    repeat split.
    intros e2 He2. unfold error_status. rewrite He2. fold (error_status INTERNAL_ERROR e).
    fold code. rewrite Hvalid. reflexivity.
  - intros Hrefused. unfold wildcard_route, try_catch. rewrite Hthrow.
    unfold respond_with_error, with_res, with_console, createErrorResponse, bind, ret,
      Bridge.log.
    cbn [fst snd route_console route_res route_app route_entropy].
    fold code. unfold respond. cbn [statusCode status]. rewrite Hrefused.
    eexists. split; [reflexivity|].
    cbn [route_res statusCode sent finish status]. exact Hsent.
Qed.

Lemma dispatch_error_is_answered_unless_status_is_refused_witness :
  exists w',
    wildcard_route (Some 2) 500 (fun _ => false) (fun _ => "") sample_runtime
      (failing_app not_found_error)
      (bridge_request "GET" "/api/paste/x" "" (Value (JObj []))) sample_route_world
    = (Return tt, w')
    /\ statusCode (route_res w') = 404
    /\ sent (route_res w') =
         Some (PayloadJson (error_body 404 defaultMessage "lx2k9f3a4fzyo")).
Proof.
  destruct (dispatch_error_is_answered_unless_status_is_refused (Some 2) 500
              (fun _ => false) (fun _ => "") sample_runtime
              unit (failing_app not_found_error)
              (bridge_request "GET" "/api/paste/x" "" (Value (JObj []))) sample_route_world
              sample_route_world not_found_error eq_refl)
    as (_ & _ & Hanswered & _).
  destruct (Hanswered eq_refl) as (w' & Hroute & Hstatus & Hsent & _).
  exists w'. repeat split; assumption.
Defined.

(** An error of the application whose status is the number 1000: the catch
    block itself throws, and the client gets no response.  An error whose
    status is the number 0 is answered with the default status, here 500. *)
Lemma refused_status_escapes_the_route :
  (exists w',
     wildcard_route (Some 2) 500 (fun _ => false) (fun _ => "") sample_runtime
       (failing_app (mkError (Some "upstream failed") (StatusNum 1000) None))
       (bridge_request "GET" "/api/paste/x" "" (Value (JObj []))) sample_route_world
     = (Throw (range_error 1000), w')
     /\ sent (route_res w') = None)
  /\ (exists w',
        wildcard_route (Some 2) 500 (fun _ => false) (fun _ => "") sample_runtime
          (failing_app (mkError (Some "offline") (StatusNum 0) None))
          (bridge_request "GET" "/api/paste/x" "" (Value (JObj []))) sample_route_world
        = (Return tt, w')
        /\ statusCode (route_res w') = 500).
Proof.
  split; eexists; (split; [vm_compute; reflexivity|]); reflexivity.
Qed.

End BridgeFacts.

(* ===================================================================== *)
(** * Properties of the lazy initialisation *)
(* ===================================================================== *)

Module StartupFacts.
Import Js Logging Persistence Startup.

Section MiddlewareFacts.

Variable E : Engine.
Variable lvl : option Z.
Variable dbPath : string.
Variable check : M (World E) unit.
Variable secret : option string.

Lemma on_adapter_keeps_flag {A} (m : M (World E) A) (s s' : Server E) r :
  on_adapter E m s = (r, s') -> isDbInitialized s' = isDbInitialized s.
Proof.
  unfold on_adapter. destruct (m (adapter s)) as [r' w]. intros [= _ <-]. reflexivity.
Qed.

Lemma initialise_keeps_flag (s s' : Server E) r :
  initialise E lvl dbPath check s = (r, s') -> isDbInitialized s' = isDbInitialized s.
Proof.
  unfold initialise, bind.
  destruct (on_adapter E (init E lvl dbPath) s) as [[[]|e] s1] eqn:H1.
  - intros H2. apply on_adapter_keeps_flag in H1, H2. congruence.
  - intros [= _ <-]. now apply on_adapter_keeps_flag in H1.
Qed.

(** With the flag set the middleware touches nothing. *)
Lemma initialised_server_is_left_alone (s : Server E) :
  isDbInitialized s = true ->
  exists env, db_init_middleware E lvl dbPath check secret s = (Return (CallNext env), s).
Proof.
  intros Hflag. unfold db_init_middleware, try_catch, bind, ret. rewrite Hflag.
  cbn [negb]. eauto.
Qed.

End MiddlewareFacts.

(** C4 (as amended).  When the initialisation fails during the first
    request, the middleware logs the error (at an enabled error level) and
    goes on to [next()] with the environment set: nothing is thrown.  The
    flag was set before the attempt and stays set, so every later request
    passes the guard without any initialisation attempt and without any
    change of state. *)
Theorem failed_initialisation_is_logged_and_not_retried :
  forall (E : Engine) (lvl : option Z) (dbPath : string) (check : M (World E) unit)
         (secret : option string) (s s0 s_fail : Server E) (e : JsError),
    isDbInitialized s = false ->
    begin_first_request E lvl s = (Return tt, s0) ->
    initialise E lvl dbPath check s0 = (Throw e, s_fail) ->
    exists env s1,
      db_init_middleware E lvl dbPath check secret s = (Return (CallNext env), s1)
      /\ isDbInitialized s1 = true
      /\ db (adapter s1) = db (adapter s_fail)
      /\ calls (adapter s1) = calls (adapter s_fail)
      /\ (level_enabled lvl LvError = true ->
          last (console (adapter s1)) =
            Some (mkLog LvError "数据库初始化出错:" [("error", LogErr e)]))
      /\ (forall s2 : Server E,
            isDbInitialized s2 = true ->
            db_init_middleware E lvl dbPath check secret s2 = (Return (CallNext env), s2)).
Proof.
  intros E lvl dbPath check secret s s0 s_fail e Hflag Hbegin Hinit.
  pose proof (initialise_keeps_flag _ _ _ _ _ _ _ Hinit) as Hkept.
  revert Hbegin.
  unfold begin_first_request, db_init_middleware, try_catch, bind, ret, server_log,
    on_adapter, set_initialized, Persistence.log.
  cbn [fst snd isDbInitialized adapter]. rewrite Hflag. cbn [negb].
  intros [= <-]. rewrite Hinit. cbn [isDbInitialized adapter] in *.
  eexists _, _. split; [reflexivity|]. cbn [isDbInitialized adapter db calls console].
  repeat split.
  - exact Hkept.
  - intros Hlvl. unfold logMessage. rewrite Hlvl. apply last_snoc.
  - intros s2 Hset. unfold db_init_middleware, try_catch, bind, ret.
    rewrite Hset. reflexivity.
Qed.

Lemma failed_initialisation_is_logged_and_not_retried_witness :
  exists env s1,
    db_init_middleware Mini.engine (Some 2) unopenable_path mini_check None started
    = (Return (CallNext env), s1)
    /\ isDbInitialized s1 = true
    /\ db (adapter s1) = None
    /\ db_init_middleware Mini.engine (Some 2) unopenable_path mini_check None s1
       = (Return (CallNext env), s1).
Proof.
  edestruct (failed_initialisation_is_logged_and_not_retried
               Mini.engine (Some 2) unopenable_path mini_check None started)
    as (env & s1 & Hfirst & Hflag & Hdb & _ & _ & Hlater);
    [reflexivity | reflexivity | reflexivity |].
  exists env, s1. repeat split; try assumption.
  apply Hlater. exact Hflag.
Defined.

(** C4 (as stated) fails: after the initialisation failed in the first
    request, the second request does not call [open] again; the driver was
    asked once, the connection is still missing, and the second request
    changed nothing. *)
Lemma failed_initialisation_is_attempted_once :
  exists env s1 s2,
    db_init_middleware Mini.engine (Some 2) unopenable_path mini_check None started
    = (Return (CallNext env), s1)
    /\ db_init_middleware Mini.engine (Some 2) unopenable_path mini_check None s1
       = (Return (CallNext env), s2)
    /\ db (adapter s1) = None
    /\ open_attempts s1 = 1%nat
    /\ open_attempts s2 = 1%nat
    /\ db (adapter s2) = None
    /\ s2 = s1.
Proof.
  eexists _, _, _. split; [vm_compute; reflexivity|].
  split; [vm_compute; reflexivity|]. repeat split.
Qed.

End StartupFacts.

(* ===================================================================== *)
(** * Properties of the spooling middleware *)
(* ===================================================================== *)

Module SpoolFacts.
Import Js Logging Json Express Spool.

#[local] Arguments String.append !_ _ / : simpl nomatch.

(** ** File names *)

Lemma hex_byte (c : ascii) :
  byte_of_hex (hex_digit (nat_of_ascii c / 16)) (hex_digit (nat_of_ascii c mod 16)) = c.
Proof.
  destruct c as [[] [] [] [] [] [] [] []]; reflexivity.
Qed.

Lemma hex_inj (a b : string) : hex a = hex b -> a = b.
Proof.
  revert b. induction a as [|c a IH]; intros [|c' b]; cbn [hex]; try discriminate.
  - reflexivity.
  - intros [= Hhi Hlo Hrest].
    change (hex_digit (nat_of_ascii c / 16) = hex_digit (nat_of_ascii c' / 16)) in Hhi.
    change (hex_digit (nat_of_ascii c mod 16) = hex_digit (nat_of_ascii c' mod 16)) in Hlo.
    rewrite <- (hex_byte c), <- (hex_byte c'), Hhi, Hlo. f_equal. now apply IH.
Qed.

Lemma append_inj_r (a b c : string) : a +:+ b = a +:+ c -> b = c.
Proof.
  induction a as [|x a IH]; simpl; [auto|]. intros [= H]. auto.
Qed.

Lemma temp_file_path_inj (tmpdir random random' : string) :
  temp_file_path tmpdir random' = temp_file_path tmpdir random -> random' = random.
Proof.
  unfold temp_file_path, path_join.
  destruct (ends_with_slash tmpdir); intros H; apply append_inj_r in H.
  - apply (append_inj_r "upload-") in H. now apply hex_inj.
  - apply (append_inj_r "/upload-") in H. now apply hex_inj.
Qed.

Lemma append_nonempty_r (a b : string) : b <> "" -> a +:+ b <> "".
Proof.
  destruct a; simpl; [auto | discriminate].
Qed.

Lemma temp_file_path_truthy (tmpdir random : string) :
  String.eqb (temp_file_path tmpdir random) "" = false.
Proof.
  apply String.eqb_neq. unfold temp_file_path, path_join.
  destruct (ends_with_slash tmpdir); apply append_nonempty_r; simpl; discriminate.
Qed.

Section HandlerFacts.

Variable lvl : option Z.
Variable tmpdir : string.

Lemma spool_middleware_spools (random : string) (w : World) :
  is_multipart_post (req w) = true ->
  spool_middleware lvl tmpdir random w =
  mkWorld (<[temp_file_path tmpdir random := ""]> (files w))
    (logMessage lvl LvDebug
       ("检测到multipart/form-data请求: " +:+ path (req w)
          +:+ "，使用流式处理和临时文件存储") [] (console w))
    (set_tempFilePath (Some (temp_file_path tmpdir random)) (req w))
    (Some (temp_file_path tmpdir random, Writable)) (next_calls w).
Proof.
  intros H. unfold spool_middleware. rewrite H. reflexivity.
Qed.

Lemma step_keeps_spooling (p : string) (ev : Event) (w : World) :
  spooling p w -> spooling p (step lvl ev w).
Proof.
  intros Hw. pose proof Hw as [[st Hst] Href]. unfold step. rewrite Hst.
  destruct ev as [chunk | | | err | err |].
  - destruct st; try assumption.
    destruct (files w !! p) eqn:Hfile; [|assumption].
    split; cbn [stream req files]; [eauto|].
    destruct Href as [Href | [_ Hgone]]; [now left | congruence].
  - destruct st; try assumption. split; cbn [stream req files set_stream]; eauto.
  - destruct st; try assumption.
    split; cbn [stream req files set_stream on_stream_finish call_next log]; eauto.
  - assert (forall st', spooling p (on_stream_error lvl p err (set_stream (Some (p, st')) w)))
      as Herr.
    { intros st'. unfold on_stream_error, unlinkSync, call_next, set_stream, log.
      cbn [files console req stream next_calls].
      destruct (files w !! p) eqn:Hfile; split; cbn [files console req stream next_calls];
        eauto.
      all: destruct Href as [Href | [Href Hgone]];
        [now left | first [congruence | right; split; assumption]]. }
    destruct st; try apply Herr; assumption.
  - unfold on_request_error, call_next, set_stream, log.
    cbn [files console req stream next_calls]. rewrite Hst.
    destruct st; split; cbn [files console req stream next_calls]; eauto.
  - unfold on_response_finish.
    destruct (tempFilePath (req w)) as [q|] eqn:Hq; [|assumption].
    destruct (String.eqb_spec q ""); [assumption|].
    unfold unlinkSync, log. cbn [files console req stream next_calls].
    destruct (files w !! q) eqn:Hfile; split;
      cbn [files console req stream next_calls tempFilePath set_tempFilePath]; eauto.
    + right. split; [reflexivity|].
      destruct Href as [Href | [Href _]]; [|congruence].
      assert (q = p) as -> by congruence. apply lookup_delete_eq.
    + left. destruct Href as [Href | [Href _]]; congruence.
Qed.

Lemma run_cons (ev : Event) (events : list Event) (w : World) :
  run lvl (ev :: events) w = run lvl events (step lvl ev w).
Proof. reflexivity. Qed.

Lemma run_keeps_spooling (p : string) (events : list Event) (w : World) :
  spooling p w -> spooling p (run lvl events w).
Proof.
  revert w. induction events as [|ev events IH]; intros w H; simpl; [assumption|].
  apply IH. now apply step_keeps_spooling.
Qed.

Lemma spool_middleware_spooling (random : string) (w : World) :
  is_multipart_post (req w) = true ->
  spooling (temp_file_path tmpdir random) (spool_middleware lvl tmpdir random w).
Proof.
  intros H. rewrite (spool_middleware_spools random w H).
  split; cbn [stream req tempFilePath set_tempFilePath]; eauto.
Qed.

(** The response finish handler leaves no file at the path of a spooled
    request, and clears the reference when the file was still there. *)
Lemma response_finish_cleans (p : string) (w : World) :
  spooling p w ->
  String.eqb p "" = false ->
  files (step lvl EvResponseFinish w) !! p = None
  /\ (files w !! p <> None -> tempFilePath (req (step lvl EvResponseFinish w)) = None).
Proof.
  intros [[st Hst] Href] Hp. unfold step. rewrite Hst.
  assert (on_response_finish lvl w = step lvl EvResponseFinish w) as Hstep
    by (unfold step; rewrite Hst; now destruct st).
  replace (match st with
           | Writable | _ => on_response_finish lvl w
           end) with (on_response_finish lvl w) by now destruct st.
  unfold on_response_finish, unlinkSync, log.
  destruct Href as [Href | [Href Hgone]]; rewrite Href.
  - rewrite Hp. cbn [files console req stream next_calls].
    destruct (files w !! p) eqn:Hfile; cbn [files req tempFilePath set_tempFilePath].
    + split; [apply lookup_delete_eq | reflexivity].
    + split; [assumption | congruence].
  - split; [assumption | congruence].
Qed.

(** Once an upload was given up, no event that can follow removes the file
    or clears the reference. *)
Lemma step_keeps_abandoned (p content : string) (ev : Event) (w : World) :
  follows_abort ev = true ->
  abandoned p content w -> abandoned p content (step lvl ev w).
Proof.
  intros Hev ((st & Hst & Hclosed) & Hfile & Href). unfold step. rewrite Hst.
  destruct ev as [chunk | | | err | err |]; try discriminate Hev.
  - destruct st; try contradiction; (split; [eauto | split; assumption]).
  - destruct st; try contradiction; (split; [eauto | split; assumption]).
  - destruct st; try contradiction;
      unfold on_stream_finish, call_next, set_stream, log;
      cbn [files console req stream next_calls];
      (split; [|split; assumption]); eexists; (split; [eassumption || reflexivity|]);
      discriminate.
  - unfold on_request_error, call_next, set_stream, log.
    cbn [files console req stream next_calls]. rewrite Hst.
    destruct st; try contradiction;
      cbn [files console req stream next_calls];
      (split; [|split; assumption]); eexists; (split; [reflexivity | discriminate]).
Qed.

Lemma run_keeps_abandoned (p content : string) (events : list Event) (w : World) :
  forallb follows_abort events = true ->
  abandoned p content w -> abandoned p content (run lvl events w).
Proof.
  revert w. induction events as [|ev events IH]; intros w Hevents Hw; [assumption|].
  cbn [forallb] in Hevents. apply andb_true_iff in Hevents as [Hev Hevents].
  rewrite run_cons. apply IH; [assumption|]. now apply step_keeps_abandoned.
Qed.

(** Chunks are appended to the file as they arrive. *)
Lemma data_is_appended (p : string) (chunks : list string) (w : World) content :
  stream w = Some (p, Writable) ->
  files w !! p = Some content ->
  stream (run lvl (map EvData chunks) w) = Some (p, Writable)
  /\ files (run lvl (map EvData chunks) w) !! p = Some (content +:+ joined chunks)
  /\ next_calls (run lvl (map EvData chunks) w) = next_calls w
  /\ req (run lvl (map EvData chunks) w) = req w.
Proof.
  revert w content. induction chunks as [|chunk chunks IH]; intros w content Hst Hfile.
  - cbn [map run fold_left joined fold_right].
    assert (content +:+ "" = content) as ->
      by (clear; induction content as [|? ? IHc]; simpl; [reflexivity | now rewrite IHc]).
    repeat split; assumption.
  - change (map EvData (chunk :: chunks)) with (EvData chunk :: map EvData chunks).
    rewrite !run_cons.
    assert (step lvl (EvData chunk) w =
            mkWorld (<[p := content +:+ chunk]> (files w)) (console w) (req w) (stream w)
              (next_calls w)) as Hstep
      by (unfold step; now rewrite Hst, Hfile).
    rewrite Hstep.
    destruct (IH (mkWorld (<[p := content +:+ chunk]> (files w)) (console w) (req w)
                    (stream w) (next_calls w)) (content +:+ chunk))
      as (H1 & H2 & H3 & H4); [assumption | apply lookup_insert_eq |].
    refine (conj H1 (conj _ (conj H3 H4))).
    rewrite H2. cbn [joined fold_right]. now rewrite JsonFacts.append_assoc.
Qed.

End HandlerFacts.

(** C3.  For a request whose body was spooled, the temporary file is
    removed in one place, the handler of the finish event of the response:
    whatever came before, after that event there is no file at the
    temporary path, and the reference on the request is cleared when the
    file was still there.  When the client goes away in the middle of the
    upload, the handler of the request error ends the stream and passes the
    error on, and removes nothing; no event that can still follow removes
    the file either, so the partial file and the reference to it stay. *)
Theorem temp_file_is_removed_only_at_response_finish :
  forall (lvl : option Z) (tmpdir random : string) (w : World) (chunks : list string),
    is_multipart_post (req w) = true ->
    let p := temp_file_path tmpdir random in
    let received := run lvl (map EvData chunks) (spool_middleware lvl tmpdir random w) in
    (forall events,
        let before := run lvl events received in
        let finished := step lvl EvResponseFinish before in
        files finished !! p = None
        /\ (files before !! p <> None -> tempFilePath (req finished) = None))
    /\ (forall err later,
          forallb follows_abort later = true ->
          let given_up := run lvl (EvRequestError err :: later) received in
          files given_up !! p = Some (joined chunks)
          /\ tempFilePath (req given_up) = Some p
          /\ exists st, stream given_up = Some (p, st) /\ st <> Writable).
Proof.
  intros lvl tmpdir random w chunks Hpost p received.
  pose proof (temp_file_path_truthy tmpdir random) as Hp. fold p in Hp.
  assert (spooling p received) as Hinv
    by (apply run_keeps_spooling; now apply spool_middleware_spooling).
  assert (stream received = Some (p, Writable)
          /\ files received !! p = Some (joined chunks)
          /\ tempFilePath (req received) = Some p) as (Hst & Hfile & Href).
  { subst received. rewrite (spool_middleware_spools lvl tmpdir random w Hpost). fold p.
    set (spooled := mkWorld _ _ _ _ _).
    destruct (data_is_appended lvl p chunks spooled "") as (H1 & H2 & _ & H4);
      [reflexivity | apply lookup_insert_eq |].
    rewrite H4. repeat split; assumption. }
  split.
  - intros events before finished.
    apply (response_finish_cleans lvl p before); [|exact Hp].
    now apply run_keeps_spooling.
  - intros err later Hlater given_up. subst given_up. rewrite run_cons.
    assert (abandoned p (joined chunks) (step lvl (EvRequestError err) received)) as Hgone.
    { unfold step. rewrite Hst. unfold on_request_error, call_next, set_stream, log.
      cbn [files console req stream next_calls]. rewrite Hst.
      split; [|split; assumption]. eexists. split; [reflexivity | discriminate]. }
    pose proof (run_keeps_abandoned lvl p (joined chunks) later _ Hlater Hgone)
      as (Hstream & Hkept & Hrefers).
    repeat split; assumption.
Qed.

(** An upload of two chunks: when it completes and the response finishes,
    the file is removed; when the client goes away after the two chunks,
    the file stays. *)
Lemma temp_file_is_removed_only_at_response_finish_witness :
  let p := "/tmp/upload-30313233343536373839616263646566" in
  let received :=
    run (Some 2) [EvData "--x"; EvData "data"]
      (spool_middleware (Some 2) "/tmp" sample_random sample_upload) in
  files (step (Some 2) EvResponseFinish
           (run (Some 2) [EvRequestEnd; EvStreamFinish] received)) !! p = None
  /\ files (run (Some 2) [EvRequestError sample_error; EvStreamFinish] received) !! p
     = Some "--xdata".
Proof.
  destruct (temp_file_is_removed_only_at_response_finish (Some 2) "/tmp" sample_random
              sample_upload ["--x"; "data"] eq_refl)
    as (Hfinished & Hgiven_up).
  split.
  - exact (proj1 (Hfinished [EvRequestEnd; EvStreamFinish])).
  - exact (proj1 (Hgiven_up sample_error [EvStreamFinish] eq_refl)).
Defined.

(** The client goes away in the middle of an upload.  The request error
    handler ends the stream and passes the error to [next]; the stream
    finishes and [next] is called again.  Nothing removes the partial file:
    it is still on disk, and the request still refers to it. *)
Lemma aborted_upload_keeps_partial_file :
  let p := "/tmp/upload-30313233343536373839616263646566" in
  let spooled := spool_middleware (Some 2) "/tmp" sample_random sample_upload in
  let aborted :=
    run (Some 2) [EvData "partial"; EvRequestError sample_error; EvStreamFinish] spooled in
  files aborted !! p = Some "partial"
  /\ stream aborted = Some (p, Finished)
  /\ tempFilePath (req aborted) = Some p
  /\ next_calls aborted = [Some sample_error; None].
Proof.
  repeat split; vm_compute; reflexivity.
Qed.

(** C5 (as amended).  For a POST whose content type contains
    [multipart/form-data] the middleware does not touch [req.body]; it pipes
    the request into a new file named [upload-] followed by the hexadecimal
    form of the random bytes, under the temporary directory, and stores that
    path on the request before [next] is called.  The chunks of the body are
    appended to the file as they arrive.  A write error removes the file and
    passes the error to [next].  Distinct random bytes give distinct
    paths.  Every other request, whatever its content type, goes straight to
    [next] and nothing is spooled. *)
Theorem multipart_post_is_spooled :
  forall (lvl : option Z) (tmpdir random : string) (w : World),
    let p := temp_file_path tmpdir random in
    let spooled := spool_middleware lvl tmpdir random w in
    (is_multipart_post (req w) = true ->
     body (req spooled) = body (req w)
     /\ tempFilePath (req spooled) = Some p
     /\ stream spooled = Some (p, Writable)
     /\ next_calls spooled = next_calls w
     /\ (forall chunks,
           files (run lvl (map EvData chunks) spooled) !! p = Some (joined chunks))
     /\ (forall chunks err,
           let failed := step lvl (EvStreamError err) (run lvl (map EvData chunks) spooled) in
           files failed !! p = None
           /\ last (next_calls failed) = Some (Some err))
     /\ (forall random', temp_file_path tmpdir random' = p -> random' = random))
    /\ (is_multipart_post (req w) = false ->
        spooled = call_next None w).
Proof.
  intros lvl tmpdir random w p spooled. split; intros Hpost.
  2: { subst spooled. unfold spool_middleware. now rewrite Hpost. }
  subst spooled. rewrite (spool_middleware_spools lvl tmpdir random w Hpost).
  fold p. cbn [req body tempFilePath set_tempFilePath stream next_calls].
  set (spooled := mkWorld _ _ _ _ _).
  assert (forall chunks,
             stream (run lvl (map EvData chunks) spooled) = Some (p, Writable)
             /\ files (run lvl (map EvData chunks) spooled) !! p = Some (joined chunks)
             /\ next_calls (run lvl (map EvData chunks) spooled) = next_calls spooled
             /\ req (run lvl (map EvData chunks) spooled) = req spooled) as Hdata.
  { intros chunks.
    apply (data_is_appended lvl p chunks spooled ""); [reflexivity | apply lookup_insert_eq]. }
  repeat split; try reflexivity.
  - intros chunks. apply Hdata.
  - destruct (Hdata chunks) as (Hst & Hfile & _ & _).
    unfold step. rewrite Hst. unfold on_stream_error, unlinkSync, call_next, set_stream, log.
    cbn [files console req stream next_calls]. rewrite Hfile.
    cbn [files console req stream next_calls]. apply lookup_delete_eq.
  - destruct (Hdata chunks) as (Hst & Hfile & _ & _).
    unfold step. rewrite Hst. unfold on_stream_error, unlinkSync, call_next, set_stream, log.
    cbn [files console req stream next_calls]. rewrite Hfile.
    cbn [files console req stream next_calls]. apply last_snoc.
  - apply temp_file_path_inj.
Qed.

Lemma multipart_post_is_spooled_witness :
  let spooled := spool_middleware (Some 2) "/tmp" sample_random sample_upload in
  tempFilePath (req spooled) = Some "/tmp/upload-30313233343536373839616263646566"
  /\ next_calls spooled = []
  /\ files (run (Some 2) [EvData "--x"; EvData "data"] spooled)
       !! "/tmp/upload-30313233343536373839616263646566" = Some "--xdata".
Proof.
  destruct (multipart_post_is_spooled (Some 2) "/tmp" sample_random sample_upload)
    as [Hspooled _].
  destruct (Hspooled eq_refl) as (_ & Hpath & _ & Hnext & Hdata & _).
  exact (conj Hpath (conj Hnext (Hdata ["--x"; "data"]))).
Defined.

(** C5 (as stated) fails: a PUT with a multipart/form-data body, and a POST
    of another multipart type, are passed on without any spooling. *)
Lemma other_multipart_requests_are_not_spooled :
  includes (header (req put_upload) "content-type") "multipart/" = true
  /\ stream (spool_middleware (Some 2) "/tmp" sample_random put_upload) = None
  /\ tempFilePath (req (spool_middleware (Some 2) "/tmp" sample_random put_upload)) = None
  /\ files (spool_middleware (Some 2) "/tmp" sample_random put_upload) = ∅
  /\ next_calls (spool_middleware (Some 2) "/tmp" sample_random put_upload) = [None]
  /\ includes (header (req mixed_upload) "content-type") "multipart/" = true
  /\ stream (spool_middleware (Some 2) "/tmp" sample_random mixed_upload) = None
  /\ tempFilePath (req (spool_middleware (Some 2) "/tmp" sample_random mixed_upload)) = None
  /\ next_calls (spool_middleware (Some 2) "/tmp" sample_random mixed_upload) = [None].
Proof.
  repeat split; vm_compute; reflexivity.
Qed.

End SpoolFacts.

(* ===================================================================== *)
(** * The persistence adapter at its edges *)
(* ===================================================================== *)

Module AdapterEdgeFacts.
Import Js Logging Persistence PersistenceFacts.

Section Calls.

Variable E : Engine.
Variable lvl : option Z.

(** A call on a connected adapter keeps it connected and adds its one call
    to the trace, whether it resolves or rejects. *)
Lemma on_db_connected {A} method call (f : Conn E -> Outcome A * Conn E)
    (w : World E) c :
  db w = Some c ->
  on_db E RefDb method call f w =
    (fst (f c), mkWorld (Some (snd (f c))) (calls w ++ [call]) (console w)).
Proof.
  intros Hdb. unfold on_db. rewrite Hdb. destruct (f c); reflexivity.
Qed.

(** One statement of a batch, on a connected adapter: the adapter stays
    connected, at most one call reaches the engine, and exactly one when
    the statement resolves. *)
Lemma exec_item_calls (statement : BatchItem) (w w' : World E) c r :
  db w = Some c ->
  exec_item E lvl statement w = (r, w') ->
  db w' <> None
  /\ exists mid,
       calls w' = calls w ++ mid
       /\ (length mid <= 1)%nat
       /\ (forall x, r = Return x -> length mid = 1%nat).
Proof.
  intros Hdb. unfold exec_item.
  destruct statement as [s | o |].
  - unfold bind, this_db, db_exec, ret. rewrite Hdb.
    rewrite (on_db_connected _ _ _ _ _ Hdb).
    destruct (fst (engine_exec E s c)) as [[]|e]; intros [= <- <-];
      (split; [discriminate|]); exists [CallExec s]; repeat split; simpl; lia.
  - destruct (truthy_str (so_sql o) && is_array (so_params o)).
    { unfold bind, this_db, db_run, ret. rewrite Hdb.
      rewrite (on_db_connected _ _ _ _ _ Hdb).
      destruct (fst (engine_run E _ _ c)) as [x|e]; intros [= <- <-];
        (split; [discriminate|]); eexists [_]; repeat split; simpl; lia. }
    destruct (truthy_str (so_sql o) && is_undefined (so_params o)).
    { unfold bind, this_db, db_run, ret. rewrite Hdb.
      rewrite (on_db_connected _ _ _ _ _ Hdb).
      destruct (fst (engine_run E _ _ c)) as [x|e]; intros [= <- <-];
        (split; [discriminate|]); eexists [_]; repeat split; simpl; lia. }
    unfold prepare, run, bind, try_catch, this_db, db_run, ret, throw, log.
    rewrite Hdb.
    destruct (so_params o) as [| l | | l |]; cbn [_db sql params bind_params];
      try rewrite (on_db_connected _ _ _ _ _ Hdb);
      try (destruct (fst (engine_run E _ _ c)) as [x|e]; intros [= <- <-];
           (split; [cbn; discriminate|]); eexists [_]; repeat split; simpl; lia).
    intros [= <- <-]. split; [congruence|]. exists [].
    rewrite app_nil_r. split; [reflexivity|]. split; [simpl; lia|]. discriminate.
  - unfold throw. intros [= <- <-]. split; [congruence|]. exists [].
    rewrite app_nil_r. split; [reflexivity|]. split; [simpl; lia|]. discriminate.
Qed.

(** The loop over the statements, on a connected adapter. *)
Lemma batch_loop_calls (statements : list BatchItem) :
  forall acc (w w' : World E) c r,
    db w = Some c ->
    batch_loop E lvl statements acc w = (r, w') ->
    db w' <> None
    /\ exists mid,
         calls w' = calls w ++ mid
         /\ (length mid <= length statements)%nat
         /\ (forall rs, r = Return rs ->
               length mid = length statements
               /\ length rs = (length acc + length statements)%nat).
Proof.
  induction statements as [|statement rest IH]; intros acc w w' c r Hdb; simpl.
  - unfold ret. intros [= <- <-]. split; [congruence|]. exists [].
    rewrite app_nil_r. split; [reflexivity|]. split; [simpl; lia|].
    intros rs [= <-]. simpl. lia.
  - unfold bind. destruct (exec_item E lvl statement w) as [[x|e] w1] eqn:Hitem.
    + destruct (exec_item_calls _ _ _ _ _ Hdb Hitem) as (Hdb1 & mid1 & Hc1 & _ & Hone).
      destruct (db w1) as [c1|] eqn:Hdb1'; [|congruence].
      intros Hrest. destruct (IH _ _ _ _ _ Hdb1' Hrest) as (Hdb' & mid & Hc & Hle & Hret).
      split; [assumption|]. exists (mid1 ++ mid).
      rewrite Hc, Hc1, <- app_assoc, length_app, (Hone x eq_refl).
      split; [reflexivity|]. split; [simpl; lia|].
      intros rs Hrs. destruct (Hret _ Hrs) as [Hmid Hlen].
      rewrite Hlen, length_app. simpl. lia.
    + destruct (exec_item_calls _ _ _ _ _ Hdb Hitem) as (Hdb1 & mid1 & Hc1 & Hle1 & _).
      intros [= <- <-]. split; [assumption|]. exists mid1.
      split; [assumption|]. split; [lia|]. discriminate.
Qed.

End Calls.

(** X1.  [batch] on a connected adapter brackets whatever it sends to the engine:
    the first call is BEGIN TRANSACTION; when it returns, one call per
    statement follows, then COMMIT, and there is one result per statement;
    when it throws, the last call is ROLLBACK, whichever stage failed
    (BEGIN itself, a statement, or COMMIT). *)
Theorem batch_brackets_engine_calls :
  forall (E : Engine) (lvl : option Z) (statements : list BatchItem)
         (w : World E) (c : Conn E),
    db w = Some c ->
    exists mid,
      match batch E lvl statements w with
      | (Return rs, w') =>
          calls w' = calls w ++ CallExec "BEGIN TRANSACTION" :: mid ++ [CallExec "COMMIT"]
          /\ length mid = length statements
          /\ length rs = length statements
      | (Throw e, w') =>
          calls w' = calls w ++ CallExec "BEGIN TRANSACTION" :: mid ++ [CallExec "ROLLBACK"]
          /\ (length mid <= S (length statements))%nat
      end.
Proof.
  intros E lvl statements w c Hdb. rewrite batch_stages.
  assert (Hbegin : batch_begin E lvl statements w =
            (fst (engine_exec E "BEGIN TRANSACTION" c),
             mkWorld (Some (snd (engine_exec E "BEGIN TRANSACTION" c)))
               (calls w ++ [CallExec "BEGIN TRANSACTION"])
               (logMessage lvl LvInfo
                  ("执行批处理操作，共" +:+ nat_to_string (length statements) +:+ "条语句")
                  [] (console w)))).
  { unfold batch_begin, bind, log, this_db, db_exec, on_db. cbn [db calls console].
    rewrite Hdb.
    destruct (engine_exec E "BEGIN TRANSACTION" c) as [[[]|e] c1]; reflexivity. }
  rewrite Hbegin. set (w1 := mkWorld _ _ _).
  assert (Hdb1 : db w1 = Some (snd (engine_exec E "BEGIN TRANSACTION" c))) by reflexivity.
  assert (Hcalls1 : calls w1 = calls w ++ [CallExec "BEGIN TRANSACTION"]) by reflexivity.
  destruct (fst (engine_exec E "BEGIN TRANSACTION" c)) as [[]|e].
  - destruct (batch_loop E lvl statements [] w1) as [[rs|e] w2] eqn:Hloop.
    + destruct (batch_loop_calls E lvl _ _ _ _ _ _ Hdb1 Hloop)
        as (Hdb2 & mid & Hc2 & _ & Hret).
      destruct (Hret rs eq_refl) as [Hmid Hrs].
      destruct (db w2) as [c2|] eqn:Hdb2'; [|congruence].
      assert (Hcommit : batch_commit E w2 =
                (fst (engine_exec E "COMMIT" c2),
                 mkWorld (Some (snd (engine_exec E "COMMIT" c2)))
                   (calls w2 ++ [CallExec "COMMIT"]) (console w2))).
      { unfold batch_commit, bind, this_db, db_exec. rewrite Hdb2'.
        apply on_db_connected. assumption. }
      rewrite Hcommit. set (w3 := mkWorld _ _ _).
      destruct (fst (engine_exec E "COMMIT" c2)) as [[]|e].
      * exists mid. subst w3. cbn [calls]. rewrite Hc2, Hcalls1, <- !app_assoc.
        repeat split; assumption.
      * destruct (@batch_rollback_spec E lvl (list (BatchResult E)) e w3 _ eq_refl)
          as (w' & -> & Hc' & _).
        exists (mid ++ [CallExec "COMMIT"]). rewrite Hc'. subst w3. cbn [calls].
        rewrite Hc2, Hcalls1, <- !app_assoc, length_app. simpl. split; [reflexivity | lia].
    + destruct (batch_loop_calls E lvl _ _ _ _ _ _ Hdb1 Hloop)
        as (Hdb2 & mid & Hc2 & Hle & _).
      destruct (db w2) as [c2|] eqn:Hdb2'; [|congruence].
      destruct (@batch_rollback_spec E lvl (list (BatchResult E)) e w2 _ Hdb2')
        as (w' & -> & Hc' & _).
      exists mid. rewrite Hc', Hc2, Hcalls1, <- !app_assoc. simpl. split; [reflexivity | lia].
  - destruct (@batch_rollback_spec E lvl (list (BatchResult E)) e w1 _ Hdb1)
      as (w' & -> & Hc' & _).
    exists []. rewrite Hc', Hcalls1, <- !app_assoc. simpl. split; [reflexivity | lia].
Qed.

Lemma batch_brackets_engine_calls_witness :
  exists mid,
    match batch Mini.engine (Some 2)
            (Mini.scenario_pre ++ Mini.scenario_failing :: Mini.scenario_post)
            Mini.fresh with
    | (Return rs, w') =>
        calls w' = calls Mini.fresh
                   ++ CallExec "BEGIN TRANSACTION" :: mid ++ [CallExec "COMMIT"]
        /\ length mid = 3%nat
        /\ length rs = 3%nat
    | (Throw e, w') =>
        calls w' = calls Mini.fresh
                   ++ CallExec "BEGIN TRANSACTION" :: mid ++ [CallExec "ROLLBACK"]
        /\ (length mid <= 4)%nat
    end.
Proof.
  exact (batch_brackets_engine_calls Mini.engine (Some 2)
           (Mini.scenario_pre ++ Mini.scenario_failing :: Mini.scenario_post)
           Mini.fresh _ eq_refl).
Defined.

(** X2.  When the engine rejects BEGIN TRANSACTION itself, no statement of the
    batch is executed, yet the [catch] block still sends ROLLBACK: the caller
    gets the error of BEGIN, and the connection is left as that ROLLBACK
    leaves it.  On an engine that rejects a nested BEGIN, a batch issued
    while a transaction is open therefore rolls that transaction back. *)
Theorem batch_rolls_back_when_begin_fails :
  forall (E : Engine) (lvl : option Z) (statements : list BatchItem)
         (w : World E) (c c1 : Conn E) (e : JsError),
    db w = Some c ->
    engine_exec E "BEGIN TRANSACTION" c = (Throw e, c1) ->
    exists w',
      batch E lvl statements w = (Throw e, w')
      /\ calls w' = calls w ++ [CallExec "BEGIN TRANSACTION"; CallExec "ROLLBACK"]
      /\ db w' = Some (snd (engine_exec E "ROLLBACK" c1)).
Proof.
  intros E lvl statements w c c1 e Hdb Hbegin. rewrite batch_stages.
  unfold batch_begin, bind, log, this_db, db_exec, on_db. cbn [db calls console].
  rewrite Hdb, Hbegin.
  edestruct (@batch_rollback_spec E lvl (list (BatchResult E)) e) as (w' & -> & Hc & Hd & _);
    [reflexivity|].
  exists w'. cbn [calls] in Hc. rewrite Hc, Hd, <- app_assoc. repeat split.
Qed.

(** On the small engine: a row inserted in a transaction opened by the caller
    is gone after a batch was attempted inside that transaction. *)
Lemma batch_rolls_back_when_begin_fails_witness :
  exists w' c',
    batch Mini.engine (Some 2) Mini.scenario_post Scenarios.in_transaction
    = (Throw Scenarios.nested_begin_error, w')
    /\ db w' = Some c'
    /\ Mini.rows c' = []
    /\ Mini.txn c' = None.
Proof.
  destruct (batch_rolls_back_when_begin_fails Mini.engine (Some 2) Mini.scenario_post
              Scenarios.in_transaction _ _ Scenarios.nested_begin_error eq_refl eq_refl)
    as (w' & Hbatch & _ & Hdb).
  exists w', (snd (Mini.mini_exec "ROLLBACK" (Mini.mkMiniConn [[SqlInt 7]] (Some [])))).
  repeat split; assumption.
Defined.

(** X3.  Before [init] the adapter has no connection, and every operation fails
    with the TypeError of the property access on [null]: [exec], [batch], and
    [run], [all] and [first] of a statement prepared now.  Nothing reaches
    the engine and the adapter stays unconnected. *)
Theorem unconnected_adapter_rejects_every_operation :
  forall (E : Engine) (lvl : option Z) (w : World E),
    db w = None ->
    let null_error method :=
      type_error ("Cannot read properties of null (reading '" +:+ method +:+ "')") in
    let untouched (w' : World E) := calls w' = calls w /\ db w' = None in
    (forall sql_text,
        fst (exec E lvl sql_text w) = Throw (null_error "exec")
        /\ untouched (snd (exec E lvl sql_text w)))
    /\ (forall statements,
          fst (batch E lvl statements w) = Throw (null_error "exec")
          /\ untouched (snd (batch E lvl statements w)))
    /\ (forall sql_text args,
          exists st,
            prepare E sql_text w = (Return st, w)
            /\ fst (run E lvl (bind_params st args) w) = Throw (null_error "run")
            /\ untouched (snd (run E lvl (bind_params st args) w))
            /\ fst (all E lvl (bind_params st args) w) = Throw (null_error "all")
            /\ untouched (snd (all E lvl (bind_params st args) w))
            /\ fst (first E lvl (bind_params st args) w) = Throw (null_error "get")
            /\ untouched (snd (first E lvl (bind_params st args) w))).
Proof.
  intros E lvl w Hdb null_error untouched. subst untouched. cbv beta.
  repeat split.
  1-3: unfold exec, try_catch, bind, this_db, db_exec, on_db, log, throw;
       rewrite Hdb; cbn [fst snd db calls console]; try reflexivity; assumption.
  1-3: unfold batch, batch_rollback, try_catch, bind, this_db, db_exec, on_db, log, throw;
       cbn [fst snd db calls console]; rewrite Hdb; cbn [fst snd db calls console];
       try reflexivity.
  all: try assumption.
  intros sql_text args. eexists. split.
  { unfold prepare, bind, this_db, ret. rewrite Hdb. reflexivity. }
  unfold run, all, first, try_catch, bind, db_run, db_all, db_get, on_db, log, throw.
  cbn [_db sql params bind_params fst snd db calls console].
  repeat split; assumption.
Qed.

Lemma unconnected_adapter_rejects_every_operation_witness :
  fst (batch Mini.engine (Some 2) Mini.scenario_pre Mini.closed)
  = Throw (type_error "Cannot read properties of null (reading 'exec')")
  /\ calls (snd (batch Mini.engine (Some 2) Mini.scenario_pre Mini.closed)) = [].
Proof.
  destruct (unconnected_adapter_rejects_every_operation Mini.engine (Some 2) Mini.closed
              eq_refl) as (_ & Hbatch & _).
  destruct (Hbatch Mini.scenario_pre) as (Hthrown & Hcalls & _).
  split; assumption.
Defined.

(** X4.  A statement captures the connection when it is prepared.  One prepared
    before [init] keeps its [null] for good: [run], [all] and [first] fail
    with the TypeError in every later state of the adapter, a connected one
    included, and nothing reaches the engine. *)
Theorem statement_prepared_before_init_never_runs :
  forall (E : Engine) (lvl : option Z) (sql_text : option string)
         (args : list SqlValue) (w0 w : World E) (st : Statement),
    db w0 = None ->
    prepare E sql_text w0 = (Return st, w0) ->
    let null_error method :=
      type_error ("Cannot read properties of null (reading '" +:+ method +:+ "')") in
    let stmt := bind_params st args in
    fst (run E lvl stmt w) = Throw (null_error "run")
    /\ fst (all E lvl stmt w) = Throw (null_error "all")
    /\ fst (first E lvl stmt w) = Throw (null_error "get")
    /\ calls (snd (run E lvl stmt w)) = calls w
    /\ calls (snd (all E lvl stmt w)) = calls w
    /\ calls (snd (first E lvl stmt w)) = calls w
    /\ db (snd (run E lvl stmt w)) = db w
    /\ db (snd (all E lvl stmt w)) = db w
    /\ db (snd (first E lvl stmt w)) = db w.
Proof.
  intros E lvl sql_text args w0 w st Hdb.
  unfold prepare, bind, this_db, ret. rewrite Hdb. intros [= <-].
  unfold run, all, first, try_catch, bind, db_run, db_all, db_get, on_db, log, throw.
  cbn [_db sql params bind_params fst snd db calls console].
  repeat split.
Qed.

(** The statement is prepared on the unconnected adapter and run on a
    connected one. *)
Lemma statement_prepared_before_init_never_runs_witness :
  fst (run Mini.engine (Some 2)
         (bind_params (mkStatement (Some "SELECT * FROM pastes") [] RefNull) [])
         Mini.fresh)
  = Throw (type_error "Cannot read properties of null (reading 'run')").
Proof.
  apply (statement_prepared_before_init_never_runs Mini.engine (Some 2)
           (Some "SELECT * FROM pastes") [] Mini.closed Mini.fresh _ eq_refl eq_refl).
Defined.

(** X5.  [init] installs the connection as soon as [open] resolved.  When
    [open] rejects, the adapter keeps what it had (nothing, for a new
    adapter) and the PRAGMA is not sent; when the PRAGMA rejects, the new
    connection stays installed although [init] throws.  [init] logs its one
    info line and never an error. *)
Theorem init_installs_the_connection_before_the_pragma :
  forall (E : Engine) (lvl : option Z) (dbPath : string) (w : World E),
    let logged :=
      logMessage lvl LvInfo ("初始化SQLite数据库: " +:+ dbPath) [] (console w) in
    let pragma := "PRAGMA foreign_keys = ON;" in
    match engine_open E dbPath with
    | Throw e =>
        init E lvl dbPath w =
          (Throw e, mkWorld (db w) (calls w ++ [CallOpen dbPath]) logged)
    | Return conn =>
        init E lvl dbPath w =
          (fst (engine_exec E pragma conn),
           mkWorld (Some (snd (engine_exec E pragma conn)))
             (calls w ++ [CallOpen dbPath; CallExec pragma]) logged)
    end.
Proof.
  intros E lvl dbPath w logged pragma.
  unfold init, bind, log, open_db, this_db, db_exec, on_db, ret.
  cbn [db calls console].
  destruct (engine_open E dbPath) as [conn|e]; cbn [db calls console]; [|reflexivity].
  subst pragma. destruct (engine_exec E _ conn) as [[[]|e] conn'];
    cbn [fst snd]; rewrite <- app_assoc; reflexivity.
Qed.

End AdapterEdgeFacts.

(* ===================================================================== *)
(** * What the error log may contain *)
(* ===================================================================== *)

Module ErrorReportFacts.
Import Js Logging Json Express Bridge Measures.

#[local] Arguments String.append !_ _ / : simpl nomatch.

(** ** Masking *)

(** The first character of the masked text is a star or the original one,
    and the rest is again a masked text. *)
Lemma mask_from_head (pending : nat) (c : ascii) (s : string) :
  (exists n, mask_from pending (String c s) = String "*" (mask_from n s))
  \/ (pending = 0%nat
      /\ (forall k, sensitive_here (String c s) <> Some (S k))
      /\ mask_from pending (String c s) = String c (mask_from 0 s)).
Proof.
  destruct pending as [|n]; [|left; exists n; reflexivity].
  cbn [mask_from]. destruct (sensitive_here (String c s)) as [[|k]|].
  - right. repeat split. discriminate.
  - left. exists k. reflexivity.
  - right. repeat split. discriminate.
Qed.

Lemma lower_char_star (c : ascii) : lower_char c = "*"%char -> c = "*"%char.
Proof.
  destruct c as [[] [] [] [] [] [] [] []]; cbv; congruence.
Qed.

(** A word without a star that matches in the masked text matched in the
    original text already. *)
Lemma matches_here_masked (p : string) :
  forall pending s,
    star_free p = true ->
    matches_here p (mask_from pending s) = true ->
    matches_here p s = true.
Proof.
  induction p as [|a p IH]; intros pending s Hfree; [reflexivity|].
  destruct s as [|c s]; [discriminate|].
  unfold star_free in Hfree. cbn [list_ascii_of_string forallb] in Hfree.
  apply andb_true_iff in Hfree as [Ha Hp].
  apply negb_true_iff, Ascii.eqb_neq in Ha.
  destruct (mask_from_head pending c s) as [[n ->] | (_ & _ & ->)]; cbn [matches_here].
  - intros H. apply andb_true_iff in H as [H _]. apply Ascii.eqb_eq in H.
    exfalso. apply Ha. exact H.
  - intros H. apply andb_true_iff in H as [H1 H2]. rewrite H1. cbn [andb].
    apply (IH 0%nat). exact Hp. exact H2.
Qed.

Lemma sensitive_here_matches (p s : string) :
  In p sensitive_words ->
  matches_here p s = true ->
  exists k, sensitive_here s = Some (S k).
Proof.
  intros Hin Hmatch. unfold sensitive_here. cbn [List.filter].
  destruct (matches_here "key" s) eqn:H1; [eexists; reflexivity|].
  destruct (matches_here "password" s) eqn:H2; [eexists; reflexivity|].
  destruct (matches_here "token" s) eqn:H3; [eexists; reflexivity|].
  destruct (matches_here "secret" s) eqn:H4; [eexists; reflexivity|].
  destruct (matches_here "auth" s) eqn:H5; [eexists; reflexivity|].
  exfalso. cbn in Hin.
  destruct Hin as [<-|[<-|[<-|[<-|[<-|[]]]]]]; congruence.
Qed.

Lemma sensitive_words_star_free (p : string) :
  In p sensitive_words -> star_free p = true /\ exists a p', p = String a p' /\ a <> "*"%char.
Proof.
  cbn. intros [<-|[<-|[<-|[<-|[<-|[]]]]]]; (split; [reflexivity|]);
    eexists _, _; (split; [reflexivity|]); discriminate.
Qed.

(** No sensitive word matches at the start of a masked text. *)
Lemma masked_has_no_match_here (p : string) (pending : nat) (s : string) :
  In p sensitive_words ->
  matches_here p (mask_from pending s) = false.
Proof.
  intros Hin. destruct (sensitive_words_star_free p Hin) as (Hfree & a & p' & -> & Ha).
  destruct s as [|c s]; [reflexivity|].
  destruct (mask_from_head pending c s) as [[n Heq] | (_ & Hnone & Heq)].
  - rewrite Heq. cbn [matches_here].
    destruct (Ascii.eqb_spec a (lower_char "*")) as [->|]; [|reflexivity].
    exfalso. apply Ha. reflexivity.
  - destruct (matches_here (String a p') (mask_from pending (String c s))) eqn:Hm;
      [|reflexivity].
    apply matches_here_masked in Hm; [|assumption].
    destruct (sensitive_here_matches _ _ Hin Hm) as [k Hk].
    exfalso. exact (Hnone k Hk).
Qed.

Lemma matches_here_prefix (p s : string) :
  matches_here p s = String.prefix p (lower s).
Proof.
  revert s. induction p as [|a p IH]; intros [|c s]; cbn [matches_here lower String.prefix];
    try reflexivity.
  destruct (ascii_dec a (lower_char c)) as [->|Hne].
  - rewrite Ascii.eqb_refl. apply IH.
  - apply Ascii.eqb_neq in Hne. rewrite Hne. reflexivity.
Qed.

Lemma masked_includes_no_word (p : string) (s : string) :
  In p sensitive_words ->
  forall pending, includes (lower (mask_from pending s)) p = false.
Proof.
  intros Hin. induction s as [|c s IH]; intros pending.
  - destruct (sensitive_words_star_free p Hin) as (_ & a & p' & -> & _). reflexivity.
  - pose proof (masked_has_no_match_here p pending (String c s) Hin) as Hhere.
    rewrite matches_here_prefix in Hhere.
    destruct (mask_from_head pending c s) as [[n Heq] | (_ & _ & Heq)];
      rewrite Heq in *; cbn [lower includes]; unfold startsWith;
      cbn [lower] in Hhere; rewrite Hhere; cbn [orb]; apply IH.
Qed.

Lemma mask_from_length (s : string) :
  forall pending, String.length (mask_from pending s) = String.length s.
Proof.
  induction s as [|c s IH]; intros pending; [reflexivity|].
  destruct (mask_from_head pending c s) as [[n ->] | (_ & _ & ->)];
    cbn [String.length]; now rewrite IH.
Qed.

Lemma mask_from_get (s : string) :
  forall pending i c,
    String.get i (mask_from pending s) = Some c ->
    c = "*"%char \/ String.get i s = Some c.
Proof.
  induction s as [|c0 s IH]; intros pending i c; [discriminate|].
  destruct (mask_from_head pending c0 s) as [[n ->] | (_ & _ & ->)];
    destruct i as [|i]; cbn [String.get].
  - intros [= <-]. now left.
  - apply IH.
  - intros [= <-]. now right.
  - apply IH.
Qed.

Lemma mask_from_idempotent (s : string) :
  forall pending, mask_from 0 (mask_from pending s) = mask_from pending s.
Proof.
  induction s as [|c s IH]; intros pending; [reflexivity|].
  assert (Hnone : forall k, sensitive_here (mask_from pending (String c s)) <> Some (S k)).
  { intros k Hk. unfold sensitive_here in Hk. cbn [List.filter] in Hk.
    rewrite !masked_has_no_match_here in Hk by (cbn; tauto). discriminate. }
  destruct (mask_from_head pending c s) as [[n Heq] | (_ & _ & Heq)];
    rewrite Heq in *; cbn [mask_from];
    (destruct (sensitive_here _) as [[|k]|]; [| exfalso; exact (Hnone k eq_refl) |]);
    now rewrite IH.
Qed.

(** X6.  The message written to the error log holds none of the words [key],
    [password], [token], [secret], [auth], in any mix of upper and lower
    case: every occurrence in the error's message was replaced. *)
Theorem masked_message_has_no_sensitive_word :
  forall (message word : string),
    In word ["key"; "password"; "token"; "secret"; "auth"] ->
    includes (lower (mask_sensitive message)) word = false.
Proof.
  intros message word Hin. apply masked_includes_no_word. exact Hin.
Qed.

Lemma masked_message_has_no_sensitive_word_witness :
  includes (lower (mask_sensitive "Invalid API-Key or PASSWORD for AuthToken")) "token"
  = false.
Proof.
  apply (masked_message_has_no_sensitive_word
           "Invalid API-Key or PASSWORD for AuthToken" "token").
  cbn. tauto.
Defined.

(** X7.  Masking changes nothing but the masked characters: the text keeps its
    length, every character is either a star or the character that was at
    that place, and masking a masked text changes nothing. *)
Theorem masking_only_replaces_characters :
  forall message : string,
    String.length (mask_sensitive message) = String.length message
    /\ (forall i c, String.get i (mask_sensitive message) = Some c ->
                    c = "*"%char \/ String.get i message = Some c)
    /\ mask_sensitive (mask_sensitive message) = mask_sensitive message.
Proof.
  intros message. unfold mask_sensitive. split; [apply mask_from_length|].
  split; [apply mask_from_get | apply mask_from_idempotent].
Qed.

(** ** The logged stack *)

Lemma split_lines_nonempty (s : string) : forall current, split_lines current s <> [].
Proof.
  induction s as [|c s IH]; intros current; cbn [split_lines]; [discriminate|].
  destruct (Ascii.eqb c (ascii_of_nat 10)); [discriminate | apply IH].
Qed.

Lemma concat_cons (sep x : string) (l : list string) :
  l <> [] -> String.concat sep (x :: l) = x +:+ sep +:+ String.concat sep l.
Proof.
  destruct l; [congruence | reflexivity].
Qed.

Lemma count_newlines_append (a b : string) :
  count_newlines (a +:+ b) = (count_newlines a + count_newlines b)%nat.
Proof.
  induction a as [|c a IH]; cbn [String.append count_newlines]; [reflexivity|].
  rewrite IH. lia.
Qed.

Lemma append_empty_r (a : string) : a +:+ "" = a.
Proof.
  induction a as [|c a IH]; cbn [String.append]; [reflexivity | now rewrite IH].
Qed.

Lemma prefix_append (a b : string) : String.prefix a (a +:+ b) = true.
Proof.
  induction a as [|c a IH]; cbn [String.append String.prefix]; [now destruct b|].
  destruct (ascii_dec c c); [exact IH | congruence].
Qed.

(** The first [S k] lines, joined again, are the text up to its line break
    number [S k], if it has that many. *)
Lemma first_lines_cut (s : string) :
  forall k current,
    exists rest,
      current +:+ s
      = String.concat (String newline "") (firstn (S k) (split_lines current s)) +:+ rest
      /\ (count_newlines
            (String.concat (String newline "") (firstn (S k) (split_lines current s)))
          <= count_newlines current + k)%nat
      /\ ((count_newlines s <= k)%nat -> rest = "").
Proof.
  induction s as [|c s IH]; intros k current.
  - exists "". cbn [split_lines firstn]. rewrite firstn_nil. cbn [String.concat].
    rewrite !append_empty_r. repeat split. lia.
  - cbn [split_lines count_newlines]. fold newline.
    destruct (Ascii.eqb_spec c newline) as [->|Hc].
    + cbn [firstn]. destruct k as [|k].
      * exists (String newline s). rewrite firstn_O. cbn [String.concat].
        repeat split; [lia|]. cbn. lia.
      * destruct (IH k "") as (rest & Heq & Hcount & Hrest).
        exists rest.
        assert (Hne : firstn (S k) (split_lines "" s) <> []).
        { pose proof (split_lines_nonempty s "") as H.
          destruct (split_lines "" s); [congruence | discriminate]. }
        rewrite (concat_cons _ _ _ Hne).
        rewrite !JsonFacts.append_assoc, <- Heq. cbn [String.append].
        repeat split.
        -- rewrite !count_newlines_append. cbn [count_newlines].
           rewrite Ascii.eqb_refl. cbn [count_newlines] in Hcount. lia.
        -- intros H. apply Hrest. lia.
    + destruct (IH k (current +:+ String c "")) as (rest & Heq & Hcount & Hrest).
      exists rest. rewrite <- Heq, JsonFacts.append_assoc. cbn [String.append].
      repeat split.
      * rewrite count_newlines_append in Hcount. cbn [count_newlines] in Hcount.
        apply Ascii.eqb_neq in Hc. rewrite Hc in Hcount. lia.
      * intros H. apply Hrest. cbn in H. exact H.
Qed.



End ErrorReportFacts.

(* ===================================================================== *)
(** * [createErrorResponse] *)
(* ===================================================================== *)

Module ErrorResponseFacts.
Import Js Logging Json Express Bridge Measures ErrorReportFacts.

Lemma substring_length (s : string) :
  forall n m, (String.length (String.substring n m s) <= m)%nat.
Proof.
  induction s as [|c s IH]; intros [|n] [|m]; cbn [String.substring String.length];
    try lia.
  - specialize (IH 0%nat m). lia.
  - apply IH.
  - apply IH.
Qed.


End ErrorResponseFacts.

(* ===================================================================== *)
(** * The bridge beyond the claimed cases *)
(* ===================================================================== *)

Module BridgeEdgeFacts.
Import Js Logging Json Express Bridge BridgeFacts.

#[local] Arguments String.append !_ _ / : simpl nomatch.

(** ** Substrings *)

Lemma prefix_append_l (a b t : string) :
  String.prefix (a +:+ b) t = true -> String.prefix a t = true.
Proof.
  revert t. induction a as [|c a IH]; intros [|d t]; cbn [String.append String.prefix];
    try reflexivity; try discriminate.
  destruct (ascii_dec c d); [apply IH | discriminate].
Qed.

Lemma includes_here (t sub : string) :
  String.prefix sub t = true -> includes t sub = true.
Proof.
  intros H. destruct t; cbn [includes]; unfold startsWith; rewrite H; reflexivity.
Qed.

Lemma includes_later (c : ascii) (t sub : string) :
  includes t sub = true -> includes (String c t) sub = true.
Proof.
  intros H. cbn [includes]. rewrite H. apply orb_true_r.
Qed.

Lemma prefix_append_r (a b t : string) :
  String.prefix (a +:+ b) t = true -> includes t b = true.
Proof.
  revert t. induction a as [|c a IH]; intros t; cbn [String.append].
  - apply includes_here.
  - destruct t as [|d t]; cbn [String.prefix]; [discriminate|].
    destruct (ascii_dec c d); [|discriminate].
    intros H. apply includes_later, IH, H.
Qed.

(** A text that contains a word contains every part of the word. *)
Lemma includes_append (s a b : string) :
  includes s (a +:+ b) = true -> includes s a = true /\ includes s b = true.
Proof.
  induction s as [|c s IH]; intros H; cbn [includes] in H; unfold startsWith in H.
  - rewrite orb_false_r in H. split.
    + apply includes_here. eapply prefix_append_l, H.
    + eapply prefix_append_r, H.
  - apply orb_true_iff in H as [H|H].
    + split.
      * apply (includes_here (String c s)). eapply prefix_append_l, H.
      * eapply prefix_append_r, H.
    + destruct (IH H) as [Ha Hb]. split; apply includes_later; assumption.
Qed.

Lemma includes_without (s a b : string) :
  includes s a = false \/ includes s b = false -> includes s (a +:+ b) = false.
Proof.
  intros H. destruct (includes s (a +:+ b)) eqn:Hab; [|reflexivity].
  destruct (includes_append _ _ _ Hab) as [Ha Hb]. destruct H; congruence.
Qed.

Section Requests.

Variable lvl : option Z.
Variable existsSync : string -> bool.
Variable form_urlencode : JsVal -> string.
Variable runtime : Runtime.

(** The body chosen for a method other than collection-create when the
    first part found nothing. *)
Lemma select_body_plain (req : Request) (console : list LogEntry) :
  may_carry_body (method req) = true ->
  method req <> "MKCOL" ->
  includes (header req "content-type") "multipart/form-data" = false ->
  exists console',
    select_body lvl existsSync form_urlencode req console
    = (Return (body_by_content_type form_urlencode req (header req "content-type")),
       console').
Proof.
  intros Hcarry Hm Hmulti. unfold select_body. rewrite Hcarry.
  destruct (body_from_upload_plain lvl existsSync req console Hmulti)
    as (ct & console' & Hfound & Hct).
  unfold bind. rewrite Hfound. cbn [fst snd].
  destruct (String.eqb_spec (method req) "MKCOL") as [|_]; [contradiction|].
  rewrite (Hct Hm). exists console'. reflexivity.
Qed.

(** The body of a canonical request that was returned is the one
    [select_body] chose. *)
Lemma createAdaptedRequest_body (req : Request) (console : list LogEntry) chosen
    creq console' :
  (forall console1, exists console2,
      select_body lvl existsSync form_urlencode req console1 = (Return chosen, console2)) ->
  createAdaptedRequest lvl existsSync form_urlencode runtime req console
  = (Return creq, console') ->
  cr_body creq = chosen
  /\ cr_method creq = method req
  /\ cr_headers creq = headers req
  /\ cr_duplex creq = match chosen with Some _ => Some "half" | None => None end.
Proof.
  intros Hsel Hreq.
  destruct (createAdaptedRequest_returned lvl existsSync form_urlencode runtime req console
              creq console' Hreq) as (console1 & Hsel' & Hinit & _).
  destruct (Hsel console1) as (console2 & Hchosen).
  rewrite Hchosen in Hsel'. injection Hsel' as Hbody Hconsole.
  rewrite Hinit, <- Hbody. repeat split.
Qed.

End Requests.

(** X10.  A payload that reached the bridge unparsed is forwarded as it is, for
    every method that may carry a body except collection-create and outside
    multipart requests: in the canonical request that [createAdaptedRequest]
    returns, the body is the bytes of a Buffer, when the content type names
    neither JSON nor a URL-encoded form, and the text of a non-empty string
    under any content type.  A Buffer under a content type that contains
    [json] is not forwarded: the application gets the JSON text of the
    Buffer object, its type tag and the list of its bytes. *)
Theorem unparsed_payload_is_forwarded_unchanged :
  forall (lvl : option Z) (existsSync : string -> bool) (form_urlencode : JsVal -> string)
         (runtime : Runtime) (req : Request) (console : list LogEntry)
         (creq : CanonicalRequest) (console' : list LogEntry),
    may_carry_body (method req) = true ->
    method req <> "MKCOL" ->
    includes (header req "content-type") "multipart/form-data" = false ->
    createAdaptedRequest lvl existsSync form_urlencode runtime req console
    = (Return creq, console') ->
    (forall bytes,
        body req = Buffer bytes ->
        includes (header req "content-type") "json" = false ->
        includes (header req "content-type") "application/x-www-form-urlencoded" = false ->
        cr_body creq = Some (BodyBytes bytes) /\ cr_duplex creq = Some "half")
    /\ (forall text,
          body req = Value (JStr text) ->
          text <> "" ->
          cr_body creq = Some (BodyText text) /\ cr_duplex creq = Some "half")
    /\ (forall bytes,
          body req = Buffer bytes ->
          includes (header req "content-type") "json" = true ->
          cr_body creq =
            Some (BodyText
                    (stringify
                       (JObj [("type", JStr "Buffer");
                              ("data", JArr (map (fun c => number (Z.of_nat (nat_of_ascii c)))
                                               (list_ascii_of_string bytes)))])))).
Proof.
  intros lvl existsSync form_urlencode runtime req console creq console' Hcarry Hm Hmulti Hreq.
  destruct (createAdaptedRequest_body lvl existsSync form_urlencode runtime req console
              (body_by_content_type form_urlencode req (header req "content-type"))
              creq console')
    as (Hbody & _ & _ & Hduplex); [|exact Hreq|].
  { intros console1. apply select_body_plain; assumption. }
  rewrite Hduplex, Hbody. unfold body_by_content_type. cbv zeta.
  split; [|split].
  - intros bytes -> Hjson Hform.
    change "application/json" with ("application/" +:+ "json").
    rewrite (includes_without _ "application/" "json") by now right.
    rewrite Hjson, Hform. cbn [orb andb truthy is_object is_buffer].
    destruct (_ || _); cbn [andb]; split; reflexivity.
  - intros text -> Htext.
    cbn [truthy is_object is_buffer]. rewrite !andb_false_r.
    apply String.eqb_neq in Htext. rewrite Htext. split; reflexivity.
  - intros bytes -> Hjson.
    rewrite Hjson, orb_true_r. reflexivity.
Qed.

Lemma unparsed_payload_is_forwarded_unchanged_witness :
  exists creq console',
    createAdaptedRequest (Some 2) (fun _ => false) (fun _ => "") sample_runtime
      (bridge_request "PUT" "/dav/notes.bin" "application/octet-stream"
         (Buffer "raw bytes")) []
    = (Return creq, console')
    /\ cr_body creq = Some (BodyBytes "raw bytes").
Proof.
  eexists _, _. split; [reflexivity|].
  destruct (unparsed_payload_is_forwarded_unchanged (Some 2) (fun _ => false) (fun _ => "")
              sample_runtime
              (bridge_request "PUT" "/dav/notes.bin" "application/octet-stream"
                 (Buffer "raw bytes")) [] _ _ eq_refl ltac:(discriminate) eq_refl eq_refl)
    as (Hbuffer & _).
  apply (Hbuffer "raw bytes"); reflexivity.
Defined.

(** X11.  In a multipart request, for every method that may carry a body except
    collection-create, the spooled file wins over everything else: in the
    canonical request that [createAdaptedRequest] returns, when the request
    names a temporary file that exists, the body is a read stream on that
    file, whatever the parsed body is; when it does not, the raw body is
    used if there is one. *)
Theorem multipart_body_comes_from_the_spooled_file :
  forall (lvl : option Z) (existsSync : string -> bool) (form_urlencode : JsVal -> string)
         (runtime : Runtime) (req : Request) (console : list LogEntry)
         (creq : CanonicalRequest) (console' : list LogEntry),
    may_carry_body (method req) = true ->
    method req <> "MKCOL" ->
    includes (header req "content-type") "multipart/form-data" = true ->
    createAdaptedRequest lvl existsSync form_urlencode runtime req console
    = (Return creq, console') ->
    (forall p,
        tempFilePath req = Some p -> p <> "" -> existsSync p = true ->
        cr_body creq = Some (BodyFileStream p) /\ cr_duplex creq = Some "half")
    /\ (forall raw,
          spooled_file existsSync req = None -> rawBody req = Some raw ->
          cr_body creq = Some (BodyBytes raw) /\ cr_duplex creq = Some "half").
Proof.
  intros lvl existsSync form_urlencode runtime req console creq console' Hcarry Hm Hmulti Hreq.
  destruct (createAdaptedRequest_returned lvl existsSync form_urlencode runtime req console
              creq console' Hreq) as (console1 & Hsel & Hinit & _).
  assert (cr_duplex creq = match cr_body creq with Some _ => Some "half" | None => None end)
    as Hduplex by (rewrite Hinit; reflexivity).
  revert Hsel. unfold select_body, body_from_upload. rewrite Hcarry, Hmulti.
  destruct (String.eqb_spec (method req) "MKCOL") as [|_]; [contradiction|].
  split.
  - intros p Hp Hne Hexists. revert Hsel. unfold spooled_file. rewrite Hp.
    apply String.eqb_neq in Hne. rewrite Hne, Hexists. cbn [negb andb].
    unfold bind, ret, Bridge.log. cbn [fst snd]. intros [= Hbody _].
    rewrite Hduplex, <- Hbody. split; reflexivity.
  - intros raw Hnone Hraw. revert Hsel. rewrite Hnone, Hraw.
    unfold bind, ret, Bridge.log. cbn [fst snd]. intros [= Hbody _].
    rewrite Hduplex, <- Hbody. split; reflexivity.
Qed.

Lemma multipart_body_comes_from_the_spooled_file_witness :
  exists creq console',
    createAdaptedRequest (Some 2) (fun _ => true) (fun _ => "") sample_runtime
      Scenarios.spooled_request []
    = (Return creq, console')
    /\ cr_body creq = Some (BodyFileStream "/tmp/upload-00ff").
Proof.
  eexists _, _. split; [reflexivity|].
  destruct (multipart_body_comes_from_the_spooled_file (Some 2) (fun _ => true)
              (fun _ => "") sample_runtime Scenarios.spooled_request [] _ _
              eq_refl ltac:(discriminate) eq_refl eq_refl)
    as (Hfile & _).
  apply (Hfile "/tmp/upload-00ff"); [reflexivity | discriminate | reflexivity].
Defined.

End BridgeEdgeFacts.

(* ===================================================================== *)
(** * Responses of the application on their way out *)
(* ===================================================================== *)

Module ResponseFacts.
Import Js Logging Json Express Bridge Measures BridgeFacts BridgeEdgeFacts.

Lemma set_all_keeps (l : list (string * string)) (res : Response) :
  statusCode (set_all l res) = statusCode res /\ sent (set_all l res) = sent res.
Proof.
  induction l as [|kv l IH]; [split; reflexivity|]. exact IH.
Qed.

Lemma set_all_headers (l : list (string * string)) (res : Response) :
  Forall (fun kv => lower (fst kv) = fst kv) l ->
  res_headers (set_all l res) = list_to_map l ∪ res_headers res.
Proof.
  induction 1 as [|[k v] l Hk _ IH]; cbn [set_all fold_right list_to_map].
  - symmetry. apply (left_id_L ∅ (∪)).
  - cbn [setHeader res_headers fst snd] in *. fold (set_all l res).
    rewrite IH, Hk. apply insert_union_l.
Qed.

Lemma copy_headers_keeps (from : gmap string string) (res : Response) :
  statusCode (copy_headers from res) = statusCode res
  /\ sent (copy_headers from res) = sent res.
Proof.
  apply set_all_keeps.
Qed.

(** X12.  The loop that copies the headers of the application's response, whose
    names are in lower case, onto the Express response: a header of the
    application replaces one of the same name set earlier by a middleware,
    and every other header set earlier stays.  (The content type apart, to
    which Express may add a character set.) *)
Theorem application_headers_replace_earlier_ones :
  forall (from : gmap string string) (res : Response) (name : string),
    map_Forall (fun k _ => lower k = k) from ->
    name <> "content-type" ->
    res_headers (copy_headers from res) !! name =
      match from !! name with
      | Some value => Some value
      | None => res_headers res !! name
      end
    /\ statusCode (copy_headers from res) = statusCode res
    /\ sent (copy_headers from res) = sent res.
Proof.
  intros from res name Hlower _. split; [|apply copy_headers_keeps].
  unfold copy_headers. fold (set_all (map_to_list from) res).
  rewrite set_all_headers.
  - rewrite list_to_map_to_list, lookup_union.
    destruct (from !! name), (res_headers res !! name); reflexivity.
  - apply list.Forall_forall. intros [k v] Hin.
    apply elem_of_map_to_list in Hin. exact (Hlower k v Hin).
Qed.

Lemma application_headers_replace_earlier_ones_witness :
  res_headers
    (copy_headers Scenarios.application_headers
       (setHeader "Allow" "OPTIONS,PROPFIND" fresh_response)) !! "allow"
  = Some "GET".
Proof.
  refine (proj1 (application_headers_replace_earlier_ones Scenarios.application_headers
                   (setHeader "Allow" "OPTIONS,PROPFIND" fresh_response) "allow" _ _)).
  - unfold Scenarios.application_headers.
    apply map_Forall_insert_2; [reflexivity|]. apply map_Forall_singleton. reflexivity.
  - discriminate.
Defined.

(** X13.  A response of the application with no body is ended without one, and a
    body whose content type names neither JSON, XML nor text reaches the
    client byte for byte.  In both cases the status is the application's
    and nothing is thrown, unless that status is one Node cannot write (a
    number outside 100 to 999): then the write throws a RangeError and
    nothing is sent. *)
Theorem binary_response_is_relayed_unchanged :
  forall (runtime : Runtime) (workerResponse : WorkerResponse) (expressRes : Response),
    let contentType :=
      match wr_headers workerResponse !! "content-type" with
      | Some ct => ct
      | None => ""
      end in
    wr_body workerResponse = None
    \/ (includes contentType "application/json" = false
        /\ includes contentType "application/xml" = false
        /\ includes contentType "text/" = false) ->
    exists res',
      convertWorkerResponseToExpress runtime workerResponse expressRes
      = (if valid_status (wr_status workerResponse) then Return tt
         else Throw (range_error (wr_status workerResponse)), res')
      /\ statusCode res' = wr_status workerResponse
      /\ sent res' =
           if valid_status (wr_status workerResponse)
           then Some (match wr_body workerResponse with
                      | Some bytes => PayloadBuffer bytes
                      | None => PayloadNone
                      end)
           else sent expressRes.
Proof.
  intros runtime workerResponse expressRes contentType Hkind.
  unfold convertWorkerResponseToExpress. fold contentType.
  assert (Hwritten : forall p,
             exists res',
               respond p (copy_headers (wr_headers workerResponse)
                            (status (wr_status workerResponse) expressRes))
               = (if valid_status (wr_status workerResponse) then Return tt
                  else Throw (range_error (wr_status workerResponse)), res')
               /\ statusCode res' = wr_status workerResponse
               /\ sent res' =
                    if valid_status (wr_status workerResponse) then Some p
                    else sent expressRes).
  { intros p. unfold respond. rewrite (proj1 (copy_headers_keeps _ _)).
    cbn [status statusCode].
    destruct (valid_status (wr_status workerResponse)); eexists;
      (split; [reflexivity|]); cbn [finish statusCode sent];
      rewrite ?(proj1 (copy_headers_keeps _ _)), ?(proj2 (copy_headers_keeps _ _));
      split; reflexivity. }
  destruct (wr_body workerResponse) as [bytes|].
  - destruct Hkind as [|(Hjson & Hxml & Htext)]; [discriminate|].
    change "text/xml" with ("text/" +:+ "xml").
    rewrite Hjson, Hxml, Htext, (includes_without _ "text/" "xml") by now left.
    cbn [orb]. apply Hwritten.
  - apply Hwritten.
Qed.

Lemma binary_response_is_relayed_unchanged_witness :
  exists res',
    convertWorkerResponseToExpress sample_runtime Scenarios.download fresh_response
    = (Return tt, res')
    /\ statusCode res' = 206
    /\ sent res' = Some (PayloadBuffer "%PDF-1.7 ...").
Proof.
  apply (binary_response_is_relayed_unchanged sample_runtime Scenarios.download
           fresh_response).
  right. repeat split; reflexivity.
Defined.

(** ** The wildcard route as a whole *)

Section Route.

Variable lvl : option Z.
Variable INTERNAL_ERROR : Z.
Variable existsSync : string -> bool.
Variable form_urlencode : JsVal -> string.
Variable runtime : Runtime.
Variable AppState : Type.
Variable fetch : CanonicalRequest -> AppState -> Outcome WorkerResponse * AppState.

Lemma dispatch_calls_the_application_once (req : Request) (w : RouteWorld AppState)
    outcome w1 :
  dispatch lvl existsSync form_urlencode runtime fetch req w = (outcome, w1) ->
  route_app w1 = app_after lvl existsSync form_urlencode runtime fetch req w
  /\ (outcome = Return tt -> sent (route_res w1) <> None).
Proof.
  unfold dispatch, app_after, bind, with_console, app_fetch, with_res.
  destruct (createAdaptedRequest _ _ _ _ req (route_console w)) as [[creq|e1] console1].
  2: { intros [= <- <-]. split; [reflexivity | discriminate]. }
  cbn [fst snd route_console route_res route_app route_entropy].
  destruct (fetch creq (route_app w)) as [[response|e2] app'].
  2: { intros [= <- <-]. split; [reflexivity | discriminate]. }
  cbn [fst snd route_console route_res route_app route_entropy].
  unfold convertWorkerResponseToExpress, respond.
  repeat match goal with
         | |- context [match ?x with _ => _ end] =>
             lazymatch x with
             | context [match _ with _ => _ end] => fail
             | _ => destruct x eqn:?
             end
         end;
    intros [= <- <-]; cbn [route_res route_app sent finish];
    (split; [reflexivity|]); discriminate.
Qed.

End Route.



End ResponseFacts.

(* ===================================================================== *)
(** * The initialisation middleware over many requests *)
(* ===================================================================== *)

Module StartupEdgeFacts.
Import Js Logging Persistence Startup StartupFacts.

(** X15.  The initialisation middleware never answers with an error and never
    throws: whatever the driver and the schema check do, the request goes on
    to [next()] with an environment whose secret is not empty (the built-in
    default when the variable is unset or empty).  After any request the
    flag is set, so the middleware is idempotent: a second run changes
    nothing, and a server whose flag is already set is left as it is. *)
Theorem initialisation_middleware_is_idempotent :
  forall (E : Engine) (lvl : option Z) (dbPath : string) (check : M (World E) unit)
         (secret : option string) (s : Server E),
    exists env s1,
      db_init_middleware E lvl dbPath check secret s = (Return (CallNext env), s1)
      /\ isDbInitialized s1 = true
      /\ ENCRYPTION_SECRET env <> ""
      /\ (truthy_str secret = true -> Some (ENCRYPTION_SECRET env) = secret)
      /\ (truthy_str secret = false -> ENCRYPTION_SECRET env = "default-encryption-key")
      /\ (isDbInitialized s = true -> s1 = s)
      /\ db_init_middleware E lvl dbPath check secret s1 = (Return (CallNext env), s1).
Proof.
  intros E lvl dbPath check secret s.
  set (env := mkEnv (if truthy_str secret
                     then match secret with
                          | Some text => text
                          | None => "default-encryption-key"
                          end
                     else "default-encryption-key")).
  assert (Hlater : forall s2 : Server E,
             isDbInitialized s2 = true ->
             db_init_middleware E lvl dbPath check secret s2 = (Return (CallNext env), s2)).
  { intros s2 Hset. unfold db_init_middleware, try_catch, bind, ret.
    rewrite Hset. reflexivity. }
  assert (Hsecret : ENCRYPTION_SECRET env <> ""
                    /\ (truthy_str secret = true -> Some (ENCRYPTION_SECRET env) = secret)
                    /\ (truthy_str secret = false ->
                        ENCRYPTION_SECRET env = "default-encryption-key")).
  { subst env. cbn [ENCRYPTION_SECRET]. destruct secret as [text|]; cbn [truthy_str].
    - destruct (String.eqb_spec text "") as [->|Hne]; cbn [negb];
        repeat split; try discriminate; try assumption.
    - repeat split; discriminate. }
  destruct Hsecret as (Hne & Hset & Hunset).
  destruct (isDbInitialized s) eqn:Hflag.
  - exists env, s. rewrite (Hlater s Hflag). repeat split; assumption.
  - unfold db_init_middleware at 1.
    unfold try_catch, bind, ret, server_log, set_initialized, on_adapter, Persistence.log.
    cbn [fst snd isDbInitialized adapter]. rewrite Hflag. cbn [negb].
    match goal with
    | |- context [initialise E lvl dbPath check ?s0] =>
        destruct (initialise E lvl dbPath check s0) as [[[]|e] s1] eqn:Hinit;
        pose proof (initialise_keeps_flag _ _ _ _ _ _ _ Hinit) as Hkept
    end; cbn [isDbInitialized adapter] in Hkept.
    + exists env, s1. fold env. repeat split; try assumption; try discriminate.
      apply Hlater. assumption.
    + eexists env, _. fold env. split; [reflexivity|].
      cbn [isDbInitialized adapter].
      repeat split; try assumption; try discriminate.
      apply Hlater. assumption.
Qed.

End StartupEdgeFacts.

(* ===================================================================== *)
(** * Spooling: the files touched and the calls of [next] *)
(* ===================================================================== *)

Module SpoolEdgeFacts.
Import Js Logging Json Express Spool SpoolFacts.

Section Events.

Variable lvl : option Z.
Variable tmpdir : string.

Lemma run_app (first second : list Event) (w : World) :
  run lvl (first ++ second) w = run lvl second (run lvl first w).
Proof.
  unfold run. apply fold_left_app.
Qed.

(** The state of a spooled upload once the chunks have arrived. *)
Lemma spooled_after_data (random : string) (chunks : list string) (w : World) :
  is_multipart_post (req w) = true ->
  let p := temp_file_path tmpdir random in
  let received := run lvl (map EvData chunks) (spool_middleware lvl tmpdir random w) in
  stream received = Some (p, Writable)
  /\ files received !! p = Some (joined chunks)
  /\ next_calls received = next_calls w
  /\ req received = set_tempFilePath (Some p) (req w).
Proof.
  intros Hpost p received. subst received.
  rewrite (spool_middleware_spools lvl tmpdir random w Hpost). fold p.
  set (spooled := mkWorld _ _ _ _ _).
  apply (data_is_appended lvl p chunks spooled ""); [reflexivity | apply lookup_insert_eq].
Qed.

(** An event touches no file but the one the stream writes. *)
Lemma step_keeps_other_files (p q : string) (ev : Event) (w : World) :
  spooling p w -> q <> p -> files (step lvl ev w) !! q = files w !! q.
Proof.
  intros [[st Hst] Hreq] Hq. unfold step. rewrite Hst.
  destruct ev as [chunk| | |err|err|], st; try reflexivity.
  - destruct (files w !! p); [|reflexivity]. cbn [files]. now rewrite lookup_insert_ne.
  - unfold on_stream_error, unlinkSync, call_next, set_stream, log.
    cbn [files console req stream next_calls].
    destruct (files w !! p); [|reflexivity]. cbn [files]. now rewrite lookup_delete_ne.
  - unfold on_stream_error, unlinkSync, call_next, set_stream, log.
    cbn [files console req stream next_calls].
    destruct (files w !! p); [|reflexivity]. cbn [files]. now rewrite lookup_delete_ne.
  - unfold on_request_error, call_next, set_stream, log. rewrite Hst. reflexivity.
  - unfold on_request_error, call_next, set_stream, log. rewrite Hst. reflexivity.
  - unfold on_request_error, call_next, set_stream, log. rewrite Hst. reflexivity.
  - unfold on_request_error, call_next, set_stream, log. rewrite Hst. reflexivity.
  - unfold on_response_finish, unlinkSync, log.
    destruct Hreq as [Hreq|[Hreq _]]; rewrite Hreq; [|reflexivity].
    destruct (String.eqb p ""); [reflexivity|]. cbn [files console req stream next_calls].
    destruct (files w !! p); [|reflexivity]. cbn [files]. now rewrite lookup_delete_ne.
  - unfold on_response_finish, unlinkSync, log.
    destruct Hreq as [Hreq|[Hreq _]]; rewrite Hreq; [|reflexivity].
    destruct (String.eqb p ""); [reflexivity|]. cbn [files console req stream next_calls].
    destruct (files w !! p); [|reflexivity]. cbn [files]. now rewrite lookup_delete_ne.
  - unfold on_response_finish, unlinkSync, log.
    destruct Hreq as [Hreq|[Hreq _]]; rewrite Hreq; [|reflexivity].
    destruct (String.eqb p ""); [reflexivity|]. cbn [files console req stream next_calls].
    destruct (files w !! p); [|reflexivity]. cbn [files]. now rewrite lookup_delete_ne.
  - unfold on_response_finish, unlinkSync, log.
    destruct Hreq as [Hreq|[Hreq _]]; rewrite Hreq; [|reflexivity].
    destruct (String.eqb p ""); [reflexivity|]. cbn [files console req stream next_calls].
    destruct (files w !! p); [|reflexivity]. cbn [files]. now rewrite lookup_delete_ne.
Qed.

Lemma run_keeps_other_files (p q : string) (events : list Event) :
  forall w, spooling p w -> q <> p -> files (run lvl events w) !! q = files w !! q.
Proof.
  induction events as [|ev events IH]; intros w Hsp Hq; [reflexivity|].
  rewrite (run_cons lvl).
  rewrite (IH (step lvl ev w) (step_keeps_spooling lvl p ev w Hsp) Hq).
  now apply (step_keeps_other_files p).
Qed.

Lemma run_without_stream (events : list Event) (w : World) :
  stream w = None -> run lvl events w = w.
Proof.
  intros Hst. induction events as [|ev events IH]; [reflexivity|].
  rewrite (run_cons lvl). unfold step at 1. rewrite Hst. exact IH.
Qed.

End Events.

(** X16.  The middleware and its handlers never create, change or remove any file
    but the temporary file of the request, whatever the request is and
    whatever events follow, in any order. *)
Theorem spooling_touches_only_its_temporary_file :
  forall (lvl : option Z) (tmpdir random : string) (w : World)
         (events : list Event) (q : string),
    stream w = None ->
    q <> temp_file_path tmpdir random ->
    files (run lvl events (spool_middleware lvl tmpdir random w)) !! q = files w !! q.
Proof.
  intros lvl tmpdir random w events q Hst Hq.
  destruct (is_multipart_post (req w)) eqn:Hpost.
  - rewrite (run_keeps_other_files lvl _ q events _
               (spool_middleware_spooling lvl tmpdir random w Hpost) Hq).
    rewrite (spool_middleware_spools lvl tmpdir random w Hpost). cbn [files].
    now rewrite lookup_insert_ne.
  - assert (Hsame : files (spool_middleware lvl tmpdir random w) = files w
                    /\ stream (spool_middleware lvl tmpdir random w) = None).
    { unfold spool_middleware. rewrite Hpost. split; [reflexivity | exact Hst]. }
    destruct Hsame as [Hfiles Hstream].
    rewrite (run_without_stream lvl events _ Hstream). now rewrite Hfiles.
Qed.

Lemma spooling_touches_only_its_temporary_file_witness :
  files (run (Some 2)
           [EvData "a"; EvStreamError sample_error; EvRequestError sample_error;
            EvResponseFinish]
           (spool_middleware (Some 2) "/tmp" sample_random Scenarios.busy_upload))
    !! "/tmp/upload-of-another-request"
  = Some "kept".
Proof.
  rewrite (spooling_touches_only_its_temporary_file (Some 2) "/tmp" sample_random
             Scenarios.busy_upload _ "/tmp/upload-of-another-request" eq_refl).
  - reflexivity.
  - discriminate.
Defined.

(** X17.  When the client goes away during an upload, [next] is called twice for
    the one request: with the error, by the handler of the request error,
    and again without one, by the handler of the finish event that the
    ended stream emits.  The partial file is still there. *)
Theorem aborted_upload_calls_next_twice :
  forall (lvl : option Z) (tmpdir random : string) (w : World)
         (chunks : list string) (err : JsError),
    is_multipart_post (req w) = true ->
    let p := temp_file_path tmpdir random in
    let aborted :=
      run lvl (map EvData chunks ++ [EvRequestError err; EvStreamFinish])
        (spool_middleware lvl tmpdir random w) in
    next_calls aborted = next_calls w ++ [Some err; None]
    /\ stream aborted = Some (p, Finished)
    /\ files aborted !! p = Some (joined chunks)
    /\ tempFilePath (req aborted) = Some p.
Proof.
  intros lvl tmpdir random w chunks err Hpost p aborted. subst aborted.
  destruct (spooled_after_data lvl tmpdir random chunks w Hpost)
    as (Hst & Hfile & Hnext & Hreq).
  fold p in Hst, Hfile, Hreq. rewrite run_app.
  set (received := run lvl (map EvData chunks) _) in *.
  assert (Habort : step lvl (EvRequestError err) received =
            mkWorld (files received)
              (logMessage lvl LvError "multipart请求处理错误:" [("error", LogErr err)]
                 (console received))
              (req received) (Some (p, Ending)) (next_calls received ++ [Some err])).
  { unfold step. rewrite Hst. unfold on_request_error, call_next, set_stream, log.
    cbn [files console req stream next_calls]. rewrite Hst. reflexivity. }
  cbn [run fold_left]. rewrite Habort. unfold step.
  cbn [files console req stream next_calls].
  unfold on_stream_finish, call_next, set_stream, log.
  cbn [files console req stream next_calls].
  rewrite Hnext, Hreq, <- app_assoc. repeat split. exact Hfile.
Qed.

Lemma aborted_upload_calls_next_twice_witness :
  next_calls
    (run (Some 2) (map EvData ["part"] ++ [EvRequestError sample_error; EvStreamFinish])
       (spool_middleware (Some 2) "/tmp" sample_random sample_upload))
  = next_calls sample_upload ++ [Some sample_error; None].
Proof.
  apply (aborted_upload_calls_next_twice (Some 2) "/tmp" sample_random sample_upload
           ["part"] sample_error eq_refl).
Defined.

End SpoolEdgeFacts.

(* ===================================================================== *)
(** * An upload from the socket to the application *)
(* ===================================================================== *)

Module UploadFacts.
Import Js Logging Json Express Spool Bridge SpoolFacts BridgeFacts SpoolEdgeFacts.

(** The canonical request of a multipart request whose temporary file
    exists carries a read stream on that file. *)
Lemma createAdaptedRequest_spooled (lvl : option Z) (existsSync : string -> bool)
    (form_urlencode : JsVal -> string) (runtime : Runtime) (r : Request)
    (console : list LogEntry) (p : string) creq console' :
  may_carry_body (method r) = true ->
  method r <> "MKCOL" ->
  includes (header r "content-type") "multipart/form-data" = true ->
  tempFilePath r = Some p ->
  String.eqb p "" = false ->
  existsSync p = true ->
  createAdaptedRequest lvl existsSync form_urlencode runtime r console
  = (Return creq, console') ->
  cr_body creq = Some (BodyFileStream p)
  /\ cr_duplex creq = Some "half"
  /\ cr_method creq = method r.
Proof.
  intros Hcarry Hm Hmulti Hp Hne Hexists Hreq.
  destruct (createAdaptedRequest_returned lvl existsSync form_urlencode runtime r console
              creq console' Hreq) as (console1 & Hsel & Hinit & _).
  assert (cr_duplex creq = match cr_body creq with Some _ => Some "half" | None => None end
          /\ cr_method creq = method r)
    as [Hduplex Hmethod] by (rewrite Hinit; split; reflexivity).
  revert Hsel. unfold select_body, body_from_upload, spooled_file.
  rewrite Hcarry, Hmulti, Hp, Hne, Hexists. cbn [negb andb].
  destruct (String.eqb_spec (method r) "MKCOL") as [|_]; [contradiction|].
  unfold bind, ret, Bridge.log. cbn [fst snd]. intros [= Hbody _].
  rewrite Hduplex, <- Hbody. repeat split. assumption.
Qed.

(** X18.  A multipart upload that completes: once all chunks are written and the
    stream has finished, [next] has been called once, without an error; the
    temporary file holds the chunks in order; the canonical request the
    bridge returns for the application carries a read stream on that very
    file; and when the response finishes the file is removed and the request
    no longer refers to it. *)
Theorem completed_upload_is_streamed_then_removed :
  forall (lvl : option Z) (tmpdir random : string) (w : World) (chunks : list string)
         (form_urlencode : JsVal -> string) (runtime : Runtime) (printed : list LogEntry),
    is_multipart_post (req w) = true ->
    let p := temp_file_path tmpdir random in
    let stored :=
      run lvl (map EvData chunks ++ [EvRequestEnd; EvStreamFinish])
        (spool_middleware lvl tmpdir random w) in
    let cleaned := step lvl EvResponseFinish stored in
    next_calls stored = next_calls w ++ [None]
    /\ files stored !! p = Some (joined chunks)
    /\ (forall creq console',
          createAdaptedRequest lvl (Upload.existsSync (files stored)) form_urlencode
            runtime (req stored) printed = (Return creq, console') ->
          cr_method creq = "POST"
          /\ cr_body creq = Some (BodyFileStream p)
          /\ cr_duplex creq = Some "half")
    /\ files cleaned !! p = None
    /\ tempFilePath (req cleaned) = None
    /\ next_calls cleaned = next_calls stored.
Proof.
  intros lvl tmpdir random w chunks form_urlencode runtime printed Hpost p stored cleaned.
  destruct (spooled_after_data lvl tmpdir random chunks w Hpost)
    as (Hst & Hfile & Hnext & Hreq).
  fold p in Hst, Hfile, Hreq.
  assert (Hstored : stored =
            mkWorld (files (run lvl (map EvData chunks)
                              (spool_middleware lvl tmpdir random w)))
              (logMessage lvl LvDebug ("multipart请求数据已保存到临时文件: " +:+ p) []
                 (console (run lvl (map EvData chunks)
                             (spool_middleware lvl tmpdir random w))))
              (set_tempFilePath (Some p) (req w))
              (Some (p, Finished)) (next_calls w ++ [None])).
  { subst stored. rewrite run_app.
    set (received := run lvl (map EvData chunks) _) in *.
    cbn [run fold_left]. unfold step at 2. rewrite Hst.
    unfold set_stream. unfold step. cbn [files console req stream next_calls].
    unfold on_stream_finish, call_next, set_stream, Spool.log.
    cbn [files console req stream next_calls]. rewrite Hnext, Hreq. reflexivity. }
  assert (Hne : String.eqb p "" = false) by apply temp_file_path_truthy.
  pose proof Hpost as Hparts. unfold is_multipart_post in Hparts.
  apply andb_true_iff in Hparts as [Hparts Hmulti].
  apply andb_true_iff in Hparts as [Hverb _].
  apply String.eqb_eq in Hverb.
  subst cleaned. rewrite Hstored. cbn [files console req stream next_calls].
  split; [reflexivity|]. split; [exact Hfile|]. split.
  - intros creq console' Hcreq.
    destruct (createAdaptedRequest_spooled lvl
                (Upload.existsSync
                   (files (run lvl (map EvData chunks)
                             (spool_middleware lvl tmpdir random w))))
                form_urlencode runtime (set_tempFilePath (Some p) (req w)) printed p
                creq console')
      as (Hbody & Hduplex & Hmethod).
    + cbn [set_tempFilePath method]. rewrite Hverb. reflexivity.
    + cbn [set_tempFilePath method]. rewrite Hverb. discriminate.
    + exact Hmulti.
    + reflexivity.
    + exact Hne.
    + unfold Upload.existsSync. now rewrite Hfile.
    + exact Hcreq.
    + rewrite Hmethod. cbn [set_tempFilePath method].
      repeat split; assumption.
  - unfold step. cbn [files console req stream next_calls].
    unfold on_response_finish, unlinkSync, Spool.log.
    cbn [files console req stream next_calls set_tempFilePath tempFilePath].
    rewrite Hne. cbn [files console req stream next_calls]. rewrite Hfile.
    cbn [files console req stream next_calls set_tempFilePath tempFilePath].
    repeat split. apply lookup_delete_eq.
Qed.

Lemma completed_upload_is_streamed_then_removed_witness :
  let stored :=
    run (Some 2) (map EvData ["--x"; "data"] ++ [EvRequestEnd; EvStreamFinish])
      (spool_middleware (Some 2) "/tmp" sample_random sample_upload) in
  files stored !! temp_file_path "/tmp" sample_random = Some (joined ["--x"; "data"])
  /\ exists creq console',
       createAdaptedRequest (Some 2) (Upload.existsSync (files stored)) (fun _ => "")
         sample_runtime (req stored) [] = (Return creq, console')
       /\ cr_body creq = Some (BodyFileStream (temp_file_path "/tmp" sample_random)).
Proof.
  destruct (completed_upload_is_streamed_then_removed (Some 2) "/tmp" sample_random
              sample_upload ["--x"; "data"] (fun _ => "") sample_runtime [] eq_refl)
    as (_ & Hfile & Hstream & _).
  split; [exact Hfile|].
  eexists _, _. split; [vm_compute; reflexivity|].
  eapply Hstream. vm_compute. reflexivity.
Defined.

End UploadFacts.

(* ===================================================================== *)
(** * The protocol middleware outside the preflight *)
(* ===================================================================== *)

Module DavEdgeFacts.
Import Js Express Dav Measures.

(** X19.  Outside the preflight the protocol middleware ends nothing.  A request
    whose path does not start with [/dav] passes with the response as it
    was; one that does, with another verb than OPTIONS, passes with the
    status and the body state untouched and the two verb lists set.  In
    every case, a preflight included, the middleware changes no header but
    [Allow], [Access-Control-Allow-Methods], [DAV] and [MS-Author-Via]. *)
Theorem protocol_middleware_only_adds_its_headers :
  forall (cfg : WebDAVConfig) (req : Request) (res : Response),
    (startsWith (path req) "/dav" = false -> dav_middleware cfg req res = Next res)
    /\ (startsWith (path req) "/dav" = true ->
        method req <> "OPTIONS" ->
        exists res',
          dav_middleware cfg req res = Next res'
          /\ statusCode res' = statusCode res
          /\ sent res' = sent res
          /\ res_headers res' !! "allow" = Some (supported_methods cfg)
          /\ res_headers res' !! "access-control-allow-methods"
             = Some (supported_methods cfg))
    /\ (forall name,
          ~ In name ["allow"; "access-control-allow-methods"; "dav"; "ms-author-via"] ->
          res_headers (handled_response (dav_middleware cfg req res)) !! name
          = res_headers res !! name).
Proof.
  intros cfg req res. unfold dav_middleware.
  change (lower "Access-Control-Allow-Methods") with "access-control-allow-methods".
  destruct (startsWith (path req) "/dav"); repeat split; try discriminate.
  - intros _ Hm. apply String.eqb_neq in Hm. rewrite Hm.
    eexists. split; [reflexivity|]. unfold setHeader. cbn [statusCode sent res_headers].
    change (lower "Access-Control-Allow-Methods") with "access-control-allow-methods".
    change (lower "Allow") with "allow".
    repeat split.
    + apply lookup_insert_eq.
    + rewrite lookup_insert_ne by discriminate. apply lookup_insert_eq.
  - intros name Hname.
    assert (Hne : name <> "allow" /\ name <> "access-control-allow-methods"
                  /\ name <> "dav" /\ name <> "ms-author-via").
    { cbn [In] in Hname. repeat split; intros ->; apply Hname; tauto. }
    destruct Hne as (H1 & H2 & H3 & H4).
    destruct (String.eqb (method req) "OPTIONS");
      unfold finish, status, setHeader; cbn [handled_response statusCode sent res_headers];
      change (lower "Access-Control-Allow-Methods") with "access-control-allow-methods";
      change (lower "Allow") with "allow";
      change (lower "DAV") with "dav";
      change (lower "MS-Author-Via") with "ms-author-via";
      rewrite !lookup_insert_ne by congruence; reflexivity.
Qed.

End DavEdgeFacts.

(* ===================================================================== *)
(** * Routes of the protocol verbs and errors of the body parsers *)
(* ===================================================================== *)

Module PipelineFacts.
Import Js Logging Json Express Dav Pipeline.

(** ** Routes for the protocol verbs *)

Section Routes.

Variable lvl : option Z.
Variable matches_dav_route : string -> bool.

(** One route logs exactly when the path matches and the verb of the route
    is the verb of the request. *)
Lemma direct_route_logs (m : string) (req : Request) (console : list LogEntry) :
  direct_route lvl matches_dav_route m req console =
  if matches_dav_route (path req) && String.eqb (method req) m
  then logMessage lvl LvDebug
         ("直接WebDAV路由处理: " +:+ method req +:+ " " +:+ path req) [] console
  else console.
Proof.
  unfold direct_route, method_gate.
  destruct (matches_dav_route (path req)); [|reflexivity].
  destruct (String.eqb_spec (method req) m) as [->|]; reflexivity.
Qed.

Lemma direct_routes_log (verbs : list string) (req : Request) :
  forall console,
    fold_left (fun console m => direct_route lvl matches_dav_route m req console)
      verbs console
    = console
      ++ repeat (mkLog LvDebug
                   ("直接WebDAV路由处理: " +:+ method req +:+ " " +:+ path req) [])
           (if matches_dav_route (path req) && level_enabled lvl LvDebug
            then count_occ string_dec verbs (method req)
            else 0%nat).
Proof.
  induction verbs as [|m verbs IH]; intros console; cbn [fold_left count_occ].
  - destruct (_ && _); cbn [repeat]; now rewrite app_nil_r.
  - rewrite IH, direct_route_logs. unfold logMessage.
    destruct (matches_dav_route (path req)); cbn [andb].
    + destruct (string_dec m (method req)) as [->|Hne].
      * rewrite String.eqb_refl.
        destruct (level_enabled lvl LvDebug); [|reflexivity].
        rewrite <- app_assoc. reflexivity.
      * assert (String.eqb (method req) m = false) as ->
          by (apply String.eqb_neq; congruence).
        reflexivity.
    + destruct (String.eqb (method req) m); reflexivity.
Qed.

End Routes.

(** X20.  The routes registered for the protocol verbs let every request through
    and log one debug line for each time the verb of the request is listed
    among the supported verbs, when the path matches and debug lines are
    printed: no line for a verb that is not listed, none at all otherwise. *)
Theorem direct_routes_log_once_per_listed_verb :
  forall (lvl : option Z) (matches_dav_route : string -> bool) (cfg : WebDAVConfig)
         (req : Request) (console : list LogEntry),
    direct_routes lvl matches_dav_route cfg req console
    = console
      ++ repeat (mkLog LvDebug
                   ("直接WebDAV路由处理: " +:+ method req +:+ " " +:+ path req) [])
           (if matches_dav_route (path req) && level_enabled lvl LvDebug
            then count_occ string_dec (SUPPORTED_METHODS cfg) (method req)
            else 0%nat).
Proof.
  intros. unfold direct_routes. apply direct_routes_log.
Qed.

(** ** Errors of the body parsers *)

(** X21.  The error middleware either answers or passes the error on, never
    both.  It answers 413 exactly for an error of type [entity.too.large],
    whatever its message and status; otherwise 400 exactly for a message
    that reports a broken multipart form; otherwise 415 exactly for the
    status 415 or a message about the content type.  An answer is a JSON
    body, leaves the headers as they were, and comes with one error entry
    in the log; the answer 400 repeats the message of the error to the
    client.  Every other error is passed on as it came, with the response
    and the console untouched. *)
Theorem parser_error_is_answered_or_passed_on :
  forall (lvl : option Z) (err : ParserError) (req : Request) (res : Response)
         (console : list LogEntry),
    match body_error_middleware lvl err req (res, console) with
    | (Replied res', console') =>
        res_headers res' = res_headers res
        /\ (exists message data,
              console' = logMessage lvl LvError message data console)
        /\ ((is_too_large err = true
             /\ statusCode res' = 413
             /\ sent res' = Some (PayloadJson (too_large_body err)))
            \/ (is_too_large err = false /\ is_bad_form err = true
                /\ statusCode res' = 400
                /\ exists m,
                     err_message (pe_error err) = Some m
                     /\ sent res' =
                          Some (PayloadJson
                                  (JObj [("error", JStr "无效的表单数据");
                                         ("message",
                                          JStr "无法解析multipart/form-data请求，请检查表单格式是否正确");
                                         ("detail", JStr m)])))
            \/ (is_too_large err = false /\ is_bad_form err = false
                /\ is_bad_type err = true
                /\ statusCode res' = 415
                /\ sent res' = Some (PayloadJson (bad_type_body req))))
    | (PassedOn err' res', console') =>
        err' = err /\ res' = res /\ console' = console
        /\ is_too_large err = false /\ is_bad_form err = false
        /\ is_bad_type err = false
    end.
Proof.
  intros lvl err req res console. unfold body_error_middleware.
  destruct (is_too_large err) eqn:Hlarge.
  { split; [reflexivity|]. split; [eauto|]. left. repeat split. }
  destruct (is_bad_form err) eqn:Hform.
  { split; [reflexivity|]. split; [eauto|]. right. left. repeat split.
    unfold is_bad_form, message_includes, bad_form_body in *.
    destruct (err_message (pe_error err)) as [m|]; [|discriminate].
    exists m. split; reflexivity. }
  destruct (is_bad_type err) eqn:Htype.
  { split; [reflexivity|]. split; [eauto|]. right. right. repeat split. }
  repeat split.
Qed.

End PipelineFacts.

(* ===================================================================== *)
(** * The log threshold *)
(* ===================================================================== *)

Module EnvironmentFacts.
Import Js Logging Environment.

Lemma parseInt_letter (c : ascii) (rest : string) :
  is_letter c = true -> parseInt (String c rest) = None.
Proof.
  intros H. unfold parseInt. cbn [String.length trim_start].
  assert (Hstrip : strip_space (String c rest) = None).
  { revert H. destruct c as [[] [] [] [] [] [] [] []]; intros H;
      try discriminate H; reflexivity. }
  rewrite Hstrip. revert H.
  destruct c as [[] [] [] [] [] [] [] []]; intros H; try discriminate H; reflexivity.
Qed.

Lemma logMessage_not_a_number level message data console :
  logMessage None level message data console = console.
Proof. reflexivity. Qed.

(** X22.  The log is filtered by severity, by a threshold read from the
    environment.  Without [LOG_LEVEL], or with an empty one, errors, warnings
    and information are printed and debug lines are not.  With a
    [LOG_LEVEL] that starts with a letter, a level name such as [debug]
    or [ERROR], the threshold is not a number and nothing is printed at
    any level, errors included.  For every threshold, a call adds at most
    its one entry after the entries already there, and a level that is
    printed makes every more severe level printed as well. *)
Theorem log_threshold_from_the_environment :
  (forall (LOG_LEVEL : option string) (level : Level),
      truthy_str LOG_LEVEL = false ->
      level_enabled (current_log_level LOG_LEVEL) level =
        match level with LvDebug => false | _ => true end)
  /\ (forall (c : ascii) (rest : string) level message data console,
        is_letter c = true ->
        logMessage (current_log_level (Some (String c rest))) level message data console
        = console)
  /\ (forall (current : option Z) level message data console,
        logMessage current level message data console = console
        \/ logMessage current level message data console
           = console ++ [mkLog level message data])
  /\ (forall (current : option Z) (level severe : Level),
        (LOG_LEVELS severe <= LOG_LEVELS level)%Z ->
        level_enabled current level = true ->
        level_enabled current severe = true).
Proof.
  repeat split.
  - intros [text|] level H; [|now destruct level].
    cbn [truthy_str] in H. apply negb_false_iff in H.
    unfold current_log_level. rewrite H. now destruct level.
  - intros c rest level message data console H.
    unfold current_log_level. cbn [String.eqb]. rewrite (parseInt_letter c rest H).
    reflexivity.
  - intros current level message data console. unfold logMessage.
    destruct (level_enabled current level); [now right | now left].
  - intros [c|] level severe Hle; [|discriminate]. cbn [level_enabled].
    intros H. apply Z.leb_le. apply Z.leb_le in H. lia.
Qed.

Lemma log_threshold_from_the_environment_witness :
  logMessage (current_log_level (Some "debug")) LvError "SQL执行错误:" [] [] = [].
Proof.
  apply (proj1 (proj2 log_threshold_from_the_environment) "d"%char "ebug").
  reflexivity.
Defined.

End EnvironmentFacts.
